(** * The binding and formatting engine of ioBroker.vis-2

    A shallow embedding of [src/Vis/visFormatUtils.jsx] (class
    [VisFormatUtils]) and of [deepClone] and the project helpers from
    [src/Utils/utils.tsx].

    JavaScript numbers are IEEE 754 binary64 values, modelled by Rocq's
    primitive floats.  JavaScript strings are sequences of UTF-16 code
    units, modelled by [list N].  What the engine takes from the
    JavaScript runtime and from its collaborators (number printing and
    parsing, [Math], [JSON], [Date], the calendar library, [new Function],
    the token parser of [./visUtils]) is gathered in the class [Host]. *)

From Stdlib Require Import Floats.PrimFloat Floats.FloatOps Floats.SpecFloat.
From Stdlib Require Floats.FloatAxioms.
From Stdlib Require Import ZArith List Bool Ascii String Uint63 Lia.
From Stdlib Require DecimalN.
From stdpp Require Import base option list gmap.

Set Default Proof Using "Type".

(** ** JavaScript data *)

Module JS.

(** *** Strings *)

Abbreviation jsstring := (list N).

Definition js (s : string) : jsstring :=
  List.map N_of_ascii (list_ascii_of_string s).
Arguments js s%_string.

Fixpoint streq (a b : jsstring) : bool :=
  match a, b with
  | [], [] => true
  | x :: a', y :: b' => N.eqb x y && streq a' b'
  | _, _ => false
  end.

Fixpoint starts_with (p s : jsstring) : bool :=
  match p, s with
  | [], _ => true
  | x :: p', y :: s' => N.eqb x y && starts_with p' s'
  | _ :: _, [] => false
  end.

(** [String.prototype.indexOf]: position of the first occurrence. *)
Fixpoint index_of (p s : jsstring) : option nat :=
  if starts_with p s then Some 0
  else match s with
       | [] => None
       | _ :: s' => S <$> index_of p s'
       end.

Definition includes (p s : jsstring) : bool :=
  match index_of p s with Some _ => true | None => false end.

(** [s.replace(/p/g, r)] for a literal, non-empty pattern [p] and a
    replacement without [$]: non-overlapping occurrences, left to right.
    [k] counts the characters of a match still to be skipped. *)
Fixpoint replace_all_from (p r : jsstring) (k : nat) (s : jsstring) : jsstring :=
  match s with
  | [] => []
  | c :: s' =>
      match k with
      | S k' => replace_all_from p r k' s'
      | O => if starts_with p s
             then r ++ replace_all_from p r (length p - 1) s'
             else c :: replace_all_from p r 0 s'
      end
  end.

Definition replace_all (p r s : jsstring) : jsstring := replace_all_from p r 0 s.

(** [s.split(sep)] for a one-character separator. *)
Fixpoint split_on (sep : N) (s : jsstring) : list jsstring :=
  match s with
  | [] => [[]]
  | c :: s' =>
      if N.eqb c sep then [] :: split_on sep s'
      else match split_on sep s' with
           | [] => [[c]]
           | w :: ws => (c :: w) :: ws
           end
  end.

Fixpoint join (sep : jsstring) (l : list jsstring) : jsstring :=
  match l with
  | [] => []
  | [x] => x
  | x :: l' => x ++ sep ++ join sep l'
  end.

Definition is_digit (c : N) : bool := (48 <=? c)%N && (c <=? 57)%N.
Definition is_upper (c : N) : bool := (65 <=? c)%N && (c <=? 90)%N.
Definition is_lower (c : N) : bool := (97 <=? c)%N && (c <=? 122)%N.
(** [\w] of a regular expression without the [u] and [i] flags. *)
Definition is_word (c : N) : bool :=
  is_digit c || is_upper c || is_lower c || N.eqb c 95.

(** [toLowerCase] and [toUpperCase] on the ASCII letters; other code units
    are kept.  The engine compares the lowered string with ['duration'] and
    upper-cases hexadecimal numerals only. *)
Definition toLowerCase (s : jsstring) : jsstring :=
  List.map (fun c => if is_upper c then (c + 32)%N else c) s.
Definition toUpperCase (s : jsstring) : jsstring :=
  List.map (fun c => if is_lower c then (c - 32)%N else c) s.

(** The code points of a string: a high surrogate followed by a low one
    is one code point of two code units. *)
Definition is_high_surrogate (c : N) : bool := (55296 <=? c)%N && (c <=? 56319)%N.
Definition is_low_surrogate (c : N) : bool := (56320 <=? c)%N && (c <=? 57343)%N.

Fixpoint code_points (s : jsstring) : list jsstring :=
  match s with
  | [] => []
  | h :: s' =>
      match s' with
      | l :: s'' =>
          if is_high_surrogate h && is_low_surrogate l
          then [h; l] :: code_points s''
          else [h] :: code_points s'
      | [] => [[h]]
      end
  end.

(** [GetSubstitution] of ECMA-262: the expansion of the [$] patterns of a
    replacement template.  [before] and [after] are the parts of the
    subject around the match, [caps] the capture groups. *)
Definition digit_val (c : N) : nat := N.to_nat (c - 48).

Fixpoint GetSubstitution (matched before after : jsstring)
    (caps : list (option jsstring)) (tpl : jsstring) : jsstring :=
  match tpl with
  | [] => []
  | 36%N :: rest =>
      match rest with
      | 36%N :: rest' => 36%N :: GetSubstitution matched before after caps rest'
      | 38%N :: rest' => matched ++ GetSubstitution matched before after caps rest'
      | 96%N :: rest' => before ++ GetSubstitution matched before after caps rest'
      | 39%N :: rest' => after ++ GetSubstitution matched before after caps rest'
      | d1 :: rest' =>
          if is_digit d1 then
            let one := digit_val d1 in
            let single :=
              if (1 <=? one) && (one <=? length caps)
              then default [] (mjoin (caps !! (one - 1)))
                     ++ GetSubstitution matched before after caps rest'
              else 36%N :: d1 :: GetSubstitution matched before after caps rest' in
            match rest' with
            | d2 :: rest'' =>
                if is_digit d2 then
                  let two := one * 10 + digit_val d2 in
                  if (1 <=? two) && (two <=? length caps)
                  then default [] (mjoin (caps !! (two - 1)))
                         ++ GetSubstitution matched before after caps rest''
                  else single
                else single
            | [] => single
            end
          else 36%N :: GetSubstitution matched before after caps rest
      | [] => [36%N]
      end
  | c :: rest => c :: GetSubstitution matched before after caps rest
  end.

(** [s.replace(p, r)] for a string pattern [p]: the first occurrence only,
    the replacement template expanded. *)
Definition replace_first (p r s : jsstring) : jsstring :=
  match index_of p s with
  | None => s
  | Some i =>
      let before := take i s in
      let after := drop (i + length p) s in
      before ++ GetSubstitution p before after [] r ++ after
  end.

(** [s.replace(/\B(?=(\d{3})+(?!\d))/g, r)].  The pattern matches the empty
    string at a position that is not a word boundary and is followed by a
    run of digits whose length is a positive multiple of three; its one
    capture group holds the last three digits of the run. *)
Fixpoint digit_run (s : jsstring) : nat :=
  match s with
  | c :: s' => if is_digit c then S (digit_run s') else 0
  | [] => 0
  end.

Definition word_at (s : jsstring) : bool :=
  match s with c :: _ => is_word c | [] => false end.

Definition group_match (prev : option N) (rest : jsstring) : option jsstring :=
  let d := digit_run rest in
  let before_is_word := match prev with Some c => is_word c | None => false end in
  if negb (Bool.eqb before_is_word (word_at rest)) then None
  else if (3 <=? d) && (d mod 3 =? 0) then Some (take 3 (drop (d - 3) rest))
  else None.

Fixpoint group_replace_from (r : jsstring) (done_ : jsstring) (prev : option N)
    (rest : jsstring) : jsstring :=
  let ins :=
    match group_match prev rest with
    | Some cap => GetSubstitution [] (rev done_) rest [Some cap] r
    | None => []
    end in
  match rest with
  | [] => ins
  | c :: rest' => ins ++ c :: group_replace_from r (c :: done_) (Some c) rest'
  end.

Definition group_replace (r s : jsstring) : jsstring :=
  group_replace_from r [] None s.


(** *** Values

    Primitive values, arrays and plain objects.  An object is the list of
    its own properties in insertion order. *)

#[warnings="-register-all"]
Inductive value :=
| VUndefined
| VNull
| VBool (b : bool)
| VNum (x : float)
| VStr (s : jsstring)
| VArr (items : list value)
| VObj (props : list (jsstring * value)).

Inductive jstype := TUndefined | TObject | TBoolean | TNumber | TString.

Definition typeof (v : value) : jstype :=
  match v with
  | VUndefined => TUndefined
  | VNull | VArr _ | VObj _ => TObject
  | VBool _ => TBoolean
  | VNum _ => TNumber
  | VStr _ => TString
  end.

Definition is_type (t : jstype) (v : value) : bool :=
  match t, typeof v with
  | TUndefined, TUndefined | TObject, TObject | TBoolean, TBoolean
  | TNumber, TNumber | TString, TString => true
  | _, _ => false
  end.

(** [ToBoolean]: what [!v], [v && ...] and [v || ...] test. *)
Definition truthy (v : value) : bool :=
  match v with
  | VUndefined | VNull => false
  | VBool b => b
  | VNum x => negb (PrimFloat.is_zero x || PrimFloat.is_nan x)
  | VStr s => match s with [] => false | _ => true end
  | VArr _ | VObj _ => true
  end.

(** [v === undefined || v === null] *)
Definition nullish (v : value) : bool :=
  match v with VUndefined | VNull => true | _ => false end.

Definition is_undefined (v : value) : bool :=
  match v with VUndefined => true | _ => false end.

(** [a || b] *)
Definition js_or (a b : value) : value := if truthy a then a else b.

(** [j === v] for a number [j]. *)
Definition strict_eq_num (j : float) (v : value) : bool :=
  match v with VNum x => PrimFloat.eqb j x | _ => false end.

(** [v === 'literal'] *)
Definition is_str (lit : jsstring) (v : value) : bool :=
  match v with VStr s => streq s lit | _ => false end.

(** *** Exceptions and completions *)

(** What a [throw] carries: an error object of one of the built-in kinds,
    a plain value, or a value that has no text: a Symbol, or an object
    whose [toString] is missing or throws.  Converting the latter to a
    string throws in turn, [why]. *)
Inductive exn :=
| TypeError (msg : jsstring)
| RangeError (msg : jsstring)
| SyntaxError (msg : jsstring)
| Thrown (v : value)
| Unprintable (why : exn).

Inductive outcome (A : Type) :=
| Ok (a : A)
| Throw (e : exn).
Arguments Ok {A} a.
Arguments Throw {A} e.

(** *** Numbers *)

Definition nat_to_float (n : nat) : float :=
  PrimFloat.of_uint63 (Uint63.of_Z (Z.of_nat n)).

Definition Z_to_float (z : Z) : float :=
  if (z <? 0)%Z then PrimFloat.opp (PrimFloat.of_uint63 (Uint63.of_Z (- z)))
  else PrimFloat.of_uint63 (Uint63.of_Z z).

(** [ToIntegerOrInfinity] on the finite numbers (truncation towards zero);
    [None] for the infinities, and 0 for NaN as in ECMA-262. *)
Definition float_to_Z (x : float) : option Z :=
  match Prim2SF x with
  | S754_zero _ => Some 0%Z
  | S754_nan => Some 0%Z
  | S754_infinity _ => None
  | S754_finite s m e =>
      let a := match e with
               | Z0 => Z.pos m
               | Zpos p => Z.shiftl (Z.pos m) (Z.pos p)
               | Zneg p => Z.shiftr (Z.pos m) (Z.pos p)
               end in
      Some (if s then (- a)%Z else a)
  end.

Fixpoint uint_chars (u : Decimal.uint) : jsstring :=
  match u with
  | Decimal.Nil => []
  | Decimal.D0 u' => 48%N :: uint_chars u'
  | Decimal.D1 u' => 49%N :: uint_chars u'
  | Decimal.D2 u' => 50%N :: uint_chars u'
  | Decimal.D3 u' => 51%N :: uint_chars u'
  | Decimal.D4 u' => 52%N :: uint_chars u'
  | Decimal.D5 u' => 53%N :: uint_chars u'
  | Decimal.D6 u' => 54%N :: uint_chars u'
  | Decimal.D7 u' => 55%N :: uint_chars u'
  | Decimal.D8 u' => 56%N :: uint_chars u'
  | Decimal.D9 u' => 57%N :: uint_chars u'
  end.

(** The decimal numeral of a natural number, without leading zeros. *)
Definition N_to_dec (n : N) : jsstring := uint_chars (N.to_uint n).
Definition nat_to_dec (n : nat) : jsstring := N_to_dec (N.of_nat n).

(** An array index written canonically (["0"], ["17"], not ["017"]). *)
Fixpoint dec_value (acc : nat) (s : jsstring) : option nat :=
  match s with
  | [] => Some acc
  | c :: s' => if is_digit c then dec_value (acc * 10 + digit_val c) s' else None
  end.

Definition canonical_index (k : jsstring) : option nat :=
  match k with
  | [] => None
  | [48%N] => Some 0
  | 48%N :: _ => None
  | _ => dec_value 0 k
  end.

(** *** Property access *)

Fixpoint assoc (k : jsstring) (ps : list (jsstring * value)) : option value :=
  match ps with
  | [] => None
  | (k', v) :: ps' => if streq k k' then Some v else assoc k ps'
  end.

Fixpoint assoc_set (k : jsstring) (v : value) (ps : list (jsstring * value))
    : list (jsstring * value) :=
  match ps with
  | [] => [(k, v)]
  | (k', v') :: ps' =>
      if streq k k' then (k', v) :: ps' else (k', v') :: assoc_set k v ps'
  end.

Definition cannot_read (k : jsstring) : exn :=
  TypeError (js "Cannot read properties of undefined or null, reading " ++ k).

(** [v[k]] and [v.k]: own properties, the [length] and the elements of
    arrays and strings.  Properties inherited from the built-in prototypes
    are not modelled. *)
Definition get_prop (v : value) (k : jsstring) : outcome value :=
  match v with
  | VUndefined | VNull => Throw (cannot_read k)
  | VObj ps => Ok (default VUndefined (assoc k ps))
  | VArr xs =>
      if streq k (js "length") then Ok (VNum (nat_to_float (length xs)))
      else Ok (match canonical_index k with
               | Some i => default VUndefined (xs !! i)
               | None => VUndefined
               end)
  | VStr s =>
      if streq k (js "length") then Ok (VNum (nat_to_float (length s)))
      else Ok (match canonical_index k with
               | Some i => match s !! i with
                           | Some c => VStr [c]
                           | None => VUndefined
                           end
               | None => VUndefined
               end)
  | VBool _ | VNum _ => Ok VUndefined
  end.

(** [v[i]] for a loop counter [i]. *)
Definition get_item (v : value) (i : nat) : outcome value :=
  get_prop v (nat_to_dec i).

(** [v?.k] *)
Definition get_prop_opt (v : value) (k : jsstring) : value :=
  match get_prop v k with Ok x => x | Throw _ => VUndefined end.

(** *** [JSON.parse(JSON.stringify(v))] on a value

    [JSON.stringify] prints [undefined] array elements, NaN and the
    infinities as [null], omits properties whose value is [undefined] and
    prints [-0] as [0]; on plain data [JSON.parse] reads the text back as
    it stands. *)
Fixpoint json_copy (v : value) : value :=
  match v with
  | VUndefined => VNull
  | VNull => VNull
  | VBool b => VBool b
  | VNum x =>
      if PrimFloat.is_finite x
      then (if PrimFloat.is_zero x then VNum PrimFloat.zero else VNum x)
      else VNull
  | VStr s => VStr s
  | VArr xs => VArr (List.map json_copy xs)
  | VObj ps =>
      VObj ((fix props (ps : list (jsstring * value)) :=
               match ps with
               | [] => []
               | (k, VUndefined) :: ps' => props ps'
               | (k, x) :: ps' => (k, json_copy x) :: props ps'
               end) ps)
  end.

(** ** The host: JavaScript built-ins and external collaborators *)

Class Host := {
  (** [Number::toString] in radix 10 and in radix 16 *)
  Number_toString : float -> jsstring;
  Number_toString16 : float -> jsstring;
  (** [StringToNumber], [parseFloat] and [parseInt(_, 10)] on a string *)
  StringToNumber : jsstring -> float;
  parseFloat_string : jsstring -> float;
  parseInt_string : jsstring -> float;
  Math_round : float -> float;
  Math_floor : float -> float;
  Math_ceil : float -> float;
  Math_pow : float -> float -> float;
  Number_remainder : float -> float -> float;
  (** the n-th draw of [Math.random()] *)
  Math_random : nat -> float;
  (** [JSON.parse]; [None] when it throws a SyntaxError *)
  JSON_parse : jsstring -> option value;
  JSON_stringify : value -> jsstring;
  (** [new Function(body)()] *)
  Function_call : jsstring -> outcome value;
  (** [Date] objects *)
  Date : Type;
  Date_new : value -> Date;
  getFullYear : Date -> float;
  getMonth : Date -> float;
  getDate : Date -> float;
  getHours : Date -> float;
  getMinutes : Date -> float;
  getSeconds : Date -> float;
  getMilliseconds : Date -> float;
  getTimezoneOffset : Date -> float;
  setMilliseconds : Date -> float -> Date;
  (** instances of the calendar library *)
  Moment : Type;
  (** [extractBinding] of [./visUtils], the token parser; [None] is [null] *)
  visUtils_extractBinding : jsstring -> option (list value)
}.

(** The calendar library handle passed as [options.moment]. *)
Record MomentLib `{Host} := {
  moment_now : Moment;                         (* moment() *)
  moment_of : value -> Moment;                 (* moment(v) *)
  moment_clone : Moment -> Moment;             (* moment(m) *)
  moment_toString : Moment -> jsstring;        (* String(m) *)
  moment_subtract_day : Moment -> Moment;      (* m.subtract(1, 'day') *)
  moment_isSame_day : Moment -> Moment -> bool; (* m.isSame(n, 'day') *)
  moment_format : Moment -> jsstring -> jsstring (* m.format(pattern) *)
}.

Section Coercions.
Context `{Host}.

(** [ToString] *)
Fixpoint ToString (v : value) : jsstring :=
  match v with
  | VUndefined => js "undefined"
  | VNull => js "null"
  | VBool true => js "true"
  | VBool false => js "false"
  | VNum x => Number_toString x
  | VStr s => s
  | VArr xs =>
      join (js ",")
        (List.map (fun x => if nullish x then [] else ToString x) xs)
  | VObj _ => js "[object Object]"
  end.

(** [ToNumber] *)
Definition ToNumber (v : value) : float :=
  match v with
  | VUndefined => PrimFloat.nan
  | VNull => PrimFloat.zero
  | VBool true => PrimFloat.one
  | VBool false => PrimFloat.zero
  | VNum x => x
  | VStr s => StringToNumber s
  | VArr _ | VObj _ => StringToNumber (ToString v)
  end.

Definition parseFloat (v : value) : float := parseFloat_string (ToString v).
Definition parseInt (v : value) : float := parseInt_string (ToString v).

(** [x + v] for a number [x]: concatenation when [v] is a string or an
    object, addition otherwise. *)
Definition js_add_num (x : float) (v : value) : value :=
  match v with
  | VStr _ | VArr _ | VObj _ => VStr (Number_toString x ++ ToString v)
  | _ => VNum (PrimFloat.add x (ToNumber v))
  end.

(** [x < v] and [x > v] for a number [x]. *)
Definition js_lt_num (x : float) (v : value) : bool := PrimFloat.ltb x (ToNumber v).
Definition js_gt_num (x : float) (v : value) : bool := PrimFloat.ltb (ToNumber v) x.

(** [v[x]] for a number [x]. *)
Definition get_at (v : value) (x : float) : outcome value :=
  get_prop v (Number_toString x).

(** [Number.prototype.toFixed]: the decimal numeral of the integer [n]
    nearest to [x * 10^f], the larger one on a tie, with a point before
    its last [f] digits. *)
Definition round_scaled (m : positive) (e : Z) (f : Z) : Z :=
  let num := (Z.pos m * 10 ^ f)%Z in
  match e with
  | Z0 => num
  | Zpos p => Z.shiftl num (Z.pos p)
  | Zneg p => let den := Z.shiftl 1 (Z.pos p) in ((2 * num + den) / (2 * den))%Z
  end.

Definition fixed_digits (n : Z) (f : nat) : jsstring :=
  let m := N_to_dec (Z.to_N n) in
  if Nat.eqb f 0 then m
  else
    let m' := if length m <=? f then replicate (f + 1 - length m) 48%N ++ m else m in
    let k := length m' in
    take (k - f) m' ++ 46%N :: drop (k - f) m'.

Definition toFixed (x : float) (fractionDigits : value) : outcome jsstring :=
  match float_to_Z (ToNumber fractionDigits) with
  | None => Throw (RangeError (js "toFixed() digits argument must be between 0 and 100"))
  | Some f =>
      if ((f <? 0) || (100 <? f))%Z
      then Throw (RangeError (js "toFixed() digits argument must be between 0 and 100"))
      else if negb (PrimFloat.is_finite x) then Ok (Number_toString x)
      else if PrimFloat.leb 1e21%float (PrimFloat.abs x) then Ok (Number_toString x)
      else
        match Prim2SF x with
        | S754_finite s m e =>
            Ok ((if s then [45%N] else []) ++ fixed_digits (round_scaled m e f) (Z.to_nat f))
        | _ => Ok (fixed_digits 0 (Z.to_nat f))
        end
  end.

End Coercions.

End JS.

(** ** [deepClone] of [src/Utils/utils.tsx] *)

Module Utils.
Import JS.

(** [JSON.parse(JSON.stringify(object))].  [JSON.stringify(undefined)] is
    [undefined], which [JSON.parse] rejects. *)
Definition deepClone (object : value) : outcome value :=
  match object with
  | VUndefined => Throw (SyntaxError (js "undefined is not valid JSON"))
  | _ => Ok (json_copy object)
  end.

End Utils.

(** ** The class [VisFormatUtils] *)

Module VisFormatUtils.
Import JS Utils.

(** [this.vis]: the options the engine requires of its owner. *)
Record Vis := {
  user : value;
  loginRequired : value;
  instance : value;
  language : value;
  dateFormat : value;
  translate : jsstring -> jsstring;    (* this.vis._ *)
  editMode : bool;
  states : value
}.

Inductive level := Warn | Error.

(** Objects are held by reference.  [heap] maps the references the engine
    has created to the array each one denotes; [bindingsCache] maps a
    template to the reference of its cached binding list.  [parser_calls]
    records every call of the token parser, [console] what was logged and
    [random_draws] how often [Math.random] was called. *)
Record engine := {
  bindingsCache : gmap jsstring nat;
  heap : gmap nat value;
  next_ref : nat;
  parser_calls : list jsstring;
  console : list (level * jsstring);
  random_draws : nat
}.

Definition new_engine : engine :=
  {| bindingsCache := ∅; heap := ∅; next_ref := 0; parser_calls := [];
     console := []; random_draws := 0 |}.

(** Computations on the engine: a state and exception monad. *)
Definition M (A : Type) : Type := engine -> outcome A * engine.

Definition ret {A} (a : A) : M A := fun st => (Ok a, st).
Definition throw {A} (e : exn) : M A := fun st => (Throw e, st).
Definition lift {A} (o : outcome A) : M A := fun st => (o, st).
Definition bind {A B} (m : M A) (k : A -> M B) : M B :=
  fun st => match m st with
            | (Ok a, st') => k a st'
            | (Throw e, st') => (Throw e, st')
            end.
Definition try_catch {A} (m : M A) (handler : exn -> M A) : M A :=
  fun st => match m st with
            | (Ok a, st') => (Ok a, st')
            | (Throw e, st') => handler e st'
            end.

Definition obind {A B} (o : outcome A) (k : A -> outcome B) : outcome B :=
  match o with Ok a => k a | Throw e => Throw e end.

Notation "'do' x <- m ; k" := (bind m (fun x => k))
  (at level 10, x name, m at level 100, k at level 200).
Notation "'do' ' p <- m ; k" := (bind m (fun x => match x with p => k end))
  (at level 10, p pattern, m at level 100, k at level 200).
Notation "'let!' x := o 'in' k" := (obind o (fun x => k))
  (at level 10, x name, o at level 100, k at level 200).
Notation "'let!' ' p := o 'in' k" := (obind o (fun x => match x with p => k end))
  (at level 10, p pattern, o at level 100, k at level 200).

Definition log (l : level) (msg : jsstring) : M unit :=
  fun st => (Ok tt,
             {| bindingsCache := bindingsCache st; heap := heap st;
                next_ref := next_ref st; parser_calls := parser_calls st;
                console := console st ++ [(l, msg)];
                random_draws := random_draws st |}).

(** A new object: a reference nothing else holds. *)
Definition alloc (v : value) : M nat :=
  fun st => (Ok (next_ref st),
             {| bindingsCache := bindingsCache st;
                heap := <[next_ref st := v]> (heap st);
                next_ref := S (next_ref st); parser_calls := parser_calls st;
                console := console st; random_draws := random_draws st |}).

Definition cache_store (format : jsstring) (r : nat) : M unit :=
  fun st => (Ok tt,
             {| bindingsCache := <[format := r]> (bindingsCache st);
                heap := heap st; next_ref := next_ref st;
                parser_calls := parser_calls st; console := console st;
                random_draws := random_draws st |}).

(** [this.bindingsCache] is a plain object: a lookup finds the entries
    stored in it and, for the names of [Object.prototype], what every
    object inherits: a function, or under [__proto__] the prototype
    itself. *)
Inductive found :=
| FoundList (master : nat)
| FoundFunction
| FoundPrototype.

Definition Object_prototype_functions : list jsstring :=
  [ js "constructor"; js "hasOwnProperty"; js "isPrototypeOf";
    js "propertyIsEnumerable"; js "toLocaleString"; js "toString"; js "valueOf";
    js "__defineGetter__"; js "__defineSetter__"; js "__lookupGetter__";
    js "__lookupSetter__" ].

Definition inherited_property (name : jsstring) : option found :=
  if streq name (js "__proto__") then Some FoundPrototype
  else if existsb (streq name) Object_prototype_functions then Some FoundFunction
  else None.

(** [this.bindingsCache[format]] *)
Definition cache_lookup (format : jsstring) : M (option found) :=
  fun st => (Ok (match bindingsCache st !! format with
                 | Some master => Some (FoundList master)
                 | None => inherited_property format
                 end), st).

Definition deref (r : nat) : M value :=
  fun st => (Ok (default VUndefined (heap st !! r)), st).

Section Engine.
Context `{Host}.
Variable vis : Vis.

Definition call_parser (format : jsstring) : M (option (list value)) :=
  fun st => (Ok (visUtils_extractBinding format),
             {| bindingsCache := bindingsCache st; heap := heap st;
                next_ref := next_ref st;
                parser_calls := parser_calls st ++ [format];
                console := console st; random_draws := random_draws st |}).

Definition random : M float :=
  fun st => (Ok (Math_random (random_draws st)),
             {| bindingsCache := bindingsCache st; heap := heap st;
                next_ref := next_ref st; parser_calls := parser_calls st;
                console := console st; random_draws := S (random_draws st) |}).

Definition not_a_function (what : jsstring) : exn :=
  TypeError (what ++ js " is not a function").
Definition not_iterable (what : jsstring) : exn :=
  TypeError (what ++ js " is not iterable").

(** The elements [v[0]], ..., [v[v.length - 1]] that a counting loop over
    [v] visits; [v.length] throws on [undefined] and [null].  A number or a
    boolean has no [length], so the loop body never runs; plain objects
    carrying a [length] of their own are not modelled. *)
Definition indexed_items (v : value) : outcome (list value) :=
  match v with
  | VUndefined | VNull => Throw (cannot_read (js "length"))
  | VArr xs => Ok xs
  | VStr s => Ok (List.map (fun c => VStr [c]) s)
  | VBool _ | VNum _ | VObj _ => Ok []
  end.

(** The elements a [for (... of v)] loop visits: the items of an array,
    the code points of a string. *)
Definition iterate (what : jsstring) (v : value) : outcome (list value) :=
  match v with
  | VArr xs => Ok xs
  | VStr s => Ok (List.map VStr (code_points s))
  | _ => Throw (not_iterable what)
  end.

(** [static getObjPropValue(obj, propPath)] *)
Fixpoint getObjPropValue_walk (obj : value) (parts : list jsstring) : outcome value :=
  match parts with
  | [] => Ok obj
  | part :: parts' =>
      let! obj' := get_prop obj part in
      if negb (truthy obj') then Ok VUndefined
      else getObjPropValue_walk obj' parts'
  end.

Definition getObjPropValue (obj propPath : value) : outcome value :=
  if negb (truthy obj) then Ok VUndefined
  else match propPath with
       | VStr p => getObjPropValue_walk obj (split_on 46 p)
       | VUndefined | VNull => Throw (cannot_read (js "split"))
       | _ => Throw (not_a_function (js "propPath.split"))
       end.

(** [getSpecialValues(name, view, wid, widgetData)] *)
Definition getSpecialValues (name view wid widgetData : value) : value :=
  if is_str (js "username.val") name then user vis
  else if is_str (js "login.val") name then loginRequired vis
  else if is_str (js "instance.val") name then instance vis
  else if is_str (js "language.val") name then language vis
  else if is_str (js "wid.val") name then wid
  else if is_str (js "wname.val") name
       then js_or (get_prop_opt widgetData (js "name")) wid
  else if is_str (js "view.val") name then view
  else VUndefined.

(** [static formatValue(value, decimals, _format)] *)
Definition formatValue (val decimals _format : value) : outcome value :=
  let '(decimals, _format) :=
    if negb (is_type TNumber decimals)
    then (VNum 2%float, VNum 2%float)     (* decimals = 2; _format = decimals; *)
    else (decimals, _format) in
  let format := if nullish _format then VStr (js ".,") else _format in
  let x := match val with VNum x => x | _ => parseFloat val end in
  if PrimFloat.is_nan x then Ok (VStr [])
  else
    let! fixed := toFixed x (js_or decimals (VNum 0%float)) in
    let! f0 := get_item format 0 in
    let! f1 := get_item format 1 in
    Ok (VStr (group_replace (ToString f0)
                (replace_first (ToString f0) (ToString f1) fixed))).

(** [formatMomentDate(dateObj, _format, useTodayOrYesterday, moment)].
    Its variable [dateObj] holds the argument first and a moment later. *)
Inductive moment_or_value :=
| AValue (v : value)
| AMoment (m : Moment).

Definition need_moment {A} (moment : option MomentLib)
    (k : MomentLib -> outcome A) : outcome A :=
  match moment with
  | Some lib => k lib
  | None => Throw (not_a_function (js "moment"))
  end.

(** [moment(dateObj)] *)
Definition moment_call (lib : MomentLib) (d : moment_or_value) : Moment :=
  match d with
  | AValue v => moment_of lib v
  | AMoment m => moment_clone lib m
  end.

(** A pattern on which a string method is called. *)
Definition pattern_text (method : jsstring) (format : value) : outcome jsstring :=
  match format with
  | VStr s => Ok s
  | VUndefined | VNull => Throw (cannot_read method)
  | _ => Throw (not_a_function (js "format." ++ method))
  end.

(** [format.replace('dddd', w).replace('ddd', w).replace('dd', w)] *)
Definition weekday_subst (w format : jsstring) : jsstring :=
  replace_first (js "dd") w
    (replace_first (js "ddd") w (replace_first (js "dddd") w format)).

Definition default_pattern : value := VStr (js "DD.MM.YYYY").

(** The moment that [dateObj] holds when the pattern is chosen: a string
    is parsed by the library, a number is taken as seconds or milliseconds
    by its size, an object is kept as it is. *)
Definition moment_of_input (dateObj : value) (moment : option MomentLib)
    : outcome moment_or_value :=
  let type := typeof dateObj in
  let! d1 :=
    match type with
    | TString => need_moment moment (fun lib => Ok (AMoment (moment_of lib dateObj)))
    | _ => Ok (AValue dateObj)
    end in
  match type with
  | TObject => Ok d1
  | _ =>
      need_moment moment (fun lib =>
        let j := match d1 with
                 | AValue v => parseInt v
                 | AMoment m => parseInt_string (moment_toString lib m)
                 end in
        let same := match d1 with
                    | AValue v => strict_eq_num j v
                    | AMoment _ => false
                    end in
        if same then
          (* maybe this is an interval? *)
          if PrimFloat.ltb j 946681200%float
          then Ok (AMoment (moment_call lib d1))
          else Ok (AMoment
                     (if PrimFloat.ltb j 946681200000%float
                      then moment_of lib (VNum (PrimFloat.mul j 1000%float))
                      else moment_of lib (VNum j)))
        else Ok (AMoment (moment_call lib d1)))
  end.

Definition formatMomentDate (dateObj _format useTodayOrYesterday : value)
    (moment : option MomentLib) : outcome value :=
  let useTodayOrYesterday :=
    if negb (is_undefined useTodayOrYesterday) then useTodayOrYesterday
    else VBool false in
  if negb (truthy dateObj) then Ok (VStr [])
  else
    let! dateObj := moment_of_input dateObj moment in
    let format := js_or _format (js_or (dateFormat vis) default_pattern) in
    if truthy useTodayOrYesterday then
      match dateObj with
      | AValue _ => Throw (not_a_function (js "dateObj.isSame"))
      | AMoment m =>
          need_moment moment (fun lib =>
            let! result :=
              if moment_isSame_day lib m (moment_now lib) then
                let todayStr := translate vis (js "Today") in
                let! f := pattern_text (js "replace") format in
                Ok (VStr (moment_format lib (moment_clone lib m)
                            (weekday_subst todayStr f)))
              else Ok VUndefined in
            if moment_isSame_day lib m (moment_subtract_day lib (moment_now lib)) then
              let yesterdayStr := translate vis (js "Yesterday") in
              let! f := pattern_text (js "replace") format in
              Ok (VStr (moment_format lib (moment_clone lib m)
                          (weekday_subst yesterdayStr f)))
            else Ok result)
      end
    else
      need_moment moment (fun lib =>
        let! f := pattern_text (js "match") format in
        Ok (VStr (moment_format lib (moment_call lib dateObj) f))).

(** [formatDate] holds in [dateObj] the argument first; a string or a
    number is replaced by a [Date], an object is kept as it is. *)
Inductive date_or_value :=
| BValue (v : value)
| BDate (d : Date).

Definition date_get (method : jsstring) (getter : Date -> float)
    (dateObj : date_or_value) : outcome float :=
  match dateObj with
  | BDate d => Ok (getter d)
  | BValue _ => Throw (not_a_function (js "dateObj." ++ method))
  end.

(** The Cyrillic letters of the format alphabet. *)
Definition cyr_GHE : N := 1043.   (* U+0413 *)
Definition cyr_EM : N := 1052.    (* U+041C *)
Definition cyr_DE : N := 1044.    (* U+0414 *)
Definition cyr_che : N := 1095.   (* U+0447 *)
Definition cyr_em : N := 1084.    (* U+043C *)
Definition cyr_es : N := 1089.    (* U+0441 *)

Definition one_of (ss : jsstring) (cases : list jsstring) : bool :=
  existsb (streq ss) cases.

(** [if (v < 10 && ss.length === 2) v = `0${v}`] *)
Definition pad2 (ss : jsstring) (v : float) : value :=
  if PrimFloat.ltb v 10%float && (length ss =? 2)
  then VStr (48%N :: Number_toString v)
  else VNum v.

(** [static _put(ss, dateObj, result)] *)
Definition _put (ss : jsstring) (dateObj : date_or_value) (result : jsstring)
    : outcome jsstring :=
  let! v :=
    if one_of ss [js "YYYY"; js "JJJJ"; [cyr_GHE; cyr_GHE; cyr_GHE; cyr_GHE];
                  js "YY"; js "JJ"; [cyr_GHE; cyr_GHE]] then
      let! y := date_get (js "getFullYear") getFullYear dateObj in
      Ok (VNum (if length ss =? 2 then Number_remainder y 100%float else y))
    else if one_of ss [js "MM"; js "M"; [cyr_EM; cyr_EM]; [cyr_EM]] then
      let! m := date_get (js "getMonth") getMonth dateObj in
      Ok (pad2 ss (PrimFloat.add m 1%float))
    else if one_of ss [js "DD"; js "TT"; js "D"; js "T"; [cyr_DE; cyr_DE]; [cyr_DE]] then
      let! d := date_get (js "getDate") getDate dateObj in
      Ok (pad2 ss d)
    else if one_of ss [js "hh"; js "SS"; js "h"; js "S"; [cyr_che; cyr_che]; [cyr_che]] then
      let! h := date_get (js "getHours") getHours dateObj in
      Ok (pad2 ss h)
    else if one_of ss [js "mm"; js "m"; [cyr_em; cyr_em]; [cyr_em]] then
      let! m := date_get (js "getMinutes") getMinutes dateObj in
      Ok (pad2 ss m)
    else if one_of ss [js "ss"; js "s"; js "cc"; js "c"] then
      let! s := date_get (js "getSeconds") getSeconds dateObj in
      Ok (VStr (ToString (pad2 ss s)))
    else if one_of ss [js "sss"; [cyr_es; cyr_es; cyr_es]] then
      let! ms := date_get (js "getMilliseconds") getMilliseconds dateObj in
      Ok (VStr (if PrimFloat.ltb ms 10%float then js "00" ++ Number_toString ms
                else if PrimFloat.ltb ms 100%float then js "0" ++ Number_toString ms
                else Number_toString ms))
    else Ok (VStr []) in
  Ok (result ++ ToString v).

Definition validFormatChars : jsstring :=
  js "YJ" ++ [cyr_GHE] ++ js "M" ++ [cyr_EM] ++ js "DT" ++ [cyr_DE]
    ++ js "hS" ++ [cyr_che] ++ js "m" ++ [cyr_em] ++ js "s" ++ [cyr_es].

(** The loop of [formatDate] over [format[0]], [format[1]], ..., and the
    final [_put]. *)
Fixpoint formatDate_loop (chars : list value) (dateObj : date_or_value)
    (s result : jsstring) : outcome jsstring :=
  match chars with
  | [] => _put s dateObj result
  | c :: chars' =>
      if includes (ToString c) validFormatChars
      then formatDate_loop chars' dateObj (s ++ ToString c) result
      else
        let! result' := _put s dateObj result in
        formatDate_loop chars' dateObj [] (result' ++ ToString c)
  end.

(** [dateObj.setMilliseconds(dateObj.getMilliseconds()
      + dateObj.getTimezoneOffset() * 60 * 1000)] *)
Definition shift_by_timezone_offset (d : Date) : Date :=
  setMilliseconds d
    (PrimFloat.add (getMilliseconds d)
       (PrimFloat.mul (PrimFloat.mul (getTimezoneOffset d) 60%float) 1000%float)).

(** The first lines of [formatDate]: the second argument is the duration
    flag, or else the pattern. *)
Definition duration_flag (isDuration _format : value) : bool * value :=
  let isDuration :=
    match isDuration with
    | VStr s => if streq (toLowerCase s) (js "duration") then VBool true else isDuration
    | _ => isDuration
    end in
  match isDuration with
  | VBool b => (b, _format)
  | other => (false, other)
  end.

(** The instant the argument denotes, and whether it was taken as a
    duration. *)
Definition date_of_input (dateObj : value) (isDuration : bool) : bool * date_or_value :=
  match typeof dateObj with
  | TString => (isDuration, BDate (Date_new dateObj))
  | TObject => (isDuration, BValue dateObj)
  | _ =>
      let j := parseInt dateObj in
      if strict_eq_num j dateObj then
        (* maybe this is an interval *)
        if PrimFloat.ltb j 946681200%float
        then (true, BDate (Date_new dateObj))
        else (isDuration,
              BDate (if PrimFloat.ltb j 946681200000%float
                     then Date_new (VNum (PrimFloat.mul j 1000%float))
                     else Date_new (VNum j)))
      else (isDuration, BDate (Date_new dateObj))
  end.

(** The text of a pattern for a date: the loop over the pattern. *)
Definition render_date (dateObj : date_or_value) (format : value) : outcome value :=
  let! chars := indexed_items format in
  let! result := formatDate_loop chars dateObj [] [] in
  Ok (VStr result).

(** [isDuration && dateObj.setMilliseconds(...)] *)
Definition shift_if (isDuration : bool) (dateObj : date_or_value)
    : outcome date_or_value :=
  if isDuration then
    match dateObj with
    | BDate d => Ok (BDate (shift_by_timezone_offset d))
    | BValue _ => Throw (not_a_function (js "dateObj.getMilliseconds"))
    end
  else Ok dateObj.

Definition formatDate (dateObj isDuration _format : value) : outcome value :=
  let '(isDuration, _format) := duration_flag isDuration _format in
  if negb (truthy dateObj) then Ok (VStr [])
  else
    let '(isDuration, dateObj) := date_of_input dateObj isDuration in
    let format := js_or _format (js_or (dateFormat vis) default_pattern) in
    let! dateObj := shift_if isDuration dateObj in
    render_date dateObj format.

(** [extractBinding(format)]: the token parser behind the cache. *)
Definition extractBinding (format : jsstring) : M (option nat) :=
  match format with
  | [] => ret None
  | _ =>
      do cached <- (if editMode vis then ret None else cache_lookup format);
      match cached with
      | Some (FoundList master) =>
          do bindings <- deref master;
          do copy <- lift (deepClone bindings);
          do r <- alloc copy;
          ret (Some r)
      | Some FoundFunction =>
          (* JSON.stringify of a function is undefined *)
          do copy <- lift (deepClone VUndefined);
          do r <- alloc copy;
          ret (Some r)
      | Some FoundPrototype =>
          (* Object.prototype has no enumerable property *)
          do copy <- lift (deepClone (VObj []));
          do r <- alloc copy;
          ret (Some r)
      | None =>
          do result <- call_parser format;
          match result with
          | None => ret None
          | Some bindings =>
              do r <- alloc (VArr bindings);
              (* cache bindings *)
              do _ <- (if negb (editMode vis) then
                         do copy <- lift (deepClone (VArr bindings));
                         do c <- alloc copy;
                         cache_store format c
                       else ret tt);
              ret (Some r)
          end
      end
  end.

(** [FormatBindingOptions]; an absent [values] is [VUndefined], an absent
    [moment] is [None]. *)
Record FormatBindingOptions := {
  format : jsstring;
  view : value;
  wid : value;
  widget : value;
  widgetData : value;
  values : value;
  moment : option MomentLib
}.

(** The operators of the [switch] on [operation.op]. *)
Inductive opkind :=
| OpEval | OpMul | OpDiv | OpAdd | OpSub | OpMod | OpRound | OpPow | OpSqrt
| OpHex | OpHex2 | OpHEX | OpHEX2 | OpValue | OpArray | OpDate | OpMomentDate
| OpMin | OpMax | OpRandom | OpFloor | OpCeil | OpJson | OpUnknown.

Definition operator_names : list (jsstring * opkind) :=
  [ (js "eval", OpEval); (js "*", OpMul); (js "/", OpDiv); (js "+", OpAdd);
    (js "-", OpSub); (js "%", OpMod); (js "round", OpRound); (js "pow", OpPow);
    (js "sqrt", OpSqrt); (js "hex", OpHex); (js "hex2", OpHex2);
    (js "HEX", OpHEX); (js "HEX2", OpHEX2); (js "value", OpValue);
    (js "array", OpArray); (js "date", OpDate); (js "momentDate", OpMomentDate);
    (js "min", OpMin); (js "max", OpMax); (js "random", OpRandom);
    (js "floor", OpFloor); (js "ceil", OpCeil); (js "json", OpJson) ].

Fixpoint find_operator (s : jsstring) (table : list (jsstring * opkind)) : opkind :=
  match table with
  | [] => OpUnknown
  | (name, k) :: table' => if streq s name then k else find_operator s table'
  end.

Definition opkind_of (op : value) : opkind :=
  match op with
  | VStr s => find_operator s operator_names
  | _ => OpUnknown
  end.

(** [w.data = widgetData] in strict code. *)
Definition set_prop (w : value) (k : jsstring) (x : value) : outcome value :=
  match w with
  | VObj ps => Ok (VObj (assoc_set k x ps))
  | VArr xs => Ok (VArr xs)    (* a named property, which JSON.stringify skips *)
  | VUndefined | VNull =>
      Throw (TypeError (js "Cannot set properties of undefined or null, setting " ++ k))
  | _ => Throw (TypeError (js "Cannot create property " ++ k))
  end.

Definition quote : jsstring := [34%N].
Definition backslash_quote : jsstring := [92%N; 34%N].

Section Pipeline.
Variable o : FormatBindingOptions.
(** [values = values || this.vis.states] *)
Let live_values : value := js_or (values o) (states vis).

(** One round of the loop of [eval] over [operation.arg]: the declaration
    added to the script, and the value left in the variable [value]. *)
Definition eval_argument (a : value) (acc : jsstring * value)
    : outcome (jsstring * value) :=
  let '(string, val) := acc in
  let! name := get_prop a (js "name") in
  if negb (truthy name) then Ok (string, val)
  else
    let! visOid := get_prop a (js "visOid") in
    let special := getSpecialValues visOid (view o) (wid o) (widgetData o) in
    let! val :=
      if nullish special then
        match visOid with
        | VStr s =>
            if starts_with (js "widgetOid.") s then
              let! data := get_prop (widget o) (js "data") in
              let! oid := get_prop data (js "oid") in
              let rest := drop 10 s in
              get_prop live_values
                (GetSubstitution (js "widgetOid.") [] rest [] (ToString oid ++ js ".")
                   ++ rest)
            else get_prop live_values s
        | VUndefined | VNull => Throw (cannot_read (js "startsWith"))
        | _ => Throw (not_a_function (js "visOid.startsWith"))
        end
      else Ok special in
    let decl := js "const " ++ ToString name ++ js " = " in
    match val with
    | VNull => Ok (string ++ decl ++ js "null;", val)
    | VUndefined => Ok (string ++ decl ++ js "undefined;", val)
    | VStr s =>
        match JSON_parse s with
        | Some parsed =>
            (* if array or object, we format it correctly, else it should be a string *)
            if is_type TObject parsed
            then Ok (string ++ decl ++ js "JSON.parse(" ++ quote
                       ++ replace_all quote backslash_quote (JSON_stringify parsed)
                       ++ quote ++ js ");", parsed)
            else Ok (string ++ decl ++ quote ++ ToString parsed ++ quote ++ js ";",
                     parsed)
        | None => Ok (string ++ decl ++ quote ++ s ++ quote ++ js ";", val)
        end
    | VArr _ | VObj _ => Ok (string ++ decl ++ JSON_stringify val ++ js ";", val)
    | VBool _ | VNum _ => Ok (string ++ decl ++ ToString val ++ js ";", val)
    end.

Fixpoint eval_arguments (args : list value) (acc : jsstring * value)
    : outcome (jsstring * value) :=
  match args with
  | [] => Ok acc
  | a :: args' =>
      let! acc' := eval_argument a acc in
      eval_arguments args' acc'
  end.

(** The script of an [eval] operation, as handed to [new Function]. *)
Definition eval_script (operation val : value) : outcome (jsstring * value) :=
  let! arg := get_prop operation (js "arg") in
  let! args := indexed_items arg in
  let! '(string, val) := eval_arguments args ([], val) in
  let! formula := get_prop operation (js "formula") in
  let! uses_widget :=
    if truthy formula then
      match formula with
      | VStr f => Ok (includes (js "widget.") f)
      | VArr xs => Ok (existsb (is_str (js "widget.")) xs)
      | _ => Throw (not_a_function (js "formula.includes"))
      end
    else Ok false in
  let! string :=
    if uses_widget then
      let! w := deepClone (widget o) in
      let! w := set_prop w (js "data") (widgetData o) in
      Ok (string ++ js "const widget = " ++ JSON_stringify w ++ js ";")
    else Ok string in
  let string := string ++ js "return " ++ ToString formula ++ js ";" in
  let string :=
    if includes backslash_quote string
    then replace_all backslash_quote quote string
    else string in
  Ok (string, val).

(** The text of [`${e}`] for a caught exception; the conversion throws
    for a value without a text. *)
Definition exn_text (e : exn) : outcome jsstring :=
  match e with
  | TypeError msg => Ok (js "TypeError: " ++ msg)
  | RangeError msg => Ok (js "RangeError: " ++ msg)
  | SyntaxError msg => Ok (js "SyntaxError: " ++ msg)
  | Thrown v => Ok (ToString v)
  | Unprintable why => Throw why
  end.

Definition pad_hex2 (s : jsstring) : jsstring :=
  if length s <? 2 then 48%N :: s else s.

(** One round of the loop over [oid.operations]: the body of the [switch].
    [format] is the template as rewritten so far. *)
Definition apply_operation (format : jsstring) (operation val : value) : M value :=
  do op <- lift (get_prop operation (js "op"));
  (* operation.arg: once operation.op was read, this read cannot throw *)
  do arg <- lift (get_prop operation (js "arg"));
  match opkind_of op with
  | OpEval =>
      do '(string, val) <- lift (eval_script operation val);
      try_catch
        (do result <- lift (Function_call string);
         ret (if truthy result && is_type TObject result
              then VStr (JSON_stringify result) else result))
        (fun e =>
           do _ <- log Error (js "Error in eval[value]: " ++ format);
           do _ <- log Error (js "Error in eval[script]: " ++ string);
           do text <- lift (exn_text e);
           do _ <- log Error (js "Error in eval[error]: " ++ text);
           ret (VNum 0%float))
  | OpMul =>
      ret (if nullish arg then val
           else VNum (PrimFloat.mul (parseFloat val) (ToNumber arg)))
  | OpDiv =>
      ret (if nullish arg then val
           else VNum (PrimFloat.div (parseFloat val) (ToNumber arg)))
  | OpAdd =>
      ret (if nullish arg then val else js_add_num (parseFloat val) arg)
  | OpSub =>
      ret (if nullish arg then val
           else VNum (PrimFloat.sub (parseFloat val) (ToNumber arg)))
  | OpMod =>
      ret (if nullish arg then val
           else VNum (Number_remainder (parseFloat val) (ToNumber arg)))
  | OpRound =>
      if is_undefined arg then ret (VNum (Math_round (parseFloat val)))
      else do s <- lift (toFixed (parseFloat val) arg); ret (VStr s)
  | OpPow =>
      ret (if is_undefined arg
           then VNum (PrimFloat.mul (parseFloat val) (parseFloat val))
           else VNum (Math_pow (parseFloat val) (ToNumber arg)))
  | OpSqrt => ret (VNum (PrimFloat.sqrt (parseFloat val)))
  | OpHex => ret (VStr (Number_toString16 (Math_round (parseFloat val))))
  | OpHex2 => ret (VStr (pad_hex2 (Number_toString16 (Math_round (parseFloat val)))))
  | OpHEX =>
      ret (VStr (toUpperCase (Number_toString16 (Math_round (parseFloat val)))))
  | OpHEX2 =>
      ret (VStr (pad_hex2
                   (toUpperCase (Number_toString16 (Math_round (parseFloat val))))))
  | OpValue => lift (formatValue val (VNum (parseInt arg)) VUndefined)
  | OpArray => lift (get_at arg (parseInt val))
  | OpDate => lift (formatDate val arg VUndefined)
  | OpMomentDate =>
      if nullish arg then ret val
      else
        match arg with
        | VStr s =>
            match split_on 44 s with
            | [p0] => lift (formatMomentDate val (VStr p0) (VBool false) (moment o))
            | [p0; p1] => lift (formatMomentDate val (VStr p0) (VStr p1) (moment o))
            | _ => ret (VStr (js "error"))
            end
        | _ => throw (not_a_function (js "operation.arg.split"))
        end
  | OpMin =>
      let x := parseFloat val in
      ret (if js_lt_num x arg then arg else VNum x)
  | OpMax =>
      let x := parseFloat val in
      ret (if js_gt_num x arg then arg else VNum x)
  | OpRandom =>
      do r <- random;
      ret (if is_undefined arg then VNum r else VNum (PrimFloat.mul r (ToNumber arg)))
  | OpFloor => ret (VNum (Math_floor (parseFloat val)))
  | OpCeil => ret (VNum (Math_ceil (parseFloat val)))
  | OpJson =>
      do val <- match val with
                | VStr ((_ :: _) as s) =>
                    match JSON_parse s with
                    | Some parsed => ret parsed
                    | None =>
                        do _ <- log Warn (js "Cannot parse JSON string: " ++ s);
                        ret val
                    end
                | _ => ret val
                end;
      if truthy val && is_type TObject val then lift (getObjPropValue val arg)
      else ret val
  | OpUnknown =>
      (* unknown condition *)
      do _ <- log Warn (js "Unknown operator: " ++ format);
      ret val
  end.

Fixpoint run_operations (format : jsstring) (operations : list value) (val : value)
    : M value :=
  match operations with
  | [] => ret val
  | operation :: operations' =>
      do val' <- apply_operation format operation val;
      run_operations format operations' val'
  end.

(** One round of the loop over [oids]: the value of the binding, its
    operations, and the substitution of its token. *)
Definition format_oid (format : jsstring) (oid : value) : M jsstring :=
  do visOid <- lift (get_prop oid (js "visOid"));
  do val <- (if truthy visOid then
               let special := getSpecialValues visOid (view o) (wid o) (widgetData o) in
               if nullish special then lift (get_prop live_values (ToString visOid))
               else ret special
             else ret VUndefined);
  do operations <- lift (get_prop oid (js "operations"));
  do val <- (if truthy operations then
               do ops <- lift (iterate (js "oid.operations") operations);
               run_operations format ops val
             else ret val);
  do token <- lift (get_prop oid (js "token"));
  ret (replace_first (ToString token) (ToString val) format).

Fixpoint format_oids (format : jsstring) (oids : list value) : M jsstring :=
  match oids with
  | [] => ret format
  | oid :: oids' =>
      do format' <- format_oid format oid;
      format_oids format' oids'
  end.

(** [format.replace(/{{/g, '{').replace(/}}/g, '}')] *)
Definition unescape_braces (format : jsstring) : jsstring :=
  replace_all (js "}}") (js "}") (replace_all (js "{{") (js "{") format).

(** [formatBinding(options)] *)
Definition formatBinding : M jsstring :=
  do oids <- extractBinding (format o);
  do items <- match oids with
              | None => throw (not_iterable (js "oids"))
              | Some r => do bindings <- deref r; lift (iterate (js "oids") bindings)
              end;
  do format' <- format_oids (format o) items;
  ret (unescape_braces format').

End Pipeline.
End Engine.
End VisFormatUtils.

(** ** A small host for running the engine

    The built-ins are implemented on the fragment the examples use.
    Numbers are printed and parsed as decimal integers (a fraction is cut
    off).  Instants are given as numbers, not as date strings, and local
    time is one hour ahead of UTC.  JSON texts, scripts and templates are
    the few forms listed below; the table [templates] stands for the token
    parser of [./visUtils], whose source is not part of this development. *)

Module Example.
Import JS Utils VisFormatUtils.

Definition is_integral (x : float) : bool :=
  match float_to_Z x with
  | Some z => PrimFloat.eqb (Z_to_float z) x
  | None => false
  end.

Definition number_text (x : float) : jsstring :=
  if PrimFloat.is_nan x then js "NaN"
  else if PrimFloat.eqb x PrimFloat.infinity then js "Infinity"
  else if PrimFloat.eqb x PrimFloat.neg_infinity then js "-Infinity"
  else match float_to_Z x with
       | Some z => (if (z <? 0)%Z then js "-" else []) ++ N_to_dec (Z.abs_N z)
       | None => js "NaN"
       end.

Fixpoint hex_digits (fuel : nat) (n : N) (acc : jsstring) : jsstring :=
  match fuel with
  | O => acc
  | S fuel' =>
      let d := (n mod 16)%N in
      let c := if (d <? 10)%N then (48 + d)%N else (87 + d)%N in
      if (n <? 16)%N then c :: acc else hex_digits fuel' (n / 16)%N (c :: acc)
  end.

Definition number_text16 (x : float) : jsstring :=
  if PrimFloat.is_nan x then js "NaN"
  else match float_to_Z x with
       | Some z => (if (z <? 0)%Z then js "-" else []) ++ hex_digits 64 (Z.abs_N z) []
       | None => js "Infinity"
       end.

Fixpoint leading_digits (s : jsstring) : jsstring :=
  match s with
  | c :: s' => if is_digit c then c :: leading_digits s' else []
  | [] => []
  end.

Definition digits_value (ds : jsstring) : Z :=
  fold_left (fun acc c => (acc * 10 + Z.of_N (c - 48))%Z) ds 0%Z.

(** A numeral [-?digits] at the start of the string; NaN when there is none. *)
Definition parse_integer (s : jsstring) : float :=
  let '(neg, body) := match s with
                      | 45%N :: s' => (true, s')
                      | _ => (false, s)
                      end in
  match leading_digits body with
  | [] => PrimFloat.nan
  | ds => Z_to_float (if neg then - digits_value ds else digits_value ds)
  end.

Definition string_to_number (s : jsstring) : float :=
  match s with
  | [] => PrimFloat.zero
  | _ => if streq (number_text (parse_integer s)) s then parse_integer s
         else PrimFloat.nan
  end.

(** The value [(-1)^s * m * 2^e] rounded to an integer by [pick]. *)
Definition round_with (pick : Z -> Z -> Z) (x : float) : float :=
  match Prim2SF x with
  | S754_finite s m (Zneg p) =>
      let num := if s then Z.neg m else Z.pos m in
      Z_to_float (pick num (Z.shiftl 1 (Z.pos p)))
  | _ => x
  end.

Definition math_floor : float -> float := round_with (fun n d => (n / d)%Z).
Definition math_ceil : float -> float := round_with (fun n d => (- ((- n) / d))%Z).
Definition math_round : float -> float :=
  round_with (fun n d => ((2 * n + d) / (2 * d))%Z).

Fixpoint power (x : float) (n : nat) : float :=
  match n with
  | O => PrimFloat.one
  | S n' => PrimFloat.mul x (power x n')
  end.

Definition math_pow (x y : float) : float :=
  match float_to_Z y with
  | Some n => if is_integral y && (0 <=? n)%Z then power x (Z.to_nat n) else PrimFloat.nan
  | None => PrimFloat.nan
  end.

Definition remainder (x y : float) : float :=
  match float_to_Z x, float_to_Z y with
  | Some a, Some b =>
      if is_integral x && is_integral y && negb (b =? 0)%Z
      then Z_to_float (Z.rem a b) else PrimFloat.nan
  | _, _ => PrimFloat.nan
  end.

Fixpoint json_text (v : value) : jsstring :=
  match v with
  | VUndefined | VNull => js "null"
  | VBool true => js "true"
  | VBool false => js "false"
  | VNum x => if PrimFloat.is_finite x then number_text x else js "null"
  | VStr s => quote ++ s ++ quote
  | VArr xs => js "[" ++ join (js ",") (List.map json_text xs) ++ js "]"
  | VObj ps =>
      js "{" ++
      join (js ",")
        ((fix props (ps : list (jsstring * value)) :=
            match ps with
            | [] => []
            | (k, VUndefined) :: ps' => props ps'
            | (k, x) :: ps' => (quote ++ k ++ js ":" ++ json_text x) :: props ps'
            end) ps)
      ++ js "}"
  end.

(** JSON texts that are one integer, one literal or one plain string. *)
Definition json_read (s : jsstring) : option value :=
  if streq s (js "null") then Some VNull
  else if streq s (js "true") then Some (VBool true)
  else if streq s (js "false") then Some (VBool false)
  else if negb (PrimFloat.is_nan (parse_integer s))
          && streq (number_text (parse_integer s)) s
  then Some (VNum (parse_integer s))
  else match s with
       | 34%N :: s' =>
           match rev s' with
           | 34%N :: body =>
               if existsb (fun c => N.eqb c 34 || N.eqb c 92) body then None
               else Some (VStr (rev body))
           | _ => None
           end
       | _ => None
       end.

(** Scripts of the form [return e;] where [e] is an integer, a literal,
    an identifier that nothing declares, or the call
    [Function('throw Symbol()')()], which throws a Symbol. *)
Definition run_script (body : jsstring) : outcome value :=
  if starts_with (js "return ") body then
    match rev (drop 7 body) with
    | 59%N :: e' =>
        let e := rev e' in
        if streq e (js "Function('throw Symbol()')()")
        then Throw (Unprintable
                      (TypeError (js "Cannot convert a Symbol value to a string")))
        else
        match json_read e with
        | Some (VStr _) | None =>
            if streq e (js "undefined") then Ok VUndefined
            else if forallb is_word e && negb (word_at e && is_digit (default 0%N (head e)))
                    && negb (streq e [])
            then Throw (Thrown (VStr (js "ReferenceError: " ++ e ++ js " is not defined")))
            else Throw (SyntaxError (js "Unexpected token"))
        | Some v => Ok v
        end
    | _ => Throw (SyntaxError (js "Unexpected end of input"))
    end
  else Throw (SyntaxError (js "Unexpected token")).

(** Instants are milliseconds since the epoch, [None] when invalid.  Local
    time is one hour ahead of UTC throughout. *)
Definition zone_minutes : Z := 60.
Definition ms_per_day : Z := 86400000.

Definition time_clip (x : float) : option Z :=
  if PrimFloat.is_nan x then None
  else match float_to_Z x with
       | Some t => if (Z.abs t <=? 8640000000000000)%Z then Some t else None
       | None => None
       end.

Definition instant_of (v : value) : option Z :=
  match v with
  | VNum x => time_clip x
  | VBool true => Some 1%Z
  | VBool false | VNull => Some 0%Z
  | _ => None
  end.

Definition local_time (t : Z) : Z := (t + zone_minutes * 60000)%Z.

(** Year, month (from 1) and day of the month of a day number. *)
Definition civil (days : Z) : Z * Z * Z :=
  let z := (days + 719468)%Z in
  let era := (z / 146097)%Z in
  let doe := (z - era * 146097)%Z in
  let yoe := ((doe - doe / 1460 + doe / 36524 - doe / 146096) / 365)%Z in
  let doy := (doe - (365 * yoe + yoe / 4 - yoe / 100))%Z in
  let mp := ((5 * doy + 2) / 153)%Z in
  let d := (doy - (153 * mp + 2) / 5 + 1)%Z in
  let m := if (mp <? 10)%Z then (mp + 3)%Z else (mp - 9)%Z in
  let y := (yoe + era * 400 + (if (m <=? 2)%Z then 1 else 0))%Z in
  (y, m, d).

Definition field (f : Z -> Z) (d : option Z) : float :=
  match d with
  | Some t => Z_to_float (f (local_time t))
  | None => PrimFloat.nan
  end.

Definition year_of (t : Z) : Z := fst (fst (civil (t / ms_per_day))).
Definition month_of (t : Z) : Z := snd (fst (civil (t / ms_per_day))) - 1.
Definition day_of (t : Z) : Z := snd (civil (t / ms_per_day)).
Definition hour_of (t : Z) : Z := (t mod ms_per_day) / 3600000.
Definition minute_of (t : Z) : Z := (t mod 3600000) / 60000.
Definition second_of (t : Z) : Z := (t mod 60000) / 1000.
Definition ms_of (t : Z) : Z := t mod 1000.

Definition set_ms (d : option Z) (ms : float) : option Z :=
  match d, float_to_Z ms with
  | Some t, Some n =>
      if PrimFloat.is_nan ms then None
      else
        let l := local_time t in
        time_clip (Z_to_float (l - ms_of l + n - zone_minutes * 60000))
  | _, _ => None
  end.

Definition vobj (ps : list (string * value)) : value :=
  VObj (List.map (fun p => (js (fst p), snd p)) ps).

(** What the token parser of [./visUtils] returns for a state id with a
    chain of operations. *)
Definition binding (oid token : string) (operations : value) : value :=
  vobj [ ("visOid", VStr (js oid ++ js ".val")); ("systemOid", VStr (js oid));
         ("token", VStr (js token)); ("operations", operations);
         ("format", VStr (js token)); ("isSeconds", VBool false) ]%string.

Definition templates : list (jsstring * list value) :=
  [ (js "{a}", [binding "a" "{a}" VUndefined]);
    (js "{a} and {b;foo}",
       [binding "a" "{a}" VUndefined;
        binding "b" "{b;foo}" (VArr [vobj [("op", VStr (js "foo"))]%string])]);
    (js "{a;min(10)}",
       [binding "a" "{a;min(10)}"
          (VArr [vobj [("op", VStr (js "min")); ("arg", VNum 10%float)]%string])]);
    (js "no tokens, empty list", []) ].

Fixpoint find_template (s : jsstring) (table : list (jsstring * list value))
    : option (list value) :=
  match table with
  | [] => None
  | (t, bs) :: table' => if streq s t then Some bs else find_template s table'
  end.

#[export] Instance host : Host := {|
  Number_toString := number_text;
  Number_toString16 := number_text16;
  StringToNumber := string_to_number;
  parseFloat_string := parse_integer;
  parseInt_string := parse_integer;
  Math_round := math_round;
  Math_floor := math_floor;
  Math_ceil := math_ceil;
  Math_pow := math_pow;
  Number_remainder := remainder;
  Math_random := fun _ => 0.5%float;
  JSON_parse := json_read;
  JSON_stringify := json_text;
  Function_call := run_script;
  Date := option Z;
  Date_new := instant_of;
  getFullYear := field year_of;
  getMonth := field month_of;
  getDate := field day_of;
  getHours := field hour_of;
  getMinutes := field minute_of;
  getSeconds := field second_of;
  getMilliseconds := field ms_of;
  getTimezoneOffset := fun d => match d with
                                | Some _ => Z_to_float (- zone_minutes)
                                | None => PrimFloat.nan
                                end;
  setMilliseconds := set_ms;
  Moment := option Z;
  visUtils_extractBinding := fun s => find_template s templates
|}.

(** A calendar library over the same instants; the current time is
    2023-11-14 22:13:20 UTC.  Its patterns know [YYYY], [MM] and [DD]. *)
Definition now_ms : Z := 1700000000000.

Definition same_day (a b : option Z) : bool :=
  match a, b with
  | Some s, Some t => (local_time s / ms_per_day =? local_time t / ms_per_day)%Z
  | _, _ => false
  end.

Definition two_digits (n : Z) : jsstring :=
  (if (n <? 10)%Z then js "0" else []) ++ N_to_dec (Z.to_N n).

Fixpoint render (fuel : nat) (t : Z) (pattern : jsstring) : jsstring :=
  match fuel with
  | O => []
  | S fuel' =>
      if starts_with (js "YYYY") pattern
      then N_to_dec (Z.to_N (year_of t)) ++ render fuel' t (drop 4 pattern)
      else if starts_with (js "MM") pattern
      then two_digits (month_of t + 1) ++ render fuel' t (drop 2 pattern)
      else if starts_with (js "DD") pattern
      then two_digits (day_of t) ++ render fuel' t (drop 2 pattern)
      else match pattern with
           | [] => []
           | c :: pattern' => c :: render fuel' t pattern'
           end
  end.

Definition lib : MomentLib := {|
  moment_now := Some now_ms;
  moment_of := instant_of;
  moment_clone := fun m => m;
  moment_toString := fun m => js "moment";
  moment_subtract_day := fun m => (fun t => t - ms_per_day)%Z <$> m;
  moment_isSame_day := same_day;
  moment_format := fun m pattern =>
    match m with
    | Some t => render (S (length pattern)) (local_time t) pattern
    | None => js "Invalid date"
    end
|}.

Definition the_states : value :=
  vobj [ ("a.val", VStr (js "1")); ("b.val", VStr (js "2")) ]%string.

Definition runtime : Vis := {|
  user := VStr (js "admin");
  loginRequired := VBool false;
  instance := VStr (js "0");
  language := VStr (js "en");
  dateFormat := VStr (js "DD.MM.YYYY");
  translate := fun w => w;
  editMode := false;
  states := the_states
|}.

Definition editor : Vis := {|
  user := user runtime; loginRequired := loginRequired runtime;
  instance := instance runtime; language := language runtime;
  dateFormat := dateFormat runtime; translate := translate runtime;
  editMode := true; states := states runtime
|}.

Definition options_for (template : string) : FormatBindingOptions := {|
  format := js template;
  view := VStr (js "main");
  wid := VStr (js "w00001");
  widget := vobj [ ("data", vobj [ ("oid", VStr (js "a")) ]%string) ]%string;
  widgetData := vobj [ ("oid", VStr (js "a")) ]%string;
  values := VUndefined;
  moment := Some lib
|}.

(** [{ op: 'eval', arg: [], formula: 'oops' }] *)
Definition failing_eval : value :=
  vobj [ ("op", VStr (js "eval")); ("arg", VArr []);
         ("formula", VStr (js "oops")) ]%string.


End Example.

(** ** Vocabulary of the properties *)

Import JS Utils VisFormatUtils.

(** The binding list cached for a template. *)
Definition cached_bindings (st : engine) (template : jsstring) : option value :=
  bindingsCache st !! template ≫= fun r => heap st !! r.

(** Every cached reference was created by the engine and denotes an array. *)
Definition cache_wf (st : engine) : Prop :=
  forall template r,
    bindingsCache st !! template = Some r ->
    r < next_ref st /\ exists xs, heap st !! r = Some (VArr xs).

(** A lookup of the template in the cache object finds nothing. *)
Definition cache_miss (st : engine) (template : jsstring) : Prop :=
  bindingsCache st !! template = None /\ inherited_property template = None.

(** The cache holds the reference [r]. *)
Definition held_by_cache (st : engine) (r : nat) : Prop :=
  exists template, bindingsCache st !! template = Some r.

(** A caller overwrites the object behind a reference it holds. *)
Definition mutate (r : nat) (v : value) (st : engine) : engine :=
  {| bindingsCache := bindingsCache st; heap := <[r := v]> (heap st);
     next_ref := next_ref st; parser_calls := parser_calls st;
     console := console st; random_draws := random_draws st |}.

(** The engine after something was logged. *)
Definition logged (entries : list (level * jsstring)) (st : engine) : engine :=
  {| bindingsCache := bindingsCache st; heap := heap st;
     next_ref := next_ref st; parser_calls := parser_calls st;
     console := console st ++ entries; random_draws := random_draws st |}.

(** The engine after the token parser was called on a template. *)
Definition parsed (template : jsstring) (st : engine) : engine :=
  {| bindingsCache := bindingsCache st; heap := heap st;
     next_ref := next_ref st; parser_calls := parser_calls st ++ [template];
     console := console st; random_draws := random_draws st |}.

(** The names the [switch] on [operation.op] knows. *)
Definition recognized_names : list jsstring := List.map fst operator_names.

(** An operation [{ op, arg }] as the token parser builds it. *)
Definition operation_of (op : string) (arg : value) : value :=
  VObj [(js "op", VStr (js op)); (js "arg", arg)].

(** The falsy values a date argument is most often given as. *)
Definition listed_falsy : list value :=
  [VNull; VUndefined; VStr []; VBool false; VNum 0%float].

(** ** Vocabulary of the further properties *)

(** How often a character occurs in a string. *)
Fixpoint occurrences (c : N) (s : jsstring) : nat :=
  match s with
  | [] => 0
  | x :: s' => (if N.eqb x c then 1 else 0) + occurrences c s'
  end.

(** A pattern none of whose characters is a format letter. *)
Definition plain_text (p : jsstring) : bool :=
  forallb (fun c => negb (includes [c] validFormatChars)) p.

(** A pattern all of whose characters are format letters. *)
Definition letters_only (p : jsstring) : bool :=
  forallb (fun c => includes [c] validFormatChars) p.

(** The tokens that [_put] has a case for. *)
Definition year_tokens : list jsstring :=
  [js "YYYY"; js "JJJJ"; [cyr_GHE; cyr_GHE; cyr_GHE; cyr_GHE];
   js "YY"; js "JJ"; [cyr_GHE; cyr_GHE]].
Definition month_tokens : list jsstring :=
  [js "MM"; js "M"; [cyr_EM; cyr_EM]; [cyr_EM]].
Definition day_tokens : list jsstring :=
  [js "DD"; js "TT"; js "D"; js "T"; [cyr_DE; cyr_DE]; [cyr_DE]].
Definition hour_tokens : list jsstring :=
  [js "hh"; js "SS"; js "h"; js "S"; [cyr_che; cyr_che]; [cyr_che]].
Definition minute_tokens : list jsstring :=
  [js "mm"; js "m"; [cyr_em; cyr_em]; [cyr_em]].
Definition second_tokens : list jsstring :=
  [js "ss"; js "s"; js "cc"; js "c"].
Definition millisecond_tokens : list jsstring :=
  [js "sss"; [cyr_es; cyr_es; cyr_es]].

Definition known_tokens : list jsstring :=
  year_tokens ++ month_tokens ++ day_tokens ++ hour_tokens ++ minute_tokens
    ++ second_tokens ++ millisecond_tokens.

(** The text [formatDate] renders for a pattern string. *)
Definition render_text `{Host} (dateObj : date_or_value) (p : jsstring)
    : outcome jsstring :=
  formatDate_loop (List.map (fun c => VStr [c]) p) dateObj [] [].

(** What the two hexadecimal operators with padding make of a value. *)
Definition hex2_text `{Host} (val : value) : jsstring :=
  pad_hex2 (Number_toString16 (Math_round (parseFloat val))).

(** The script an [eval] operation builds, without the value it leaves in
    the variable [value]. *)
Definition script_of (r : outcome (jsstring * value)) : outcome jsstring :=
  match r with
  | Ok (script, _) => Ok script
  | Throw e => Throw e
  end.

(** The digits of a numeral. *)
Definition digits_of (s : jsstring) : jsstring := List.filter is_digit s.

(** A read [v[k]] that the value answers itself or that nothing answers:
    on a plain object a property of its own, or a name that plain objects
    do not inherit; on an array or a string the [length] or an index.  The
    other names may be found on the built-in prototypes (under
    [constructor.caller] a getter that throws), which [get_prop] does not
    follow; numbers and booleans have no property of their own. *)
Definition own_read (v : value) (k : jsstring) : bool :=
  match v with
  | VUndefined | VNull => true
  | VBool _ | VNum _ => false
  | VStr _ | VArr _ =>
      streq k (js "length")
      || match canonical_index k with Some _ => true | None => false end
  | VObj ps =>
      match assoc k ps, inherited_property k with
      | Some _, _ | None, None => true
      | None, Some _ => false
      end
  end.

(** Every read of the walk along a path is such a read. *)
Fixpoint own_walk (obj : value) (parts : list jsstring) : bool :=
  match parts with
  | [] => true
  | part :: parts' =>
      own_read obj part
      && match get_prop obj part with
         | Ok obj' => if truthy obj' then own_walk obj' parts' else true
         | Throw _ => true
         end
  end.

(** What the [json] operator reads from: the value itself, or what a
    non-empty string parses to. *)
Definition json_operand `{Host} (val : value) : value :=
  match val with
  | VStr ((_ :: _) as s) => default val (JSON_parse s)
  | _ => val
  end.

(** ** The project helpers of [src/Utils/utils.tsx]

    A project is an object of views; a view holds its widgets, by id,
    under [widgets]. *)

Module Widgets.

(** *** Objects *)

Definition to_object_error : exn :=
  TypeError (js "Cannot convert undefined or null to object").

(** [Object.entries(v)] and [Object.keys(v)]: the own properties of an
    object, the indices of an array or of a string.  The list of an object
    is taken to be in the order of enumeration, integer-like keys
    first. *)
Definition Object_entries (v : value) : outcome (list (jsstring * value)) :=
  match v with
  | VUndefined | VNull => Throw to_object_error
  | VObj ps => Ok ps
  | VArr xs => Ok (imap (fun i x => (nat_to_dec i, x)) xs)
  | VStr s => Ok (imap (fun i c => (nat_to_dec i, VStr [c])) s)
  | VBool _ | VNum _ => Ok []
  end.

Definition Object_keys (v : value) : outcome (list jsstring) :=
  let! entries := Object_entries v in Ok (List.map fst entries).

(** [delete object[k]] *)
Definition delete_prop (k : jsstring) (ps : list (jsstring * value))
    : list (jsstring * value) :=
  List.filter (fun p => negb (streq k (fst p))) ps.

(** *** Numbers that count widgets *)

(** The Number nearest to a natural number. *)
Definition N_to_double (n : N) : float :=
  SF2Prim (binary_normalize prec emax (Z.of_N n) 0 false).

(** The natural number a Number is, if it is one. *)
Definition double_to_N (x : float) : option N :=
  match Prim2SF x with
  | S754_zero _ => Some 0%N
  | S754_finite false m e =>
      match e with
      | Z0 => Some (Npos m)
      | Zpos k => Some (N.shiftl (Npos m) (Npos k))
      | Zneg k =>
          let q := N.shiftr (Npos m) (Npos k) in
          if N.eqb (N.shiftl q (Npos k)) (Npos m) then Some q else None
      end
  | _ => None
  end.

(** [parseInt(digits, 10)] for a string of decimal digits: the Number
    nearest to the integer that the digits denote. *)
Fixpoint digits_value (acc : N) (digits : jsstring) : N :=
  match digits with
  | [] => acc
  | c :: digits' => digits_value (acc * 10 + (c - 48)) digits'
  end.

Definition parseInt_digits (digits : jsstring) : float :=
  N_to_double (digits_value 0 digits).

(** [name.match(/^w([0-9]+)$/)] and [name.match(/^g([0-9]+)$/)]: the first
    group of the match. *)
Definition match_id (letter : N) (name : jsstring) : option jsstring :=
  match name with
  | c :: digits =>
      if N.eqb c letter && negb (Nat.eqb (length digits) 0) && forallb is_digit digits
      then Some digits
      else None
  | [] => None
  end.

(** [s.padStart(6, '0')] *)
Definition padStart6 (s : jsstring) : jsstring :=
  replicate (6 - length s) 48%N ++ s.

Definition letter_w : N := 119.
Definition letter_g : N := 103.

Section Project.
Context `{Host}.
(** [store.getState().visProject] *)
Variable visProject : value.

(** [x.toString()]: the decimal digits of a natural number below [10^21];
    the host's numeral otherwise. *)
Definition Number_text (x : float) : jsstring :=
  match double_to_N x with
  | Some n => if (n <? 10 ^ 21)%N then N_to_dec n else Number_toString x
  | None => Number_toString x
  end.

(** [project[view].widgets && Object.keys(project[view].widgets)] *)
Definition view_widget_ids (project : value) (view : jsstring)
    : outcome (list jsstring) :=
  let! v := get_prop project view in
  let! widgets := get_prop v (js "widgets") in
  if truthy widgets then Object_keys widgets else Ok [].

(** The loop over [Object.keys(project)] that fills [widgets]. *)
Fixpoint collect_widget_ids (project : value) (views : list jsstring)
    (widgets : list jsstring) : outcome (list jsstring) :=
  match views with
  | [] => Ok widgets
  | view :: views' =>
      let! ids := view_widget_ids project view in
      collect_widget_ids project views' (widgets ++ ids)
  end.

(** One round of [widgets.forEach]. *)
Definition next_key (isWidgetGroup : bool) (newKey : float) (name : jsstring) : float :=
  match match_id (if isWidgetGroup then letter_g else letter_w) name with
  | Some digits =>
      let num := parseInt_digits digits in
      if PrimFloat.leb newKey num then PrimFloat.add num 1%float else newKey
  | None => newKey
  end.

(** [getNewWidgetIdNumber(isWidgetGroup, project, offset = 0)] *)
Definition getNewWidgetIdNumber (isWidgetGroup : bool) (project : value)
    (offset : option float) : outcome float :=
  let offset := default 0%float offset in
  let project := js_or project visProject in
  let! views := Object_keys project in
  let! widgets := collect_widget_ids project views [] in
  let newKey := List.fold_left (next_key isWidgetGroup) widgets 1%float in
  Ok (PrimFloat.add newKey offset).

(** [getNewWidgetId(project, offset = 0)] *)
Definition getNewWidgetId (project : value) (offset : option float)
    : outcome jsstring :=
  let! newKey := getNewWidgetIdNumber false project offset in
  Ok (letter_w :: padStart6 (Number_text newKey)).

(** [getNewGroupId(project, offset = 0)] *)
Definition getNewGroupId (project : value) (offset : option float)
    : outcome jsstring :=
  let! newKey := getNewWidgetIdNumber true project offset in
  Ok (letter_g :: padStart6 (Number_text newKey)).

(** The inner loop of [unsyncMultipleWidgets]: the ids of
    [Object.keys(view.widgets)] that hold an underscore are deleted from
    [view.widgets]. *)
Definition unsync_widgets (widgets : value) : outcome value :=
  let! ids := Object_keys widgets in
  Ok (List.fold_left
        (fun w widgetId =>
           if includes (js "_") widgetId
           then match w with
                | VObj ps => VObj (delete_prop widgetId ps)
                | _ => w
                end
           else w)
        ids widgets).

(** One view: the deletions happen in the object that [view.widgets]
    holds. *)
Definition unsync_view (view : value) : outcome value :=
  let! widgets := get_prop view (js "widgets") in
  let! widgets' := unsync_widgets widgets in
  Ok (match view with
      | VObj ps => VObj (assoc_set (js "widgets") widgets' ps)
      | _ => view
      end).

(** The loop over [Object.entries(project)]. *)
Fixpoint unsync_views (entries : list (jsstring * value))
    : outcome (list (jsstring * value)) :=
  match entries with
  | [] => Ok []
  | (viewName, view) :: entries' =>
      let! view' := if streq viewName (js "___settings") then Ok view
                    else unsync_view view in
      let! entries'' := unsync_views entries' in
      Ok ((viewName, view') :: entries'')
  end.

(** [unsyncMultipleWidgets(project)]: the clone, with the views as the
    loop has left them. *)
Definition unsyncMultipleWidgets (project : value) : outcome value :=
  let! project := deepClone (js_or project visProject) in
  let! entries := Object_entries project in
  let! entries' := unsync_views entries in
  Ok (match project with
      | VObj _ => VObj entries'
      | VArr _ => VArr (List.map snd entries')
      | _ => project
      end).

End Project.

(** [calculateOverflow(style)] on the properties of the style object; the
    result is the object as the call leaves it. *)
Definition calculateOverflow (style : list (jsstring * value))
    : list (jsstring * value) :=
  let read k := default VUndefined (assoc k style) in
  if negb (truthy (read (js "overflowX"))) && negb (truthy (read (js "overflowY")))
  then assoc_set (js "overflow") (VStr (js "visible")) style
  else if truthy (read (js "overflow"))
  then delete_prop (js "overflow") style
  else style.

End Widgets.

Import Widgets.

(** *** Vocabulary for the project helpers *)

(** An id is a key of the [widgets] of some view of the project. *)
Definition is_widget_id (views : list (jsstring * value)) (id : jsstring) : Prop :=
  exists view v widgets ids,
    assoc view views = Some v
    /\ get_prop v (js "widgets") = Ok widgets
    /\ Object_keys widgets = Ok ids
    /\ In id ids.

(** The count of [getNewWidgetIdNumber] on natural numbers. *)
Definition next_number (letter : N) (newKey : N) (name : jsstring) : N :=
  match match_id letter name with
  | Some digits =>
      if (newKey <=? digits_value 0 digits)%N then (digits_value 0 digits + 1)%N
      else newKey
  | None => newKey
  end.

(** A mantissa shifted left by [n] bits, and the binary64 datum of a
    positive integer below [2^53]. *)
Definition shifted (p : positive) (n : nat) : positive := Nat.iter n xO p.

Definition integer_datum (p : positive) : spec_float :=
  S754_finite false
    (shifted p (53 - Pos.to_nat (digits2_pos p)))
    (Z.pos (digits2_pos p) - 53).

(** [view.widgets[id]] in a view, where both steps are own properties of
    objects. *)
Definition widget_in (view : value) (id : jsstring) : option value :=
  match view with
  | VObj ps =>
      match assoc (js "widgets") ps with
      | Some (VObj widgets) => assoc id widgets
      | _ => None
      end
  | _ => None
  end.

(** [project[view].widgets[id]] in a project. *)
Definition widget_of (project : value) (view id : jsstring) : option value :=
  match project with
  | VObj views =>
      match assoc view views with
      | Some v => widget_in v id
      | None => None
      end
  | _ => None
  end.

(** The keys of the [widgets] of all views, by enumeration. *)
Definition all_widget_ids (views : list (jsstring * value)) : list jsstring :=
  flat_map
    (fun p => match get_prop (snd p) (js "widgets") with
              | Ok widgets =>
                  match Object_keys widgets with Ok ids => ids | Throw _ => [] end
              | Throw _ => []
              end)
    views.

(** A view without the widgets whose id holds an underscore; every other
    property of the view, and every other widget, is kept in its place. *)
Definition without_underscore_ids (view : value) : value :=
  match view with
  | VObj ps =>
      match assoc (js "widgets") ps with
      | Some (VObj widgets) =>
          VObj (assoc_set (js "widgets")
                  (VObj (List.filter
                           (fun p => negb (includes (js "_") (fst p))) widgets))
                  ps)
      | _ => view
      end
  | _ => view
  end.

(** The views of a project, each but [___settings] without those widgets. *)
Definition unsynced (views : list (jsstring * value)) : list (jsstring * value) :=
  List.map
    (fun p => (fst p, if streq (fst p) (js "___settings") then snd p
                      else without_underscore_ids (snd p)))
    views.

(** A project with widgets and a group in two views. *)
Definition example_views : list (jsstring * value) :=
  [ (js "___settings", VObj [(js "folders", VArr [])]);
    (js "main",
       VObj [(js "widgets",
                VObj [(js "w000001", VObj [(js "tpl", VStr (js "tplText"))]);
                      (js "w000007_main", VObj [(js "tpl", VStr (js "tplText"))]);
                      (js "g000003", VObj [(js "tpl", VStr (js "_tplGroup"))]);
                      (js "w12", VObj [(js "tpl", VStr (js "tplText"))])])]);
    (js "second",
       VObj [(js "widgets",
                VObj [(js "w000002", VObj [(js "tpl", VStr (js "tplText"))])])]) ].


(** ** Falsy date inputs *)

Section FalsyDates.
Context `{Host}.
Variable vis : Vis.

Lemma formatDate_falsy (dateObj isDuration _format : value) :
  truthy dateObj = false ->
  formatDate vis dateObj isDuration _format = Ok (VStr []).
Proof.
  intros Hfalsy. unfold formatDate.
  destruct (duration_flag isDuration _format) as [dur pat].
  now rewrite Hfalsy.
Qed.

Lemma formatMomentDate_falsy (dateObj _format flag : value) (moment : option MomentLib) :
  truthy dateObj = false ->
  formatMomentDate vis dateObj _format flag moment = Ok (VStr []).
Proof.
  intros Hfalsy. unfold formatMomentDate. now rewrite Hfalsy.
Qed.

(** C10: for a falsy date input (null, undefined, the empty string, false
    and the number 0 are falsy) both [formatDate] and [formatMomentDate]
    return the empty string, whatever the other arguments, the host and the
    calendar library are: nothing is parsed, no threshold is looked at and
    no pattern is rendered.  So the number 0, which would denote the
    instant of the Unix epoch, is never formatted as a date. *)
Theorem falsy_date_is_empty_string
    (dateObj isDuration _format flag : value) (moment : option MomentLib) :
  In dateObj listed_falsy \/ truthy dateObj = false ->
  formatDate vis dateObj isDuration _format = Ok (VStr [])
  /\ formatMomentDate vis dateObj _format flag moment = Ok (VStr []).
Proof.
  intros Hin.
  assert (Hfalsy : truthy dateObj = false).
  { destruct Hin as [Hin | Hf]; [| exact Hf].
    unfold listed_falsy in Hin. simpl in Hin.
    destruct Hin as [<- | [<- | [<- | [<- | [<- | []]]]]]; reflexivity. }
  split; [apply formatDate_falsy | apply formatMomentDate_falsy]; exact Hfalsy.
Qed.

End FalsyDates.

Section FalsyDatesExample.
#[local] Existing Instance Example.host.

Lemma falsy_date_is_empty_string_witness :
  (In (VNum 0%float) listed_falsy \/ truthy (VNum 0%float) = false)
  /\ formatDate Example.runtime (VNum 0%float) (VBool false) (VStr (js "YYYY-MM-DD"))
     = Ok (VStr [])
  /\ formatMomentDate Example.runtime (VNum 0%float) (VStr (js "YYYY-MM-DD"))
       (VBool true) (Some Example.lib) = Ok (VStr []).
Proof.
  split.
  - right. reflexivity.
  - apply (falsy_date_is_empty_string Example.runtime (VNum 0%float)).
    right. reflexivity.
Defined.

End FalsyDatesExample.

(** ** The operator pipeline *)

Ltac unfold_monad :=
  unfold bind, lift, ret, throw, try_catch, log, obind in *.

Section Clamp.
Context `{Host}.
Variable vis : Vis.
Variable o : FormatBindingOptions.

Lemma apply_min (format : jsstring) (operation val : value) (a : float) (st : engine) :
  get_prop operation (js "op") = Ok (VStr (js "min")) ->
  get_prop operation (js "arg") = Ok (VNum a) ->
  apply_operation vis o format operation val st
  = (Ok (VNum (if PrimFloat.ltb (parseFloat val) a then a else parseFloat val)), st).
Proof.
  intros Hop Harg. unfold apply_operation. unfold_monad.
  rewrite Hop, Harg.
  change (opkind_of (VStr (js "min"))) with OpMin. cbv beta iota.
  unfold js_lt_num, ToNumber.
  now destruct (PrimFloat.ltb (parseFloat val) a).
Qed.

Lemma apply_max (format : jsstring) (operation val : value) (a : float) (st : engine) :
  get_prop operation (js "op") = Ok (VStr (js "max")) ->
  get_prop operation (js "arg") = Ok (VNum a) ->
  apply_operation vis o format operation val st
  = (Ok (VNum (if PrimFloat.ltb a (parseFloat val) then a else parseFloat val)), st).
Proof.
  intros Hop Harg. unfold apply_operation. unfold_monad.
  rewrite Hop, Harg.
  change (opkind_of (VStr (js "max"))) with OpMax. cbv beta iota.
  unfold js_gt_num, ToNumber.
  now destruct (PrimFloat.ltb a (parseFloat val)).
Qed.

(** C5: with a numeric argument [a], [min] yields [a] when
    [parseFloat(v) < a] and [parseFloat(v)] otherwise (a floor), and [max]
    yields [a] when [parseFloat(v) > a] and [parseFloat(v)] otherwise (a
    ceiling); the engine is left as it was.  In particular [min] on 5 with
    argument 10 and [max] on 15 with argument 10 both yield 10. *)
Theorem min_is_floor_max_is_ceiling
    (format name : jsstring) (operation val : value) (a : float) (st : engine) :
  get_prop operation (js "op") = Ok (VStr name) ->
  get_prop operation (js "arg") = Ok (VNum a) ->
  let x := parseFloat val in
  let result := fst (apply_operation vis o format operation val st) in
  (name = js "min" ->
     apply_operation vis o format operation val st
     = (Ok (VNum (if PrimFloat.ltb x a then a else x)), st))
  /\ (name = js "max" ->
     apply_operation vis o format operation val st
     = (Ok (VNum (if PrimFloat.ltb a x then a else x)), st))
  /\ (name = js "min" -> x = 5%float -> a = 10%float -> result = Ok (VNum 10%float))
  /\ (name = js "max" -> x = 15%float -> a = 10%float -> result = Ok (VNum 10%float)).
Proof.
  intros Hop Harg x result. subst result.
  repeat split; intros ->.
  - now apply apply_min.
  - now apply apply_max.
  - intros Hx ->. rewrite (apply_min _ _ _ _ _ Hop Harg). fold x. now rewrite Hx.
  - intros Hx ->. rewrite (apply_max _ _ _ _ _ Hop Harg). fold x. now rewrite Hx.
Qed.

End Clamp.

Section ClampExample.
#[local] Existing Instance Example.host.

Lemma min_is_floor_max_is_ceiling_witness :
  (get_prop (operation_of "min" (VNum 10%float)) (js "op") = Ok (VStr (js "min"))
   /\ get_prop (operation_of "min" (VNum 10%float)) (js "arg") = Ok (VNum 10%float)
   /\ parseFloat (VNum 5%float) = 5%float
   /\ fst (apply_operation Example.runtime (Example.options_for "{a;min(10)}")
             (js "{a;min(10)}") (operation_of "min" (VNum 10%float)) (VNum 5%float)
             new_engine)
      = Ok (VNum 10%float))
  /\ (get_prop (operation_of "max" (VNum 10%float)) (js "op") = Ok (VStr (js "max"))
      /\ parseFloat (VNum 15%float) = 15%float
      /\ fst (apply_operation Example.runtime (Example.options_for "{a;max(10)}")
                (js "{a;max(10)}") (operation_of "max" (VNum 10%float))
                (VNum 15%float) new_engine)
         = Ok (VNum 10%float)).
Proof.
  split.
  - split; [reflexivity |]. split; [reflexivity |]. split; [reflexivity |].
    destruct (min_is_floor_max_is_ceiling Example.runtime
                (Example.options_for "{a;min(10)}") (js "{a;min(10)}") (js "min")
                (operation_of "min" (VNum 10%float)) (VNum 5%float) 10%float
                new_engine eq_refl eq_refl) as (_ & _ & Hmin & _).
    apply Hmin; reflexivity.
  - split; [reflexivity |]. split; [reflexivity |].
    destruct (min_is_floor_max_is_ceiling Example.runtime
                (Example.options_for "{a;max(10)}") (js "{a;max(10)}") (js "max")
                (operation_of "max" (VNum 10%float)) (VNum 15%float) 10%float
                new_engine eq_refl eq_refl) as (_ & _ & _ & Hmax).
    apply Hmax; reflexivity.
Defined.

End ClampExample.

(** ** The value formatter *)

Section ValueFormatter.
Context `{Host}.

Lemma formatValue_nan (val decimals _format : value) :
  PrimFloat.is_nan (match val with VNum x => x | _ => parseFloat val end) = true ->
  formatValue val decimals _format = Ok (VStr []).
Proof.
  intros Hnan. unfold formatValue.
  destruct (negb (is_type TNumber decimals)); cbv zeta; now rewrite Hnan.
Qed.

(** With a numeric count and a pair of two characters, the first
    character of the pair is looked for in the fixed-point numeral and
    replaced by the second, and then inserted between the groups. *)
Lemma formatValue_pair (x d : float) (g p : N) :
  PrimFloat.is_nan x = false ->
  formatValue (VNum x) (VNum d) (VStr [g; p])
  = let! fixed := toFixed x (js_or (VNum d) (VNum 0%float)) in
    Ok (VStr (group_replace [g] (replace_first [g] [p] fixed))).
Proof.
  intros Hnan. unfold formatValue. simpl negb. cbv iota zeta.
  change (nullish (VStr [g; p])) with false. cbv iota. now rewrite Hnan.
Qed.

Lemma formatValue_default_pair (x d : float) :
  formatValue (VNum x) (VNum d) VUndefined
  = formatValue (VNum x) (VNum d) (VStr (js ".,")).
Proof. reflexivity. Qed.

(** C6, as the code has it: [formatValue(1234.5, 2)] with the separator
    pair omitted is ["1.234,50"].  The default pair [".,"] is read as
    (group character, decimal character): the value is fixed to 2 decimals,
    the point of the numeral is replaced by the pair's second character,
    and the pair's first character is inserted every 3 digits of the
    integer part.  A value that is NaN after float coercion gives the empty
    string. *)
Theorem formatValue_default_is_point_grouped :
  formatValue (VNum 1234.5%float) (VNum 2%float) VUndefined = Ok (VStr (js "1.234,50"))
  /\ toFixed 1234.5%float (VNum 2%float) = Ok (js "1234.50")
  /\ replace_first (js ".") (js ",") (js "1234.50") = js "1234,50"
  /\ group_replace (js ".") (js "1234,50") = js "1.234,50"
  /\ (forall val decimals _format,
        PrimFloat.is_nan (match val with VNum x => x | _ => parseFloat val end) = true ->
        formatValue val decimals _format = Ok (VStr [])).
Proof.
  split; [reflexivity |]. split; [reflexivity |]. split; [reflexivity |].
  split; [reflexivity |]. apply formatValue_nan.
Qed.

End ValueFormatter.

Section ValueFormatterExample.
#[local] Existing Instance Example.host.

(** [formatValue(1234.5, 2)] is not ["1,234.50"]. *)
Lemma formatValue_default_not_comma_grouped :
  formatValue (VNum 1234.5%float) (VNum 2%float) VUndefined <> Ok (VStr (js "1,234.50")).
Proof. vm_compute. discriminate. Qed.

Lemma formatValue_default_is_point_grouped_witness :
  PrimFloat.is_nan (parseFloat (VStr (js "abc"))) = true
  /\ formatValue (VStr (js "abc")) (VNum 2%float) VUndefined = Ok (VStr []).
Proof.
  split; [reflexivity |].
  destruct (formatValue_default_is_point_grouped (H := Example.host))
    as (_ & _ & _ & _ & Hnan).
  apply Hnan. reflexivity.
Defined.

End ValueFormatterExample.

(** ** The calendar-library formatter *)

Section MomentFormatter.
Context `{Host}.
Variable vis : Vis.
Variable lib : MomentLib.

Lemma truthy_flag_kept (flag : value) :
  truthy flag = true ->
  truthy (if negb (is_undefined flag) then flag else VBool false) = true.
Proof. now destruct flag. Qed.

(** On the current day the weekday tokens of the pattern are replaced by
    the translation of [Today] before the library renders it. *)
Lemma formatMomentDate_today (dateObj flag : value) (pattern : jsstring) (m : Moment) :
  truthy dateObj = true ->
  truthy flag = true ->
  moment_of_input dateObj (Some lib) = Ok (AMoment m) ->
  moment_isSame_day lib m (moment_now lib) = true ->
  moment_isSame_day lib m (moment_subtract_day lib (moment_now lib)) = false ->
  pattern <> [] ->
  formatMomentDate vis dateObj (VStr pattern) flag (Some lib)
  = Ok (VStr (moment_format lib (moment_clone lib m)
                (weekday_subst (translate vis (js "Today")) pattern))).
Proof.
  intros Hd Hflag Hm Htoday Hyesterday Hpattern. unfold formatMomentDate.
  rewrite Hd, Hm. cbn [negb obind]. rewrite (truthy_flag_kept _ Hflag).
  cbn [need_moment]. rewrite Htoday, Hyesterday.
  destruct pattern; [contradiction | reflexivity].
Qed.

(** C7 fails on the code: with the substitution enabled, an instant that
    is neither on the current day nor on the day before is not rendered at
    all; the function returns [undefined]. *)
Theorem formatMomentDate_older_day_is_undefined
    (dateObj _format flag : value) (m : Moment) :
  truthy dateObj = true ->
  truthy flag = true ->
  moment_of_input dateObj (Some lib) = Ok (AMoment m) ->
  moment_isSame_day lib m (moment_now lib) = false ->
  moment_isSame_day lib m (moment_subtract_day lib (moment_now lib)) = false ->
  formatMomentDate vis dateObj _format flag (Some lib) = Ok VUndefined.
Proof.
  intros Hd Hflag Hm Htoday Hyesterday. unfold formatMomentDate.
  rewrite Hd, Hm. cbn [negb obind]. rewrite (truthy_flag_kept _ Hflag).
  cbn [need_moment]. now rewrite Htoday, Hyesterday.
Qed.

(** Without the substitution the same instant is rendered. *)
Lemma formatMomentDate_plain (dateObj : value) (pattern : jsstring) (m : Moment) :
  truthy dateObj = true ->
  moment_of_input dateObj (Some lib) = Ok (AMoment m) ->
  pattern <> [] ->
  formatMomentDate vis dateObj (VStr pattern) (VBool false) (Some lib)
  = Ok (VStr (moment_format lib (moment_clone lib m) pattern)).
Proof.
  intros Hd Hm Hpattern. unfold formatMomentDate.
  rewrite Hd, Hm. cbn [negb obind is_undefined truthy need_moment moment_call].
  destruct pattern; [contradiction | reflexivity].
Qed.

End MomentFormatter.

Section MomentFormatterExample.
#[local] Existing Instance Example.host.

(** 2023-07-22, with the current time on 2023-11-14. *)
Lemma formatMomentDate_older_day_is_undefined_witness :
  formatMomentDate Example.runtime (VNum 1690000000000%float)
    (VStr (js "dddd DD.MM.YYYY")) (VBool true) (Some Example.lib)
  = Ok VUndefined.
Proof.
  apply (formatMomentDate_older_day_is_undefined Example.runtime Example.lib
           (VNum 1690000000000%float) (VStr (js "dddd DD.MM.YYYY")) (VBool true)
           (Some 1690000000000%Z)); reflexivity.
Defined.

End MomentFormatterExample.

(** ** The default date pattern *)

Section DefaultPattern.
Context `{Host}.
Variable vis : Vis.
Variable o : FormatBindingOptions.

(** [this.vis.dateFormat || 'DD.MM.YYYY'] *)
Let configured : value := js_or (dateFormat vis) default_pattern.

Lemma configured_truthy : truthy configured = true.
Proof.
  unfold configured, js_or.
  destruct (truthy (dateFormat vis)) eqn:E; [exact E | reflexivity].
Qed.

Lemma js_or_falsy (a b : value) : truthy a = false -> js_or a b = b.
Proof. unfold js_or. now intros ->. Qed.

Lemma js_or_truthy (a b : value) : truthy a = true -> js_or a b = a.
Proof. unfold js_or. now intros ->. Qed.

Lemma formatDate_absent_pattern (val arg : value) :
  nullish arg = true ->
  formatDate vis val arg VUndefined = formatDate vis val (VBool false) configured.
Proof.
  intros Harg. unfold formatDate.
  assert (Hflag : duration_flag arg VUndefined = (false, arg))
    by (destruct arg; try discriminate; reflexivity).
  rewrite Hflag. cbn [duration_flag].
  rewrite (js_or_falsy arg) by (destruct arg; try discriminate; reflexivity).
  fold configured. now rewrite (js_or_truthy configured) by apply configured_truthy.
Qed.

Lemma formatMomentDate_absent_pattern (val pattern flag : value) :
  truthy pattern = false ->
  formatMomentDate vis val pattern flag (moment o)
  = formatMomentDate vis val configured flag (moment o).
Proof.
  intros Hpattern. unfold formatMomentDate.
  rewrite (js_or_falsy pattern) by exact Hpattern.
  fold configured. now rewrite (js_or_truthy configured) by apply configured_truthy.
Qed.

(** C8, as the code has it.  The [date] operation without a pattern
    argument renders with the configured default pattern
    ([this.vis.dateFormat], or ['DD.MM.YYYY'] when that is empty), and so
    does [formatMomentDate] whenever its pattern is absent or empty, which
    is what the [momentDate] operation passes for an empty argument string.
    The [momentDate] operation whose argument is absent ([undefined] or
    [null]) does not format: it leaves the current value and the engine as
    they are. *)
Theorem default_pattern_when_none_supplied
    (format name : jsstring) (operation val arg : value) (st : engine) :
  get_prop operation (js "op") = Ok (VStr name) ->
  get_prop operation (js "arg") = Ok arg ->
  (name = js "date" -> nullish arg = true ->
     apply_operation vis o format operation val st
     = (formatDate vis val (VBool false) configured, st))
  /\ (forall pattern flag, truthy pattern = false ->
        formatMomentDate vis val pattern flag (moment o)
        = formatMomentDate vis val configured flag (moment o))
  /\ (name = js "momentDate" -> arg = VStr [] ->
        apply_operation vis o format operation val st
        = (formatMomentDate vis val configured (VBool false) (moment o), st))
  /\ (name = js "momentDate" -> nullish arg = true ->
        apply_operation vis o format operation val st = (Ok val, st)).
Proof.
  intros Hop Harg. repeat split.
  - intros -> Hnull. unfold apply_operation. unfold_monad. rewrite Hop, Harg.
    change (opkind_of (VStr (js "date"))) with OpDate. cbv beta iota.
    now rewrite formatDate_absent_pattern.
  - intros pattern flag. apply formatMomentDate_absent_pattern.
  - intros -> ->. unfold apply_operation. unfold_monad. rewrite Hop, Harg.
    change (opkind_of (VStr (js "momentDate"))) with OpMomentDate.
    cbn [nullish split_on]. cbv beta iota.
    now rewrite (formatMomentDate_absent_pattern val (VStr [])).
  - intros -> Hnull. unfold apply_operation. unfold_monad. rewrite Hop, Harg.
    change (opkind_of (VStr (js "momentDate"))) with OpMomentDate.
    cbv beta iota. now rewrite Hnull.
Qed.

End DefaultPattern.

Section DefaultPatternExample.
#[local] Existing Instance Example.host.

(** [momentDate] without an argument on 2023-07-22: the value stays the
    number it was, whereas the default pattern renders ["22.07.2023"]. *)
Lemma momentDate_absent_argument_not_formatted :
  fst (apply_operation Example.runtime (Example.options_for "{a;momentDate}")
         (js "{a;momentDate}") (operation_of "momentDate" VUndefined)
         (VNum 1690000000000%float) new_engine)
  = Ok (VNum 1690000000000%float)
  /\ formatMomentDate Example.runtime (VNum 1690000000000%float)
       (dateFormat Example.runtime) (VBool false) (Some Example.lib)
     = Ok (VStr (js "22.07.2023"))
  /\ fst (apply_operation Example.runtime (Example.options_for "{a;momentDate}")
            (js "{a;momentDate}") (operation_of "momentDate" VUndefined)
            (VNum 1690000000000%float) new_engine)
     <> formatMomentDate Example.runtime (VNum 1690000000000%float)
          (dateFormat Example.runtime) (VBool false) (Some Example.lib).
Proof.
  split; [reflexivity |]. split; [reflexivity |]. vm_compute. discriminate.
Qed.

Lemma default_pattern_when_none_supplied_witness :
  (fst (apply_operation Example.runtime (Example.options_for "{a;date}")
          (js "{a;date}") (operation_of "date" VUndefined)
          (VNum 1690000000000%float) new_engine)
   = Ok (VStr (js "22.07.2023")))
  /\ (fst (apply_operation Example.runtime (Example.options_for "{a;momentDate()}")
             (js "{a;momentDate()}") (operation_of "momentDate" (VStr []))
             (VNum 1690000000000%float) new_engine)
      = Ok (VStr (js "22.07.2023")))
  /\ (fst (apply_operation Example.runtime (Example.options_for "{a;momentDate}")
             (js "{a;momentDate}") (operation_of "momentDate" VUndefined)
             (VNum 1690000000000%float) new_engine)
      = Ok (VNum 1690000000000%float)).
Proof.
  split; [| split].
  - destruct (default_pattern_when_none_supplied Example.runtime
                (Example.options_for "{a;date}") (js "{a;date}") (js "date")
                (operation_of "date" VUndefined) (VNum 1690000000000%float)
                VUndefined new_engine eq_refl eq_refl) as (Hdate & _).
    rewrite Hdate; reflexivity.
  - destruct (default_pattern_when_none_supplied Example.runtime
                (Example.options_for "{a;momentDate()}") (js "{a;momentDate()}")
                (js "momentDate") (operation_of "momentDate" (VStr []))
                (VNum 1690000000000%float) (VStr []) new_engine eq_refl eq_refl)
      as (_ & _ & Hempty & _).
    rewrite Hempty; reflexivity.
  - destruct (default_pattern_when_none_supplied Example.runtime
                (Example.options_for "{a;momentDate}") (js "{a;momentDate}")
                (js "momentDate") (operation_of "momentDate" VUndefined)
                (VNum 1690000000000%float) VUndefined new_engine eq_refl eq_refl)
      as (_ & _ & _ & Habsent).
    rewrite Habsent; reflexivity.
Defined.

End DefaultPatternExample.

(** ** Unknown operators and failing scripts *)

Lemma streq_eq (a b : jsstring) : streq a b = true <-> a = b.
Proof.
  revert b. induction a as [| x a IH]; intros [| y b]; simpl; try easy.
  rewrite andb_true_iff, N.eqb_eq, IH. split.
  - now intros [-> ->].
  - intros [= -> ->]. easy.
Qed.

Lemma find_operator_unknown (s : jsstring) (table : list (jsstring * opkind)) :
  Forall (fun entry => snd entry <> OpUnknown) table ->
  find_operator s table = OpUnknown <-> ~ In s (List.map fst table).
Proof.
  induction 1 as [| [name k] table Hk _ IH]; simpl.
  - easy.
  - destruct (streq s name) eqn:E.
    + apply streq_eq in E. subst. simpl in Hk. split; [easy |].
      intros Hnot. exfalso. apply Hnot. now left.
    + rewrite IH. split.
      * intros Hnot [Heq | Hin]; [| easy].
        simpl in Heq. rewrite Heq in E.
        assert (streq s s = true) by now apply streq_eq. congruence.
      * intros Hnot Hin. apply Hnot. now right.
Qed.

(** The default branch of the [switch] is taken exactly by the values that
    are not one of the recognized names. *)
Lemma opkind_unknown_iff (op : value) :
  opkind_of op = OpUnknown <->
  forall name, In name recognized_names -> op <> VStr name.
Proof.
  assert (Htable : Forall (fun entry => snd entry <> OpUnknown) operator_names)
    by (unfold operator_names; repeat constructor; discriminate).
  destruct op as [| | b | x | s | xs | ps]; cbn [opkind_of];
    try (split; [intros _ name _; discriminate | reflexivity]).
  rewrite (find_operator_unknown _ _ Htable). fold recognized_names. split.
  - intros Hnot name Hin [= ->]. easy.
  - intros Hall Hin. now apply (Hall s Hin).
Qed.

Lemma get_prop_other (v : value) (k k' : jsstring) (x : value) :
  get_prop v k = Ok x -> exists y, get_prop v k' = Ok y.
Proof.
  destruct v; simpl; try discriminate; intros _; eauto.
  - destruct (streq k' (js "length")); eauto.
  - destruct (streq k' (js "length")); eauto.
Qed.

Section Pipeline.
Context `{Host}.
Variable vis : Vis.
Variable o : FormatBindingOptions.

(** C9, as the code has it: an operation whose [op] is not a recognized
    name logs the warning ["Unknown operator: "] followed by the template
    as rewritten so far, which is the original template with the tokens of
    the bindings before this one already replaced (the original template
    itself while the first binding is processed); it leaves the current
    value as it is, and the pipeline goes on with the next operation.

    The template of the warning is the one that reaches the operation:
    a binding that starts with such an operation, processed on [format],
    warns with [format]; and when the binding before it has turned
    [format0] into [format], the warning carries [format], not [format0]. *)
Theorem unknown_operator_warns_and_keeps_value
    (format : jsstring) (operation op val : value) (rest : list value) (st : engine) :
  get_prop operation (js "op") = Ok op ->
  (forall name, In name recognized_names -> op <> VStr name) ->
  let st' := logged [(Warn, js "Unknown operator: " ++ format)] st in
  apply_operation vis o format operation val st = (Ok val, st')
  /\ run_operations vis o format (operation :: rest) val st
     = run_operations vis o format rest val st'
  /\ (forall oid name,
        get_prop oid (js "visOid") = Ok (VStr name) ->
        name <> [] ->
        nullish (getSpecialValues vis (VStr name) (view o) (wid o) (widgetData o))
        = true ->
        get_prop (js_or (values o) (states vis)) name = Ok val ->
        get_prop oid (js "operations") = Ok (VArr (operation :: rest)) ->
        format_oid vis o format oid st
        = bind (run_operations vis o format rest val)
            (fun val' =>
               bind (lift (get_prop oid (js "token")))
                 (fun token =>
                    ret (replace_first (ToString token) (ToString val') format))) st'
        /\ forall first oids format0 st0,
             format_oid vis o format0 first st0 = (Ok format, st) ->
             format_oids vis o format0 (first :: oid :: oids) st0
             = bind (run_operations vis o format rest val)
                 (fun val' =>
                    bind (lift (get_prop oid (js "token")))
                      (fun token =>
                         format_oids vis o
                           (replace_first (ToString token) (ToString val') format)
                           oids)) st')
  /\ (forall format0 oid oids st0,
        format_oids vis o format0 (oid :: oids) st0
        = bind (format_oid vis o format0 oid)
            (fun format' => format_oids vis o format' oids) st0).
Proof.
  intros Hop Hunknown st'. apply opkind_unknown_iff in Hunknown.
  destruct (get_prop_other _ _ (js "arg") _ Hop) as [arg Harg].
  assert (Hstep : apply_operation vis o format operation val st = (Ok val, st')).
  { unfold apply_operation. unfold_monad. rewrite Hop, Harg, Hunknown. reflexivity. }
  assert (Hrun : run_operations vis o format (operation :: rest) val st
                 = run_operations vis o format rest val st').
  { cbn [run_operations]. unfold bind at 1. now rewrite Hstep. }
  split; [exact Hstep |]. split; [exact Hrun |]. split; [| reflexivity].
  intros oid name HvisOid Hname Hspecial Hstate Hoperations.
  assert (Htruthy : truthy (VStr name) = true)
    by (destruct name; [contradiction | reflexivity]).
  assert (Hoid : format_oid vis o format oid st
                 = bind (run_operations vis o format rest val)
                     (fun val' =>
                        bind (lift (get_prop oid (js "token")))
                          (fun token =>
                             ret (replace_first (ToString token) (ToString val')
                                    format))) st').
  { unfold format_oid. unfold bind at 1. unfold lift at 1. rewrite HvisOid.
    rewrite Htruthy, Hspecial. cbn [ToString].
    unfold bind at 1. unfold lift at 1. rewrite Hstate.
    unfold bind at 1. unfold lift at 1. rewrite Hoperations.
    cbn [truthy iterate]. unfold bind at 1. unfold bind at 1. unfold lift at 1.
    rewrite Hrun. unfold bind, lift, ret.
    destruct (run_operations vis o format rest val st') as [[val' | e] st2];
      [| reflexivity].
    destruct (get_prop oid (js "token")); reflexivity. }
  split; [exact Hoid |].
  intros first oids format0 st0 Hfirst.
  cbn [format_oids]. unfold bind at 1. rewrite Hfirst.
  unfold bind at 1. rewrite Hoid. unfold bind, lift, ret.
  destruct (run_operations vis o format rest val st') as [[val' | e] st2];
    [| reflexivity].
  destruct (get_prop oid (js "token")); reflexivity.
Qed.


End Pipeline.

Section PipelineExample.
#[local] Existing Instance Example.host.

(** The second binding of ["{a} and {b;foo}"] has the unknown operator
    [foo]; when it is reached the first token is already replaced, and the
    warning does not carry the original template. *)
Lemma unknown_operator_warning_not_original :
  console (snd (formatBinding Example.runtime
                  (Example.options_for "{a} and {b;foo}") new_engine))
  = [(Warn, js "Unknown operator: 1 and {b;foo}")]
  /\ console (snd (formatBinding Example.runtime
                     (Example.options_for "{a} and {b;foo}") new_engine))
     <> [(Warn, js "Unknown operator: {a} and {b;foo}")].
Proof. split; [reflexivity |]. vm_compute. discriminate. Qed.

Lemma unknown_operator_warns_and_keeps_value_witness :
  format_oids Example.runtime (Example.options_for "{a} and {b;foo}")
    (js "{a} and {b;foo}")
    [ Example.binding "a" "{a}" VUndefined;
      Example.binding "b" "{b;foo}" (VArr [Example.vobj [("op", VStr (js "foo"))]%string]) ]
    new_engine
  = (Ok (js "1 and 2"),
     logged [(Warn, js "Unknown operator: 1 and {b;foo}")] new_engine).
Proof.
  destruct (unknown_operator_warns_and_keeps_value Example.runtime
              (Example.options_for "{a} and {b;foo}") (js "1 and {b;foo}")
              (Example.vobj [("op", VStr (js "foo"))]%string) (VStr (js "foo"))
              (VStr (js "2")) [] new_engine eq_refl) as (_ & _ & Hoid & _).
  { intros name Hin. unfold recognized_names in Hin. simpl in Hin.
    repeat (destruct Hin as [<- | Hin]; [discriminate |]). destruct Hin. }
  destruct (Hoid (Example.binding "b" "{b;foo}"
                    (VArr [Example.vobj [("op", VStr (js "foo"))]%string]))
              (js "b.val") eq_refl ltac:(discriminate) eq_refl eq_refl eq_refl)
    as (_ & Hchain).
  rewrite (Hchain (Example.binding "a" "{a}" VUndefined) [] (js "{a} and {b;foo}")
             new_engine eq_refl).
  reflexivity.
Defined.


End PipelineExample.

(** ** Templates without bindings *)

Section NoBindings.
Context `{Host}.
Variable vis : Vis.
Variable o : FormatBindingOptions.

Lemma extractBinding_empty (st : engine) :
  extractBinding vis [] st = (Ok None, st).
Proof. reflexivity. Qed.

Lemma extractBinding_null (template : jsstring) (st : engine) :
  template <> [] ->
  visUtils_extractBinding template = None ->
  editMode vis = true \/ cache_miss st template ->
  extractBinding vis template st = (Ok None, parsed template st).
Proof.
  intros Hne Hnull Hmiss. unfold extractBinding.
  destruct template as [| c template']; [contradiction |].
  unfold_monad. unfold cache_lookup, call_parser.
  destruct (editMode vis) eqn:Hedit.
  - now rewrite Hnull.
  - destruct Hmiss as [Hedit' | [Hmiss Hown]]; [discriminate |].
    now rewrite Hmiss, Hown, Hnull.
Qed.

(** C1 fails on the code: when the wrapper [extractBinding] returns
    [null], which it does for the empty template without calling the
    parser and for any other template on which the parser reports [null],
    the loop [for (const oid of oids)] throws a TypeError that leaves
    [formatBinding]. *)
Theorem formatBinding_null_bindings_throws (st : engine) :
  (VisFormatUtils.format o = [] ->
     formatBinding vis o st = (Throw (not_iterable (js "oids")), st))
  /\ (VisFormatUtils.format o <> [] ->
      visUtils_extractBinding (VisFormatUtils.format o) = None ->
      editMode vis = true \/ cache_miss st (VisFormatUtils.format o) ->
      formatBinding vis o st
      = (Throw (not_iterable (js "oids")), parsed (VisFormatUtils.format o) st)).
Proof.
  split.
  - intros Hempty. unfold formatBinding. unfold bind at 1.
    now rewrite Hempty, extractBinding_empty.
  - intros Hne Hnull Hmiss. unfold formatBinding. unfold bind at 1.
    now rewrite (extractBinding_null _ _ Hne Hnull Hmiss).
Qed.

(** When the parser reports an empty list instead, the template comes
    back with its doubled braces undone. *)
Lemma formatBinding_empty_list (st : engine) :
  VisFormatUtils.format o <> [] ->
  visUtils_extractBinding (VisFormatUtils.format o) = Some [] ->
  editMode vis = true \/ cache_miss st (VisFormatUtils.format o) ->
  fst (formatBinding vis o st) = Ok (unescape_braces (VisFormatUtils.format o)).
Proof.
  intros Hne Hparse Hmiss. unfold formatBinding, extractBinding.
  destruct (VisFormatUtils.format o) as [| c template'] eqn:Hformat; [contradiction |].
  unfold_monad. unfold cache_lookup, call_parser, alloc, cache_store, deref.
  destruct (editMode vis) eqn:Hedit.
  - rewrite Hparse. simpl. now rewrite lookup_insert_eq.
  - destruct Hmiss as [Hedit' | [Hmiss Hown]]; [discriminate |].
    rewrite Hmiss, Hown, Hparse. simpl.
    rewrite lookup_insert_ne by lia. now rewrite lookup_insert_eq.
Qed.

End NoBindings.

Section NoBindingsExample.
#[local] Existing Instance Example.host.

Lemma formatBinding_null_bindings_throws_witness :
  formatBinding Example.runtime (Example.options_for "") new_engine
  = (Throw (not_iterable (js "oids")), new_engine)
  /\ formatBinding Example.runtime (Example.options_for "hello {{you}}") new_engine
     = (Throw (not_iterable (js "oids")), parsed (js "hello {{you}}") new_engine).
Proof.
  destruct (formatBinding_null_bindings_throws Example.runtime
              (Example.options_for "") new_engine) as (Hempty & _).
  destruct (formatBinding_null_bindings_throws Example.runtime
              (Example.options_for "hello {{you}}") new_engine) as (_ & Hnull).
  split.
  - apply Hempty. reflexivity.
  - apply Hnull; [discriminate | reflexivity | right; split; reflexivity].
Defined.

End NoBindingsExample.

(** ** The binding cache *)

Section Cache.
Context `{Host}.
Variable vis : Vis.

Lemma new_engine_wf : cache_wf new_engine.
Proof.
  intros template r Hr. unfold new_engine in Hr. simpl in Hr.
  now rewrite lookup_empty in Hr.
Qed.

(** In edit mode the parser is called, its result is handed out as a new
    object, and the cache is neither consulted nor changed. *)
Lemma extractBinding_edit (template : jsstring) (st : engine) :
  editMode vis = true ->
  template <> [] ->
  exists st',
    extractBinding vis template st
    = (Ok (match visUtils_extractBinding template with
           | Some _ => Some (next_ref st)
           | None => None
           end), st')
    /\ bindingsCache st' = bindingsCache st
    /\ parser_calls st' = parser_calls st ++ [template]
    /\ next_ref st <= next_ref st'
    /\ (forall r, r < next_ref st -> heap st' !! r = heap st !! r)
    /\ (forall bs, visUtils_extractBinding template = Some bs ->
          heap st' !! next_ref st = Some (VArr bs)).
Proof.
  intros Hedit Hne. unfold extractBinding.
  destruct template as [| c template']; [contradiction |].
  unfold_monad. unfold call_parser, alloc. rewrite Hedit.
  destruct (visUtils_extractBinding (c :: template')) as [bs |]; simpl.
  - eexists. split; [reflexivity |]. simpl. repeat split; [lia | |].
    + intros r Hr. apply lookup_insert_ne. lia.
    + intros bs' [= <-]. apply lookup_insert_eq.
  - eexists. split; [reflexivity |]. simpl. repeat split; [lia |].
    intros bs' [=].
Qed.

(** Outside edit mode, a template that is not cached is parsed; the result
    is handed out, and a copy of it is stored under the template. *)
Lemma extractBinding_miss (template : jsstring) (bs : list value) (st : engine) :
  editMode vis = false ->
  template <> [] ->
  cache_miss st template ->
  visUtils_extractBinding template = Some bs ->
  exists st',
    extractBinding vis template st = (Ok (Some (next_ref st)), st')
    /\ bindingsCache st' = <[template := S (next_ref st)]> (bindingsCache st)
    /\ heap st' = <[S (next_ref st) := json_copy (VArr bs)]>
                    (<[next_ref st := VArr bs]> (heap st))
    /\ next_ref st' = S (S (next_ref st))
    /\ parser_calls st' = parser_calls st ++ [template].
Proof.
  intros Hedit Hne [Hmiss Hown] Hparse. unfold extractBinding.
  destruct template as [| c template']; [contradiction |].
  unfold_monad. unfold cache_lookup, call_parser, alloc, cache_store.
  rewrite Hedit, Hmiss, Hown, Hparse. simpl.
  eexists. split; [reflexivity |]. simpl. repeat split.
Qed.

(** Outside edit mode, a cached template is not parsed: a copy of the
    cached list is handed out. *)
Lemma extractBinding_hit (template : jsstring) (master : nat) (xs : list value)
    (st : engine) :
  editMode vis = false ->
  template <> [] ->
  bindingsCache st !! template = Some master ->
  heap st !! master = Some (VArr xs) ->
  exists st',
    extractBinding vis template st = (Ok (Some (next_ref st)), st')
    /\ bindingsCache st' = bindingsCache st
    /\ heap st' = <[next_ref st := json_copy (VArr xs)]> (heap st)
    /\ next_ref st' = S (next_ref st)
    /\ parser_calls st' = parser_calls st.
Proof.
  intros Hedit Hne Hhit Hmaster. unfold extractBinding.
  destruct template as [| c template']; [contradiction |].
  unfold_monad. unfold cache_lookup, deref, alloc.
  rewrite Hedit, Hhit, Hmaster. simpl.
  eexists. split; [reflexivity |]. simpl. repeat split.
Qed.

(** Outside edit mode, a [null] of the parser is not cached. *)
Lemma extractBinding_null_not_cached (template : jsstring) (st : engine) :
  editMode vis = false ->
  template <> [] ->
  cache_miss st template ->
  visUtils_extractBinding template = None ->
  extractBinding vis template st = (Ok None, parsed template st).
Proof.
  intros Hedit Hne Hmiss Hnull.
  apply extractBinding_null; [exact Hne | exact Hnull | now right].
Qed.

(** Outside edit mode, a template that is the name of an inherited
    property is not parsed either: the lookup finds the inherited value,
    whose deep copy fails for a function and is an empty object for the
    prototype. *)
Lemma extractBinding_inherited (template : jsstring) (f : found) (st : engine) :
  editMode vis = false ->
  template <> [] ->
  bindingsCache st !! template = None ->
  inherited_property template = Some f ->
  exists result st',
    extractBinding vis template st = (result, st')
    /\ bindingsCache st' = bindingsCache st
    /\ parser_calls st' = parser_calls st
    /\ next_ref st <= next_ref st'
    /\ (forall r, r < next_ref st -> heap st' !! r = heap st !! r)
    /\ (forall r, result = Ok (Some r) -> next_ref st <= r < next_ref st').
Proof.
  intros Hedit Hne Hmiss Hin. unfold extractBinding.
  destruct template as [| c template']; [contradiction |].
  unfold_monad. unfold cache_lookup, deref, alloc.
  rewrite Hedit, Hmiss, Hin.
  destruct f as [master | |]; simpl.
  - unfold inherited_property in Hin.
    destruct (streq (c :: template') (js "__proto__")); [discriminate |].
    destruct (existsb (streq (c :: template')) Object_prototype_functions);
      discriminate.
  - do 2 eexists. split; [reflexivity |].
    split; [reflexivity |]. split; [reflexivity |]. split; [lia |].
    split; [reflexivity |]. intros r [=].
  - do 2 eexists. split; [reflexivity |]. simpl.
    split; [reflexivity |]. split; [reflexivity |]. split; [lia |]. split.
    + intros r Hr. apply lookup_insert_ne. lia.
    + intros r [= <-]. lia.
Qed.

(** What every call guarantees: the cache stays well formed, a reference
    that is handed out is new and is not held by the cache, and references
    that existed before keep their place outside the cache. *)
Lemma extractBinding_invariant (template : jsstring) (st st' : engine)
    (result : outcome (option nat)) :
  cache_wf st ->
  extractBinding vis template st = (result, st') ->
  cache_wf st'
  /\ next_ref st <= next_ref st'
  /\ (forall r, result = Ok (Some r) ->
        next_ref st <= r < next_ref st' /\ ~ held_by_cache st' r)
  /\ (forall r, r < next_ref st -> ~ held_by_cache st r -> ~ held_by_cache st' r)
  /\ (forall r, r < next_ref st -> heap st' !! r = heap st !! r).
Proof.
  intros Hwf Hcall.
  destruct template as [| c template'].
  { rewrite extractBinding_empty in Hcall. injection Hcall as <- <-.
    split; [exact Hwf |]. split; [lia |]. split; [intros r [=] |].
    split; [auto | reflexivity]. }
  set (template := c :: template') in *.
  assert (Hne : template <> []) by easy.
  destruct (editMode vis) eqn:Hedit.
  - destruct (extractBinding_edit template st Hedit Hne)
      as (st1 & Hrun & Hcache & _ & Hnext & Hheap & _).
    rewrite Hrun in Hcall. injection Hcall as <- <-.
    split; [| split; [exact Hnext | split; [| split; [| exact Hheap]]]].
    + intros k r Hr. rewrite Hcache in Hr. destruct (Hwf k r Hr) as [Hlt [xs Hxs]].
      split; [lia |]. exists xs. now rewrite Hheap.
    + intros r Hr. destruct (visUtils_extractBinding template) as [bs |] eqn:Hparse;
        [| discriminate].
      injection Hr as <-.
      assert (Hst1 : next_ref st1 = S (next_ref st)).
      { unfold extractBinding, template in Hrun. unfold_monad.
        unfold call_parser, alloc in Hrun. rewrite Hedit in Hrun.
        fold template in Hrun. rewrite Hparse in Hrun. simpl in Hrun.
        now injection Hrun as <-. }
      split; [lia |]. intros [k Hk]. rewrite Hcache in Hk.
      destruct (Hwf k _ Hk) as [Hlt _]. lia.
    + intros r Hlt Hnot [k Hk]. rewrite Hcache in Hk. apply Hnot. now exists k.
  - destruct (bindingsCache st !! template) as [master |] eqn:Hlookup.
    + destruct (Hwf template master Hlookup) as [Hlt [xs Hxs]].
      destruct (extractBinding_hit template master xs st Hedit Hne Hlookup Hxs)
        as (st1 & Hrun & Hcache & Hheap & Hnext & _).
      rewrite Hrun in Hcall. injection Hcall as <- <-.
      split; [| split; [lia | split; [| split]]].
      * intros k r Hr. rewrite Hcache in Hr. destruct (Hwf k r Hr) as [Hr' [ys Hys]].
        split; [lia |]. exists ys. rewrite Hheap. rewrite lookup_insert_ne by lia.
        exact Hys.
      * intros r [= <-]. split; [lia |]. intros [k Hk]. rewrite Hcache in Hk.
        destruct (Hwf k _ Hk) as [Hr' _]. lia.
      * intros r Hr Hnot [k Hk]. rewrite Hcache in Hk. apply Hnot. now exists k.
      * intros r Hr. rewrite Hheap. apply lookup_insert_ne. lia.
    + destruct (inherited_property template) as [f |] eqn:Hin.
      { destruct (extractBinding_inherited template f st Hedit Hne Hlookup Hin)
          as (result1 & st1 & Hrun & Hcache & _ & Hnext & Hheap & Hnew).
        rewrite Hrun in Hcall. injection Hcall as <- <-.
        split; [| split; [exact Hnext | split; [| split; [| exact Hheap]]]].
        - intros k r Hr. rewrite Hcache in Hr.
          destruct (Hwf k r Hr) as [Hr' [ys Hys]].
          split; [lia |]. exists ys. now rewrite Hheap.
        - intros r Hr. split; [now apply Hnew |].
          intros [k Hk]. rewrite Hcache in Hk.
          destruct (Hwf k _ Hk) as [Hr' _]. apply Hnew in Hr. lia.
        - intros r Hr Hnot [k Hk]. rewrite Hcache in Hk. apply Hnot. now exists k. }
      assert (Hmiss : cache_miss st template) by (split; assumption).
      destruct (visUtils_extractBinding template) as [bs |] eqn:Hparse.
      * destruct (extractBinding_miss template bs st Hedit Hne Hmiss Hparse)
          as (st1 & Hrun & Hcache & Hheap & Hnext & _).
        rewrite Hrun in Hcall. injection Hcall as <- <-.
        split; [| split; [lia | split; [| split]]].
        -- intros k r Hr. rewrite Hcache in Hr.
           destruct (decide (template = k)) as [<- | Hk].
           ++ rewrite lookup_insert_eq in Hr. injection Hr as <-.
              split; [lia |]. rewrite Hheap, lookup_insert_eq. simpl. eauto.
           ++ rewrite lookup_insert_ne in Hr by exact Hk.
              destruct (Hwf k r Hr) as [Hr' [ys Hys]].
              split; [lia |]. exists ys. rewrite Hheap.
              rewrite !lookup_insert_ne by lia. exact Hys.
        -- intros r [= <-]. split; [lia |]. intros [k Hk]. rewrite Hcache in Hk.
           destruct (decide (template = k)) as [<- | Hne'].
           ++ rewrite lookup_insert_eq in Hk. injection Hk as Hk. lia.
           ++ rewrite lookup_insert_ne in Hk by exact Hne'.
              destruct (Hwf k _ Hk) as [Hr' _]. lia.
        -- intros r Hr Hnot [k Hk]. rewrite Hcache in Hk.
           destruct (decide (template = k)) as [<- | Hne'].
           ++ rewrite lookup_insert_eq in Hk. injection Hk as Hk. lia.
           ++ rewrite lookup_insert_ne in Hk by exact Hne'. apply Hnot. now exists k.
        -- intros r Hr. rewrite Hheap. rewrite !lookup_insert_ne by lia. reflexivity.
      * rewrite (extractBinding_null_not_cached template st Hedit Hne Hmiss Hparse)
          in Hcall.
        injection Hcall as <- <-.
        split; [exact Hwf |]. split; [simpl; lia |]. split; [intros r [=] |].
        split; [auto | reflexivity].
Qed.

(** Overwriting an object the cache does not hold changes no cached list
    and keeps the cache well formed. *)
Lemma mutate_outside_cache (r : nat) (v : value) (st : engine) :
  ~ held_by_cache st r ->
  (forall template, cached_bindings (mutate r v st) template = cached_bindings st template)
  /\ (cache_wf st -> cache_wf (mutate r v st)).
Proof.
  intros Hnot. split.
  - intros template. unfold cached_bindings, mutate. simpl.
    destruct (bindingsCache st !! template) as [c |] eqn:Hc; [| reflexivity].
    simpl. apply lookup_insert_ne. intros ->. apply Hnot. now exists template.
  - intros Hwf template c Hc. unfold mutate in *. simpl in *.
    destruct (Hwf template c Hc) as [Hlt [xs Hxs]]. split; [exact Hlt |].
    exists xs. rewrite lookup_insert_ne; [exact Hxs |].
    intros ->. apply Hnot. now exists template.
Qed.

End Cache.

Section CacheByMode.
Context `{Host}.
Variable vis : Vis.

(** C3, as the code has it.  For a non-empty template (the empty one is
    answered with [null] at once, in either mode):
    - in edit mode a call neither consults nor changes the cache: it
      calls the parser, and the object it hands out holds the list the
      parser has just returned, whatever the cache holds for the template;
    - outside edit mode, two calls in a row on a template that is not yet
      cached and in which the parser finds a binding list call the parser
      exactly once: the first call hands out the parser's list and caches a
      deep copy, the second hands out a deep copy of the cached one (a
      [null] of the parser is not cached, so it is asked again);
    - the object a call hands out is never the cached one, so overwriting
      it changes no cached list, now or after any later call. *)
Theorem cache_bypassed_in_edit_mode_copies_otherwise
    (template : jsstring) (st : engine) :
  cache_wf st ->
  template <> [] ->
  (editMode vis = true ->
     forall result st',
       extractBinding vis template st = (result, st') ->
       bindingsCache st' = bindingsCache st
       /\ (forall t, cached_bindings st' t = cached_bindings st t)
       /\ parser_calls st' = parser_calls st ++ [template]
       /\ result = Ok (match visUtils_extractBinding template with
                       | Some _ => Some (next_ref st)
                       | None => None
                       end)
       /\ (forall bs, visUtils_extractBinding template = Some bs ->
             result = Ok (Some (next_ref st))
             /\ heap st' !! next_ref st = Some (VArr bs)
             /\ ~ held_by_cache st' (next_ref st)))
  /\ (editMode vis = false ->
      cache_miss st template ->
      forall bs, visUtils_extractBinding template = Some bs ->
      exists r1 r2 st1 st2,
        extractBinding vis template st = (Ok (Some r1), st1)
        /\ extractBinding vis template st1 = (Ok (Some r2), st2)
        /\ parser_calls st2 = parser_calls st ++ [template]
        /\ r1 <> r2
        /\ heap st2 !! r1 = Some (VArr bs)
        /\ cached_bindings st2 template = Some (json_copy (VArr bs))
        /\ heap st2 !! r2 = Some (json_copy (json_copy (VArr bs))))
  /\ (forall result st' r,
        extractBinding vis template st = (result, st') ->
        result = Ok (Some r) ->
        cache_wf st'
        /\ r < next_ref st'
        /\ ~ held_by_cache st' r
        /\ (forall v t, cached_bindings (mutate r v st') t = cached_bindings st' t))
  /\ (forall r template' result st',
        r < next_ref st -> ~ held_by_cache st r ->
        extractBinding vis template' st = (result, st') ->
        cache_wf st' /\ r < next_ref st' /\ ~ held_by_cache st' r).
Proof.
  intros Hwf Hne. split; [| split; [| split]].
  - intros Hedit result st' Hcall.
    destruct (extractBinding_edit vis template st Hedit Hne)
      as (st1 & Hrun & Hcache & Hcalls & _ & Hheap & Hnew).
    rewrite Hrun in Hcall. injection Hcall as <- <-.
    split; [exact Hcache |].
    split; [| split; [exact Hcalls | split; [reflexivity |]]].
    + intros t. unfold cached_bindings. rewrite Hcache.
      destruct (bindingsCache st !! t) as [c |] eqn:Hc; [| reflexivity].
      simpl. apply Hheap. now destruct (Hwf t c Hc).
    + intros bs Hparse. rewrite Hparse.
      split; [reflexivity |]. split; [now apply Hnew |].
      intros [t Ht]. rewrite Hcache in Ht.
      destruct (Hwf t _ Ht) as [Hlt _]. lia.
  - intros Hedit Hmiss bs Hparse.
    destruct (extractBinding_miss vis template bs st Hedit Hne Hmiss Hparse)
      as (st1 & Hrun1 & Hcache1 & Hheap1 & Hnext1 & Hcalls1).
    assert (Hhit : bindingsCache st1 !! template = Some (S (next_ref st)))
      by (rewrite Hcache1; apply lookup_insert_eq).
    assert (Hmaster : heap st1 !! S (next_ref st) = Some (json_copy (VArr bs)))
      by (rewrite Hheap1; apply lookup_insert_eq).
    destruct (extractBinding_hit vis template _ _ st1 Hedit Hne Hhit Hmaster)
      as (st2 & Hrun2 & Hcache2 & Hheap2 & Hnext2 & Hcalls2).
    exists (next_ref st), (next_ref st1), st1, st2.
    split; [exact Hrun1 |]. split; [exact Hrun2 |].
    split; [now rewrite Hcalls2, Hcalls1 |].
    split; [lia |]. split; [| split].
    + rewrite Hheap2, Hheap1. rewrite !lookup_insert_ne by lia. apply lookup_insert_eq.
    + unfold cached_bindings. rewrite Hcache2, Hhit. simpl.
      rewrite Hheap2. rewrite lookup_insert_ne by lia. exact Hmaster.
    + rewrite Hheap2. apply lookup_insert_eq.
  - intros result st' r Hcall ->.
    destruct (extractBinding_invariant vis template st st' _ Hwf Hcall)
      as (Hwf' & _ & Hnew & _ & _).
    destruct (Hnew r eq_refl) as [Hrange Hnot].
    split; [exact Hwf' |]. split; [lia |]. split; [exact Hnot |].
    intros v. now apply mutate_outside_cache.
  - intros r template' result st' Hr Hnot Hcall.
    destruct (extractBinding_invariant vis template' st st' _ Hwf Hcall)
      as (Hwf' & Hnext & _ & Hkeep & _).
    split; [exact Hwf' |]. split; [lia |]. now apply Hkeep.
Qed.

End CacheByMode.

Section CacheExample.
#[local] Existing Instance Example.host.

(** Outside edit mode the parser finds no binding in ["hello"]; asked
    twice, the engine calls it twice.  In edit mode the empty template is
    answered without calling it. *)
Lemma parser_called_again_after_null :
  visUtils_extractBinding (js "hello") = None
  /\ parser_calls
       (snd (extractBinding Example.runtime (js "hello")
               (snd (extractBinding Example.runtime (js "hello") new_engine))))
     = [js "hello"; js "hello"]
  /\ length (parser_calls
               (snd (extractBinding Example.runtime (js "hello")
                       (snd (extractBinding Example.runtime (js "hello")
                               new_engine))))) <> 1
  /\ parser_calls (snd (extractBinding Example.editor [] new_engine)) = [].
Proof.
  split; [reflexivity |]. split; [reflexivity |].
  split; [vm_compute; discriminate | reflexivity].
Qed.

(** Outside edit mode the template ["constructor"] finds the inherited
    function: the deep copy fails and the parser is not called. *)
Lemma extractBinding_constructor_throws :
  extractBinding Example.runtime (js "constructor") new_engine
  = (Throw (SyntaxError (js "undefined is not valid JSON")), new_engine).
Proof. reflexivity. Qed.

(** Once ["{a}"] is cached, a call in edit mode still asks the parser and
    hands out the parser's list, which is not the cached copy: the copy has
    lost the [operations] that the parser left [undefined]. *)
Lemma edit_mode_ignores_cached_list :
  let bindings := VArr [Example.binding "a" "{a}" VUndefined] in
  let st1 := snd (extractBinding Example.runtime (js "{a}") new_engine) in
  let st2 := snd (extractBinding Example.editor (js "{a}") st1) in
  cached_bindings st1 (js "{a}") = Some (json_copy bindings)
  /\ json_copy bindings <> bindings
  /\ fst (extractBinding Example.editor (js "{a}") st1) = Ok (Some (next_ref st1))
  /\ heap st2 !! next_ref st1 = Some bindings
  /\ parser_calls st2 = [js "{a}"; js "{a}"].
Proof.
  cbv zeta. split; [reflexivity |]. split; [vm_compute; discriminate |].
  split; [reflexivity |]. split; reflexivity.
Qed.

Lemma cache_bypassed_in_edit_mode_copies_otherwise_witness :
  (cache_wf new_engine /\ js "{a}" <> [])
  /\ parser_calls (snd (extractBinding Example.editor (js "{a}") new_engine))
     = [js "{a}"]
  /\ (forall bs, visUtils_extractBinding (js "{a}") = Some bs ->
        heap (snd (extractBinding Example.editor (js "{a}") new_engine)) !! 0
        = Some (VArr bs))
  /\ (exists r1 r2 st1 st2,
        extractBinding Example.runtime (js "{a}") new_engine = (Ok (Some r1), st1)
        /\ extractBinding Example.runtime (js "{a}") st1 = (Ok (Some r2), st2)
        /\ parser_calls st2 = [js "{a}"]
        /\ r1 <> r2).
Proof.
  split; [split; [exact new_engine_wf | discriminate] |].
  destruct (cache_bypassed_in_edit_mode_copies_otherwise Example.editor (js "{a}")
              new_engine new_engine_wf ltac:(discriminate)) as (Hedit & _).
  destruct (cache_bypassed_in_edit_mode_copies_otherwise Example.runtime (js "{a}")
              new_engine new_engine_wf ltac:(discriminate)) as (_ & Hrun & _).
  split; [| split].
  - destruct (extractBinding Example.editor (js "{a}") new_engine) as [result st']
      eqn:Hcall.
    destruct (Hedit eq_refl result st' eq_refl) as (_ & _ & Hcalls & _).
    exact Hcalls.
  - intros bs Hparse.
    destruct (extractBinding Example.editor (js "{a}") new_engine) as [result st']
      eqn:Hcall.
    destruct (Hedit eq_refl result st' eq_refl) as (_ & _ & _ & _ & Hnew).
    now destruct (Hnew bs Hparse) as (_ & Hheap & _).
  - destruct (Hrun eq_refl (conj eq_refl eq_refl) _ eq_refl)
      as (r1 & r2 & st1 & st2 & H1 & H2 & Hcalls & Hneq & _).
    exists r1, r2, st1, st2. repeat split; assumption.
Defined.

End CacheExample.

(** ** Numeric inputs of the custom date formatter *)

(** Comparisons of binary64 numbers, from their specification. *)

Lemma SFcompare_antisym (a b : spec_float) (c : comparison) :
  SFcompare a b = Some c -> SFcompare b a = Some (CompOpp c).
Proof.
  destruct a as [sa | sa | | sa ma ea], b as [sb | sb | | sb mb eb]; simpl;
    try discriminate; intros [= <-];
    try (destruct sa; try destruct sb; reflexivity).
  destruct sa, sb; try reflexivity;
    rewrite (Z.compare_antisym ea eb); destruct (ea ?= eb)%Z; simpl; try reflexivity.
  all: change Eq with (CompOpp Eq) at 1; rewrite <- Pos.compare_cont_antisym;
    now destruct (Pos.compare_cont Eq ma mb).
Qed.

(** [a <= b] excludes [b < a]. *)
Lemma float_leb_not_ltb (a b : float) :
  PrimFloat.leb a b = true -> PrimFloat.ltb b a = false.
Proof.
  rewrite FloatAxioms.leb_spec, FloatAxioms.ltb_spec. unfold SFleb, SFltb.
  destruct (SFcompare (Prim2SF a) (Prim2SF b)) as [c |] eqn:E; [| discriminate].
  rewrite (SFcompare_antisym _ _ _ E). now destruct c.
Qed.

(** [a === b] for a non-zero [b] makes them the same number. *)
Lemma float_eqb_eq (a b : float) :
  PrimFloat.eqb a b = true -> PrimFloat.is_zero b = false -> a = b.
Proof.
  unfold PrimFloat.is_zero. rewrite !FloatAxioms.eqb_spec. unfold SFeqb.
  intros Heq Hzero.
  rewrite <- (FloatAxioms.SF2Prim_Prim2SF a), <- (FloatAxioms.SF2Prim_Prim2SF b).
  f_equal.
  change (Prim2SF PrimFloat.zero) with (S754_zero false) in Hzero.
  destruct (Prim2SF a) as [sa | sa | | sa ma ea], (Prim2SF b) as [sb | sb | | sb mb eb];
    simpl in *; try discriminate.
  all: try (destruct sa; discriminate). all: try (destruct sb; discriminate).
  - destruct sa, sb; try discriminate; reflexivity.
  - destruct sa, sb; try discriminate;
      destruct (ea ?= eb)%Z eqn:Ee; try discriminate;
      apply Z.compare_eq in Ee; subst eb;
      destruct (Pos.compare_cont Eq ma mb) eqn:Em; try discriminate;
      apply Pos.compare_eq in Em; now subst mb.
Qed.

(** A number at or above a positive number is not below a positive number
    of smaller exponent. *)
Lemma SFleb_not_ltb_smaller (ma mb : positive) (ea eb : Z) (c : spec_float) :
  (ea < eb)%Z ->
  SFleb (S754_finite false mb eb) c = true ->
  SFltb c (S754_finite false ma ea) = false.
Proof.
  intros Hlt. unfold SFleb, SFltb.
  destruct c as [sc | sc | | sc mc ec]; simpl; try discriminate.
  - now destruct sc.
  - destruct sc; [discriminate |].
    destruct (eb ?= ec)%Z eqn:E; try discriminate; intros _.
    + apply Z.compare_eq in E. subst ec.
      now rewrite (proj2 (Z.compare_gt_iff eb ea)) by lia.
    + change (eb < ec)%Z in E.
      now rewrite (proj2 (Z.compare_gt_iff ec ea)) by lia.
Qed.

(** From 946681200000 on, a number is not below 946681200. *)
Lemma above_milliseconds_threshold (x : float) :
  PrimFloat.leb 946681200000%float x = true ->
  PrimFloat.ltb x 946681200%float = false.
Proof.
  rewrite FloatAxioms.leb_spec, FloatAxioms.ltb_spec.
  change (Prim2SF 946681200000%float)
    with (S754_finite false 7755212390400000 (-13)).
  change (Prim2SF 946681200%float)
    with (S754_finite false 7941337487769600 (-23)).
  apply SFleb_not_ltb_smaller. lia.
Qed.

Section NumericDates.
Context `{Host}.
Variable vis : Vis.

(** An integer in the sense of the code is what [parseInt] gives back. *)
Lemma integer_is_its_parseInt (x : float) :
  truthy (VNum x) = true ->
  strict_eq_num (parseInt (VNum x)) (VNum x) = true ->
  parseInt (VNum x) = x.
Proof.
  cbn [truthy strict_eq_num]. intros Htruthy Hint.
  apply float_eqb_eq; [exact Hint |].
  destruct (PrimFloat.is_zero x); [discriminate | reflexivity].
Qed.

(** C4, as the code has it.  Let a numeric input [x] be truthy (0 and NaN
    give the empty string) and an integer in the sense of the code,
    [parseInt(x, 10) === x].  Below 946681200 it is taken as a duration:
    whatever flag was passed, the date [new Date(x)] is shifted by its own
    timezone offset, once, before the pattern is rendered.  From 946681200
    and below 946681200000 the date is [new Date(x * 1000)], seconds since
    the epoch; from 946681200000 on it is [new Date(x)], milliseconds since
    the epoch; in both cases it is shifted only if the caller asked for a
    duration. *)
Theorem numeric_date_by_threshold (x : float) (isDuration _format : value) :
  truthy (VNum x) = true ->
  strict_eq_num (parseInt (VNum x)) (VNum x) = true ->
  let flag := fst (duration_flag isDuration _format) in
  let format := js_or (snd (duration_flag isDuration _format))
                  (js_or (dateFormat vis) default_pattern) in
  (PrimFloat.ltb x 946681200%float = true ->
     formatDate vis (VNum x) isDuration _format
     = render_date (BDate (shift_by_timezone_offset (Date_new (VNum x)))) format)
  /\ (PrimFloat.leb 946681200%float x = true ->
      PrimFloat.ltb x 946681200000%float = true ->
      formatDate vis (VNum x) isDuration _format
      = let! d := shift_if flag (BDate (Date_new (VNum (PrimFloat.mul x 1000%float)))) in
        render_date d format)
  /\ (PrimFloat.leb 946681200000%float x = true ->
      formatDate vis (VNum x) isDuration _format
      = let! d := shift_if flag (BDate (Date_new (VNum x))) in
        render_date d format).
Proof.
  intros Htruthy Hint flag format. subst flag format.
  pose proof (integer_is_its_parseInt x Htruthy Hint) as Hj.
  unfold formatDate.
  destruct (duration_flag isDuration _format) as [flag pattern]. cbn [fst snd].
  rewrite Htruthy. cbn [negb]. unfold date_of_input. cbn [typeof].
  rewrite Hint, Hj.
  repeat split.
  - intros ->. reflexivity.
  - intros Hge ->. now rewrite (float_leb_not_ltb _ _ Hge).
  - intros Hge.
    now rewrite (above_milliseconds_threshold _ Hge), (float_leb_not_ltb _ _ Hge).
Qed.

End NumericDates.

Section NumericDatesExample.
#[local] Existing Instance Example.host.

(** The number 0 is an integer below the threshold, yet it is not rendered
    as a duration: the result is the empty string, where the duration 0
    reads ["00:00:00"]. *)
Lemma formatDate_zero_is_not_a_duration :
  strict_eq_num (parseInt (VNum 0%float)) (VNum 0%float) = true
  /\ PrimFloat.ltb (parseInt (VNum 0%float)) 946681200%float = true
  /\ formatDate Example.runtime (VNum 0%float) (VStr (js "hh:mm:ss")) VUndefined
     = Ok (VStr [])
  /\ render_date (BDate (shift_by_timezone_offset (Date_new (VNum 0%float))))
       (VStr (js "hh:mm:ss")) = Ok (VStr (js "00:00:00"))
  /\ formatDate Example.runtime (VNum 0%float) (VStr (js "hh:mm:ss")) VUndefined
     <> render_date (BDate (shift_by_timezone_offset (Date_new (VNum 0%float))))
          (VStr (js "hh:mm:ss")).
Proof.
  split; [reflexivity |]. split; [reflexivity |]. split; [reflexivity |].
  split; [reflexivity |]. vm_compute. discriminate.
Qed.

(** 100 is a duration; 946684800 is 2000-01-01 00:00:00 UTC in seconds;
    1690000000000 is 2023-07-22 04:26:40 UTC in milliseconds.  Local time
    is one hour ahead. *)
Lemma numeric_date_by_threshold_witness :
  formatDate Example.runtime (VNum 100%float) (VStr (js "hh:mm:ss.sss")) VUndefined
  = Ok (VStr (js "00:00:00.100"))
  /\ formatDate Example.runtime (VNum 946684800%float)
       (VStr (js "YYYY-MM-DD hh:mm")) VUndefined
     = Ok (VStr (js "2000-01-01 01:00"))
  /\ formatDate Example.runtime (VNum 1690000000000%float)
       (VStr (js "YYYY-MM-DD hh:mm")) VUndefined
     = Ok (VStr (js "2023-07-22 05:26")).
Proof.
  split; [| split].
  - destruct (numeric_date_by_threshold Example.runtime 100%float
                (VStr (js "hh:mm:ss.sss")) VUndefined ltac:(reflexivity) ltac:(reflexivity))
      as (Hduration & _).
    rewrite Hduration; reflexivity.
  - destruct (numeric_date_by_threshold Example.runtime 946684800%float
                (VStr (js "YYYY-MM-DD hh:mm")) VUndefined ltac:(reflexivity) ltac:(reflexivity))
      as (_ & Hseconds & _).
    rewrite Hseconds; reflexivity.
  - destruct (numeric_date_by_threshold Example.runtime 1690000000000%float
                (VStr (js "YYYY-MM-DD hh:mm")) VUndefined ltac:(reflexivity) ltac:(reflexivity))
      as (_ & _ & Hmillis).
    rewrite Hmillis; reflexivity.
Defined.

End NumericDatesExample.

(** * Further properties of the engine *)

(** ** Property paths *)

Section PropertyPaths.
Context `{Host}.

Lemma get_prop_truthy (obj : value) (k : jsstring) :
  truthy obj = true -> exists v, get_prop obj k = Ok v.
Proof.
  destruct obj; try discriminate; intros _; simpl; eauto.
  - destruct (streq k (js "length")); eauto.
  - destruct (streq k (js "length")); eauto.
Qed.

Lemma getObjPropValue_walk_safe (parts : list jsstring) (obj : value) :
  truthy obj = true ->
  exists v, getObjPropValue_walk obj parts = Ok v
            /\ (v = VUndefined \/ truthy v = true).
Proof.
  revert obj. induction parts as [| part parts IH]; intros obj Hobj.
  - exists obj. simpl. auto.
  - simpl. destruct (get_prop_truthy obj part Hobj) as [v Hv]. rewrite Hv.
    cbn [obind]. destruct (truthy v) eqn:Hvt; cbn [negb].
    + now apply IH.
    + exists VUndefined. auto.
Qed.

(** X1: for a path given as a string each of whose steps reads a
    property of the value itself, the [length] or an element of an array or
    a string, or a name that plain objects do not inherit,
    [getObjPropValue] does not throw, and what it returns is [undefined] or
    a truthy value: a property that holds 0, the empty string, [false] or
    [null] reads as [undefined], like a missing one.  For a single step
    into a plain object the result is the property if it is truthy. *)
Theorem getObjPropValue_undefined_or_truthy (obj : value) (path : jsstring) :
  (truthy obj = true -> own_walk obj (split_on 46 path) = true) ->
  exists v, getObjPropValue obj (VStr path) = Ok v
            /\ (v = VUndefined \/ truthy v = true)
            /\ (truthy obj = false -> v = VUndefined)
            /\ (forall ps x, obj = VObj ps -> split_on 46 path = [path] ->
                  assoc path ps = Some x ->
                  v = if truthy x then x else VUndefined).
Proof.
  intros _. unfold getObjPropValue. destruct (truthy obj) eqn:Hobj; cbn [negb].
  - destruct (getObjPropValue_walk_safe (split_on 46 path) obj Hobj)
      as (v & Hv & Hcases).
    exists v. split; [exact Hv |]. split; [exact Hcases |].
    split; [discriminate |].
    intros ps x -> Hsplit Hx. rewrite Hsplit in Hv. simpl in Hv.
    rewrite Hx in Hv. simpl in Hv.
    destruct (truthy x); simpl in Hv; now injection Hv as <-.
  - exists VUndefined. repeat split; auto. intros ps x ->. discriminate.
Qed.

End PropertyPaths.

Section PropertyPathsExample.
#[local] Existing Instance Example.host.

(** The path ["x.y"] finds 5 in [{ x: { y: 5 } }]; the path ["x"] reads the
    0 of [{ x: 0 }] as [undefined]. *)
Lemma getObjPropValue_undefined_or_truthy_witness :
  getObjPropValue
    (Example.vobj [("x", Example.vobj [("y", VNum 5%float)]%string)]%string)
    (VStr (js "x.y")) = Ok (VNum 5%float)
  /\ getObjPropValue (Example.vobj [("x", VNum 0%float)]%string) (VStr (js "x"))
     = Ok VUndefined.
Proof.
  split.
  - destruct (getObjPropValue_undefined_or_truthy
                (Example.vobj [("x", Example.vobj [("y", VNum 5%float)]%string)]%string)
                (js "x.y") ltac:(reflexivity)) as (v & Hv & _).
    rewrite Hv. vm_compute in Hv. symmetry. exact Hv.
  - destruct (getObjPropValue_undefined_or_truthy
                (Example.vobj [("x", VNum 0%float)]%string) (js "x")
                ltac:(reflexivity)) as (v & Hv & _ & _ & Hsingle).
    rewrite Hv. f_equal.
    exact (Hsingle _ _ eq_refl eq_refl eq_refl).
Defined.

End PropertyPathsExample.

(** ** Operators *)

Section Operators.
Context `{Host}.
Variable vis : Vis.
Variable o : FormatBindingOptions.

(** X2: the arithmetic operators [*], [/], [+], [-] and [%] without an
    argument ([undefined] or [null]) leave the current value as it is, not
    even coerced to a number, and the engine unchanged. *)
Theorem arithmetic_without_argument_is_identity
    (format name : jsstring) (operation val arg : value) (st : engine) :
  In name [js "*"; js "/"; js "+"; js "-"; js "%"] ->
  get_prop operation (js "op") = Ok (VStr name) ->
  get_prop operation (js "arg") = Ok arg ->
  nullish arg = true ->
  apply_operation vis o format operation val st = (Ok val, st).
Proof.
  intros Hname Hop Harg Hnull. unfold apply_operation. unfold_monad.
  rewrite Hop, Harg. simpl in Hname.
  destruct Hname as [<- | [<- | [<- | [<- | [<- | []]]]]].
  - change (opkind_of (VStr (js "*"))) with OpMul. cbv beta iota. now rewrite Hnull.
  - change (opkind_of (VStr (js "/"))) with OpDiv. cbv beta iota. now rewrite Hnull.
  - change (opkind_of (VStr (js "+"))) with OpAdd. cbv beta iota. now rewrite Hnull.
  - change (opkind_of (VStr (js "-"))) with OpSub. cbv beta iota. now rewrite Hnull.
  - change (opkind_of (VStr (js "%"))) with OpMod. cbv beta iota. now rewrite Hnull.
Qed.

Lemma toUpperCase_length (s : jsstring) : length (toUpperCase s) = length s.
Proof. unfold toUpperCase. apply length_map. Qed.

Lemma toUpperCase_pad_hex2 (s : jsstring) :
  toUpperCase (pad_hex2 s) = pad_hex2 (toUpperCase s).
Proof.
  unfold pad_hex2. rewrite toUpperCase_length.
  now destruct (length s <? 2).
Qed.

Lemma pad_hex2_length (s : jsstring) : 2 <= length (pad_hex2 s) \/ s = [].
Proof.
  unfold pad_hex2. destruct s as [| a [| b s]]; simpl; auto; left; lia.
Qed.

(** X3: [HEX2] gives the text of [hex2] in upper case, whatever the value
    is; the padding with ["0"] adds one character at most, so both have at
    least two characters as soon as the numeral is not empty, and a
    numeral of two or more characters is not padded. *)
Theorem HEX2_is_upper_case_hex2
    (format : jsstring) (lower upper val : value) (st : engine) :
  get_prop lower (js "op") = Ok (VStr (js "hex2")) ->
  get_prop upper (js "op") = Ok (VStr (js "HEX2")) ->
  apply_operation vis o format lower val st = (Ok (VStr (hex2_text val)), st)
  /\ apply_operation vis o format upper val st
     = (Ok (VStr (toUpperCase (hex2_text val))), st)
  /\ (Number_toString16 (Math_round (parseFloat val)) <> [] ->
      2 <= length (hex2_text val))
  /\ (2 <= length (Number_toString16 (Math_round (parseFloat val))) ->
      hex2_text val = Number_toString16 (Math_round (parseFloat val))).
Proof.
  intros Hlower Hupper.
  destruct (get_prop_other _ _ (js "arg") _ Hlower) as [arg1 Harg1].
  destruct (get_prop_other _ _ (js "arg") _ Hupper) as [arg2 Harg2].
  split; [| split; [| split]].
  - unfold apply_operation. unfold_monad. now rewrite Hlower, Harg1.
  - unfold apply_operation. unfold_monad. rewrite Hupper, Harg2.
    change (opkind_of (VStr (js "HEX2"))) with OpHEX2. cbv beta iota.
    unfold hex2_text. now rewrite toUpperCase_pad_hex2.
  - intros Hne. unfold hex2_text.
    destruct (pad_hex2_length (Number_toString16 (Math_round (parseFloat val))));
      [assumption | contradiction].
  - intros Hlen. unfold hex2_text, pad_hex2.
    destruct (length _ <? 2) eqn:E; [| reflexivity].
    apply Nat.ltb_lt in E. lia.
Qed.

Lemma split_on_length (sep : N) (s : jsstring) :
  length (split_on sep s) = S (occurrences sep s).
Proof.
  induction s as [| c s IH]; [reflexivity |]. simpl.
  destruct (N.eqb c sep); simpl.
  - now rewrite IH.
  - destruct (split_on sep s) as [| w ws]; simpl in *; [discriminate | exact IH].
Qed.

(** X4: a [momentDate] argument with two or more commas, that is three or
    more parts, gives the text ["error"]; the calendar library is not
    used, so this holds without a library handle too. *)
Theorem momentDate_with_three_parts_is_error
    (format s : jsstring) (operation val : value) (st : engine) :
  get_prop operation (js "op") = Ok (VStr (js "momentDate")) ->
  get_prop operation (js "arg") = Ok (VStr s) ->
  2 <= occurrences 44 s ->
  apply_operation vis o format operation val st = (Ok (VStr (js "error")), st).
Proof.
  intros Hop Harg Hcommas. unfold apply_operation. unfold_monad.
  rewrite Hop, Harg.
  change (opkind_of (VStr (js "momentDate"))) with OpMomentDate.
  cbv beta iota. cbn [nullish].
  pose proof (split_on_length 44 s) as Hlen.
  destruct (split_on 44 s) as [| p0 [| p1 [| p2 ps]]]; simpl in Hlen;
    try lia; reflexivity.
Qed.

End Operators.

Section OperatorsExample.
#[local] Existing Instance Example.host.

Lemma arithmetic_without_argument_is_identity_witness :
  apply_operation Example.runtime (Example.options_for "{a;*}") (js "{a;*}")
    (operation_of "*" VUndefined) (VStr (js "12abc")) new_engine
  = (Ok (VStr (js "12abc")), new_engine).
Proof.
  apply (arithmetic_without_argument_is_identity Example.runtime
           (Example.options_for "{a;*}") (js "{a;*}") (js "*")
           (operation_of "*" VUndefined) (VStr (js "12abc")) VUndefined new_engine);
    [left; reflexivity | reflexivity | reflexivity | reflexivity].
Defined.

Lemma HEX2_is_upper_case_hex2_witness :
  apply_operation Example.runtime (Example.options_for "{a;hex2}") (js "{a;hex2}")
    (operation_of "hex2" VUndefined) (VNum 10%float) new_engine
  = (Ok (VStr (js "0a")), new_engine)
  /\ apply_operation Example.runtime (Example.options_for "{a;hex2}") (js "{a;hex2}")
       (operation_of "HEX2" VUndefined) (VNum 10%float) new_engine
     = (Ok (VStr (js "0A")), new_engine).
Proof.
  destruct (HEX2_is_upper_case_hex2 Example.runtime (Example.options_for "{a;hex2}")
              (js "{a;hex2}") (operation_of "hex2" VUndefined)
              (operation_of "HEX2" VUndefined) (VNum 10%float) new_engine
              eq_refl eq_refl) as (Hlower & Hupper & _).
  split; [rewrite Hlower | rewrite Hupper]; reflexivity.
Defined.

Lemma momentDate_with_three_parts_is_error_witness :
  apply_operation Example.runtime (Example.options_for "{a;momentDate}")
    (js "{a;momentDate}") (operation_of "momentDate" (VStr (js "DD.MM,true,x")))
    (VNum 1690000000000%float) new_engine
  = (Ok (VStr (js "error")), new_engine).
Proof.
  apply (momentDate_with_three_parts_is_error Example.runtime
           (Example.options_for "{a;momentDate}") (js "{a;momentDate}")
           (js "DD.MM,true,x")
           (operation_of "momentDate" (VStr (js "DD.MM,true,x")))
           (VNum 1690000000000%float) new_engine eq_refl eq_refl).
  simpl. lia.
Defined.

End OperatorsExample.

(** ** Patterns of the custom date formatter *)

Section DatePatterns.
Context `{Host}.
Variable vis : Vis.

Lemma _put_nothing (dateObj : date_or_value) (result : jsstring) :
  _put [] dateObj result = Ok result.
Proof. unfold _put. cbn. now rewrite app_nil_r. Qed.

Lemma _put_prefix (s : jsstring) (dateObj : date_or_value) (result : jsstring) :
  _put s dateObj result
  = let! r := _put s dateObj [] in Ok (result ++ r).
Proof.
  unfold _put.
  repeat match goal with
         | |- context [if ?b then _ else _] => destruct b
         | |- context [date_get ?m ?g ?d] => destruct (date_get m g d)
         end; reflexivity.
Qed.

Lemma formatDate_loop_prefix (chars : list value) (dateObj : date_or_value)
    (s result : jsstring) :
  formatDate_loop chars dateObj s result
  = let! r := formatDate_loop chars dateObj s [] in Ok (result ++ r).
Proof.
  revert s result. induction chars as [| c chars IH]; intros s result.
  - apply _put_prefix.
  - cbn [formatDate_loop].
    destruct (includes (ToString c) validFormatChars); [apply IH |].
    rewrite (_put_prefix s dateObj result).
    destruct (_put s dateObj []) as [r | e]; [| reflexivity].
    cbn [obind app]. rewrite (IH [] ((result ++ r) ++ ToString c)).
    rewrite (IH [] (r ++ ToString c)).
    destruct (formatDate_loop chars dateObj [] []) as [r' | e']; [| reflexivity].
    cbn [obind]. now rewrite <- !app_assoc.
Qed.

Lemma formatDate_loop_plain (p : jsstring) (dateObj : date_or_value)
    (result : jsstring) :
  plain_text p = true ->
  formatDate_loop (List.map (fun c => VStr [c]) p) dateObj [] result
  = Ok (result ++ p).
Proof.
  revert result. induction p as [| c p IH]; intros result Hplain.
  - cbn [List.map formatDate_loop]. rewrite _put_nothing. now rewrite app_nil_r.
  - cbn [plain_text forallb] in Hplain. apply andb_prop in Hplain as [Hc Hp].
    apply negb_true_iff in Hc.
    cbn [List.map formatDate_loop ToString]. rewrite Hc, _put_nothing. cbn [obind].
    rewrite (IH _ Hp). now rewrite <- app_assoc.
Qed.

(** X5: a pattern without any format letter comes back as it is, for every
    truthy input, a date object included (no getter is called on it),
    unless the pattern reads ["duration"] in some spelling, which is taken
    as the duration flag and not as a pattern. *)
Theorem formatDate_pattern_without_letters (dateObj third : value) (p : jsstring) :
  truthy dateObj = true ->
  p <> [] ->
  plain_text p = true ->
  streq (toLowerCase p) (js "duration") = false ->
  formatDate vis dateObj (VStr p) third = Ok (VStr p).
Proof.
  intros Hd Hne Hplain Hflag. unfold formatDate, duration_flag.
  rewrite Hflag, Hd. cbn [negb].
  assert (Hpattern : js_or (VStr p) (js_or (dateFormat vis) default_pattern) = VStr p).
  { unfold js_or at 1. destruct p; [contradiction | reflexivity]. }
  rewrite Hpattern.
  assert (Hshift : forall b d,
             date_of_input dateObj false = (b, d) ->
             exists d', shift_if b d = Ok d').
  { intros b d. unfold date_of_input.
    destruct (typeof dateObj);
      repeat match goal with
             | |- context [if ?c then _ else _] => destruct c
             end;
      intros [= <- <-]; cbn; eauto. }
  destruct (date_of_input dateObj false) as [b d] eqn:Hinput.
  destruct (Hshift b d eq_refl) as [d' Hd']. rewrite Hd'. cbn [obind].
  unfold render_date. cbn [indexed_items obind].
  now rewrite (formatDate_loop_plain p d' [] Hplain).
Qed.

(** X6: the text of a pattern is put together piece by piece: at every
    character that is not a format letter the pattern falls into two
    patterns that are rendered on their own, the character between them
    copied; an exception of the first piece or, after it, of the second is
    the exception of the whole. *)
Theorem render_text_splits_at_literal (dateObj : date_or_value)
    (p q : jsstring) (c : N) :
  includes [c] validFormatChars = false ->
  render_text dateObj (p ++ c :: q)
  = let! a := render_text dateObj p in
    let! b := render_text dateObj q in
    Ok (a ++ c :: b).
Proof.
  intros Hc. unfold render_text.
  enough (Hgen : forall s,
             formatDate_loop (List.map (fun c => VStr [c]) (p ++ c :: q)) dateObj s []
             = let! a := formatDate_loop (List.map (fun c => VStr [c]) p) dateObj s [] in
               let! b := formatDate_loop (List.map (fun c => VStr [c]) q) dateObj [] [] in
               Ok (a ++ c :: b)) by apply Hgen.
  induction p as [| x p IH]; intros s.
  - cbn [app List.map formatDate_loop ToString]. rewrite Hc.
    destruct (_put s dateObj []) as [r | e]; [| reflexivity].
    cbn [obind]. rewrite formatDate_loop_prefix.
    destruct (formatDate_loop _ dateObj [] []) as [b | e]; [| reflexivity].
    cbn [obind]. now rewrite <- app_assoc.
  - cbn [app List.map formatDate_loop ToString].
    destruct (includes [x] validFormatChars); [apply IH |].
    destruct (_put s dateObj []) as [r | e]; [| reflexivity].
    cbn [obind]. rewrite formatDate_loop_prefix, IH.
    rewrite (formatDate_loop_prefix _ dateObj [] ([] ++ r ++ [x])).
    destruct (formatDate_loop (List.map _ p) dateObj [] []) as [a | e]; [| reflexivity].
    cbn [obind].
    destruct (formatDate_loop (List.map _ q) dateObj [] []) as [b | e]; [| reflexivity].
    cbn [obind app]. now rewrite <- !app_assoc.
Qed.

End DatePatterns.

Section DatePatternsExample.
#[local] Existing Instance Example.host.

Lemma formatDate_pattern_without_letters_witness :
  formatDate Example.runtime (VNum 1690000000000%float) (VStr (js "n/a")) VUndefined
  = Ok (VStr (js "n/a")).
Proof.
  apply (formatDate_pattern_without_letters Example.runtime
           (VNum 1690000000000%float) VUndefined (js "n/a"));
    [reflexivity | discriminate | reflexivity | reflexivity].
Defined.

Lemma render_text_splits_at_literal_witness :
  render_text (BDate (Date_new (VNum 1690000000000%float))) (js "DD.MM")
  = Ok (js "22.07").
Proof.
  rewrite (render_text_splits_at_literal
             (BDate (Date_new (VNum 1690000000000%float))) (js "DD") (js "MM") 46
             eq_refl).
  reflexivity.
Defined.

End DatePatternsExample.

(** ** The substitution of a token *)

Ltac split_code c n :=
  first [ reflexivity
        | congruence
        | lazymatch n with
          | S ?n' => destruct c as [c | c |]; split_code c n'
          end ].

Lemma GetSubstitution_other (matched before after : jsstring)
    (caps : list (option jsstring)) (c : N) (tpl : jsstring) :
  c <> 36%N ->
  GetSubstitution matched before after caps (c :: tpl)
  = c :: GetSubstitution matched before after caps tpl.
Proof.
  intros Hc. destruct c as [| c]; [reflexivity |]. split_code c 6.
Qed.

Lemma GetSubstitution_without_dollar (matched before after : jsstring)
    (caps : list (option jsstring)) (tpl : jsstring) :
  occurrences 36 tpl = 0 ->
  GetSubstitution matched before after caps tpl = tpl.
Proof.
  induction tpl as [| c tpl IH]; intros Hcount; [reflexivity |].
  cbn [occurrences] in Hcount.
  destruct (N.eqb_spec c 36) as [-> | Hc]; [discriminate |].
  rewrite GetSubstitution_other by exact Hc. now rewrite IH.
Qed.

Lemma GetSubstitution_single (matched before after : jsstring)
    (caps : list (option jsstring)) (c : N) :
  GetSubstitution matched before after caps [c] = [c].
Proof.
  destruct (N.eqb_spec c 36) as [-> | Hc]; [reflexivity |].
  now rewrite GetSubstitution_other.
Qed.

Section Substitution.
Context `{Host}.
Variable vis : Vis.
Variable o : FormatBindingOptions.

(** X7: a binding without operations puts the text of its state in the
    place of the first occurrence of its token and leaves every later
    occurrence alone; the text is inserted as it stands when it holds no
    [$], and a template that does not contain the token is not changed. *)
Theorem token_replaced_once
    (format name token : jsstring) (oid v operations : value) (st : engine) :
  get_prop oid (js "visOid") = Ok (VStr name) ->
  name <> [] ->
  nullish (getSpecialValues vis (VStr name) (view o) (wid o) (widgetData o)) = true ->
  get_prop (js_or (values o) (states vis)) name = Ok v ->
  get_prop oid (js "operations") = Ok operations ->
  truthy operations = false ->
  get_prop oid (js "token") = Ok (VStr token) ->
  occurrences 36 (ToString v) = 0 ->
  exists result,
    format_oid vis o format oid st = (Ok result, st)
    /\ (index_of token format = None -> result = format)
    /\ (forall i, index_of token format = Some i ->
          result = take i format ++ ToString v ++ drop (i + length token) format).
Proof.
  intros HvisOid Hname Hspecial Hstate Hoperations Hnone Htoken Hplain.
  exists (replace_first token (ToString v) format). split; [| split].
  - unfold format_oid. unfold_monad. rewrite HvisOid.
    assert (Htruthy : truthy (VStr name) = true)
      by (destruct name; [contradiction | reflexivity]).
    rewrite Htruthy, Hspecial. cbn [ToString]. rewrite Hstate, Hoperations, Hnone.
    now rewrite Htoken.
  - intros Hnot. unfold replace_first. now rewrite Hnot.
  - intros i Hi. unfold replace_first. rewrite Hi. cbv zeta.
    now rewrite GetSubstitution_without_dollar.
Qed.

End Substitution.

Section SubstitutionExample.
#[local] Existing Instance Example.host.

Lemma token_replaced_once_witness :
  format_oid Example.runtime (Example.options_for "{a} and {a}") (js "{a} and {a}")
    (Example.binding "a" "{a}" VUndefined) new_engine
  = (Ok (js "1 and {a}"), new_engine).
Proof.
  destruct (token_replaced_once Example.runtime (Example.options_for "{a} and {a}")
              (js "{a} and {a}") (js "a.val") (js "{a}")
              (Example.binding "a" "{a}" VUndefined) (VStr (js "1")) VUndefined
              new_engine)
    as (result & Hrun & _ & Hfirst);
    [reflexivity | discriminate | reflexivity | reflexivity | reflexivity
    | reflexivity | reflexivity | reflexivity |].
  rewrite Hrun, (Hfirst 0 eq_refl). reflexivity.
Defined.

End SubstitutionExample.

(** ** The [eval] and [json] operators, and chains of operations *)

Section Chains.
Context `{Host}.
Variable vis : Vis.
Variable o : FormatBindingOptions.

Lemma eval_argument_script (a : value) (script : jsstring) (v1 v2 : value) :
  script_of (eval_argument vis o a (script, v1))
  = script_of (eval_argument vis o a (script, v2)).
Proof.
  unfold eval_argument.
  destruct (get_prop a (js "name")) as [name | e]; [| reflexivity].
  cbn [obind]. now destruct (negb (truthy name)).
Qed.

Lemma eval_arguments_script (args : list value) (script : jsstring) (v1 v2 : value) :
  script_of (eval_arguments vis o args (script, v1))
  = script_of (eval_arguments vis o args (script, v2)).
Proof.
  revert script v1 v2. induction args as [| a args IH]; intros script v1 v2.
  - reflexivity.
  - cbn [eval_arguments]. pose proof (eval_argument_script a script v1 v2) as Ha.
    destruct (eval_argument vis o a (script, v1)) as [[s1 x1] | e1];
      destruct (eval_argument vis o a (script, v2)) as [[s2 x2] | e2];
      cbn [script_of] in Ha; try discriminate.
    + injection Ha as ->. cbn [obind]. apply IH.
    + exact Ha.
Qed.

Lemma eval_script_script (operation v1 v2 : value) :
  script_of (eval_script vis o operation v1)
  = script_of (eval_script vis o operation v2).
Proof.
  unfold eval_script.
  destruct (get_prop operation (js "arg")) as [arg | e]; [| reflexivity].
  cbn [obind]. destruct (indexed_items arg) as [args | e]; [| reflexivity].
  cbn [obind]. pose proof (eval_arguments_script args [] v1 v2) as Hargs.
  destruct (eval_arguments vis o args ([], v1)) as [[s1 x1] | e1];
    destruct (eval_arguments vis o args ([], v2)) as [[s2 x2] | e2];
    cbn [script_of] in Hargs; try discriminate.
  - injection Hargs as ->. cbn [obind].
    destruct (get_prop operation (js "formula")) as [formula | e]; [| reflexivity].
    cbn [obind].
    match goal with
    | |- context [obind ?u _] => destruct u as [uses | e]; [| reflexivity]
    end.
    cbn [obind].
    match goal with
    | |- context [obind ?u _] => destruct u as [script | e]; reflexivity
    end.
  - exact Hargs.
Qed.

(** X8: [eval] does not look at the value that the binding or the
    operations before it have produced: its script is built from the
    states its arguments name, so the result, the log and every exception
    are the same for every incoming value. *)
Theorem eval_ignores_incoming_value
    (format : jsstring) (operation v1 v2 : value) (st : engine) :
  get_prop operation (js "op") = Ok (VStr (js "eval")) ->
  apply_operation vis o format operation v1 st
  = apply_operation vis o format operation v2 st.
Proof.
  intros Hop. unfold apply_operation. unfold_monad. rewrite Hop.
  destruct (get_prop operation (js "arg")) as [arg | e]; [| reflexivity].
  change (opkind_of (VStr (js "eval"))) with OpEval. cbv beta iota.
  pose proof (eval_script_script operation v1 v2) as Hscript.
  destruct (eval_script vis o operation v1) as [[s1 x1] | e1];
    destruct (eval_script vis o operation v2) as [[s2 x2] | e2];
    cbn [script_of] in Hscript; try discriminate.
  - now injection Hscript as ->.
  - now injection Hscript as ->.
Qed.

(** X9: a chain of operations is run from left to right, each operation
    on the value and the engine the one before it has left; an exception
    ends the chain where it is thrown.  Running two chains one after the
    other is running their concatenation. *)
Theorem run_operations_app
    (format : jsstring) (first second : list value) (val : value) (st : engine) :
  run_operations vis o format (first ++ second) val st
  = (do val' <- run_operations vis o format first val;
     run_operations vis o format second val') st.
Proof.
  revert val st. induction first as [| operation first IH]; intros val st.
  - reflexivity.
  - cbn [app run_operations]. unfold bind.
    destruct (apply_operation vis o format operation val st) as [[val' | e] st'].
    + rewrite IH. reflexivity.
    + reflexivity.
Qed.

(** X10: the [json] operator with a path given as a string.  It reads
    from the value itself or, for a non-empty string, from what the string
    parses to.  A non-empty string that is not JSON is kept as it is, with
    one warning that quotes it; an empty string is not parsed at all.  When
    what it reads from is an object or an array, and every step of the path
    reads a property of the value itself, the [length] or an element, or a
    name that plain objects do not inherit, the operator does not throw and
    the result is what [getObjPropValue] finds, [undefined] or truthy;
    anything else is passed on as it is. *)
Theorem json_with_path_never_throws
    (format path : jsstring) (operation val : value) (st : engine) :
  get_prop operation (js "op") = Ok (VStr (js "json")) ->
  get_prop operation (js "arg") = Ok (VStr path) ->
  (truthy (json_operand val) = true ->
   is_type TObject (json_operand val) = true ->
   own_walk (json_operand val) (split_on 46 path) = true) ->
  exists result st',
    apply_operation vis o format operation val st = (Ok result, st')
    /\ (forall s, val = VStr s -> s <> [] -> JSON_parse s = None ->
          result = val
          /\ st' = logged [(Warn, js "Cannot parse JSON string: " ++ s)] st)
    /\ (val = VStr [] -> result = val /\ st' = st)
    /\ (is_type TString val = false -> st' = st)
    /\ (truthy val = true -> is_type TObject val = true ->
          result = VUndefined \/ truthy result = true)
    /\ (truthy (json_operand val) = true ->
        is_type TObject (json_operand val) = true ->
        getObjPropValue (json_operand val) (VStr path) = Ok result
        /\ (result = VUndefined \/ truthy result = true))
    /\ (truthy (json_operand val) && is_type TObject (json_operand val) = false ->
        result = json_operand val).
Proof.
  intros Hop Harg _. unfold apply_operation. unfold_monad. rewrite Hop, Harg.
  change (opkind_of (VStr (js "json"))) with OpJson. cbv beta iota.
  assert (Hread : forall (obj : value) (st0 : engine),
             exists result,
               (if truthy obj && is_type TObject obj
                then fun st1 : engine => (getObjPropValue obj (VStr path), st1)
                else fun st1 : engine => (Ok obj, st1)) st0 = (Ok result, st0)
               /\ (truthy obj = true -> is_type TObject obj = true ->
                     getObjPropValue obj (VStr path) = Ok result
                     /\ (result = VUndefined \/ truthy result = true))
               /\ (truthy obj && is_type TObject obj = false -> result = obj)).
  { intros obj st0. destruct (truthy obj && is_type TObject obj) eqn:Hobj.
    - apply andb_prop in Hobj as [Htruthy _].
      unfold getObjPropValue. rewrite Htruthy. cbn [negb].
      destruct (getObjPropValue_walk_safe (split_on 46 path) obj Htruthy)
        as (result & -> & Hresult).
      exists result. split; [reflexivity |]. split; [auto | discriminate].
    - exists obj. split; [reflexivity |]. split; [| reflexivity].
      intros Ht Ho. rewrite Ht, Ho in Hobj. discriminate. }
  assert (Hplain : forall obj : value,
             json_operand val = obj ->
             (forall s, val = VStr s -> s = []) ->
             exists result st',
               (if truthy obj && is_type TObject obj
                then fun st1 : engine => (getObjPropValue obj (VStr path), st1)
                else fun st1 : engine => (Ok obj, st1)) st = (Ok result, st')
               /\ (forall s, val = VStr s -> s <> [] -> JSON_parse s = None ->
                     result = val
                     /\ st' = logged [(Warn, js "Cannot parse JSON string: " ++ s)] st)
               /\ (val = VStr [] -> result = val /\ st' = st)
               /\ (is_type TString val = false -> st' = st)
               /\ (truthy val = true -> is_type TObject val = true ->
                     result = VUndefined \/ truthy result = true)
               /\ (truthy (json_operand val) = true ->
                   is_type TObject (json_operand val) = true ->
                   getObjPropValue (json_operand val) (VStr path) = Ok result
                   /\ (result = VUndefined \/ truthy result = true))
               /\ (truthy (json_operand val) && is_type TObject (json_operand val)
                   = false -> result = json_operand val)).
  { intros obj Hoperand Hempty. rewrite Hoperand.
    destruct (Hread obj st) as (result & Hrun & Hobject & Hother).
    exists result, st. split; [exact Hrun |].
    split; [intros s Hs Hne; now rewrite (Hempty s Hs) in Hne |].
    assert (Hval : (forall s, val <> VStr s) -> obj = val).
    { intros Hnot. rewrite <- Hoperand. destruct val; try reflexivity.
      now destruct (Hnot s). }
    split.
    { intros ->. split; [| reflexivity]. cbn in Hoperand. subst obj.
      now apply Hother. }
    split; [reflexivity |]. split; [| split; [exact Hobject | exact Hother]].
    intros Htruthy Htype.
    assert (Hsame : obj = val)
      by (apply Hval; intros s ->; discriminate).
    rewrite Hsame in Hobject. now destruct (Hobject Htruthy Htype). }
  destruct val as [| | b | x | s | xs | ps];
    try (apply (Hplain _ eq_refl); intros s [=]).
  destruct s as [| c s].
  - apply (Hplain _ eq_refl). now intros s [= <-].
  - unfold json_operand.
    destruct (JSON_parse (c :: s)) as [parsed |] eqn:Hparse; cbn [default from_option id].
    + destruct (Hread parsed st) as (result & Hrun & Hobject & Hother).
      exists result, st. split; [exact Hrun |].
      split; [intros s' [= <-] _ Hnone; congruence |].
      split; [discriminate |]. split; [discriminate |].
      split; [discriminate |]. split; [exact Hobject | exact Hother].
    + exists (VStr (c :: s)), (logged [(Warn, js "Cannot parse JSON string: " ++ c :: s)] st).
      split; [reflexivity |].
      split; [intros s' [= <-] _ _; split; reflexivity |].
      split; [discriminate |]. split; [discriminate |].
      split; [discriminate |]. split; [discriminate | reflexivity].
Qed.

(** X11: the [json] operator without a path throws a [TypeError] as soon
    as there is an object to read from: a JSON text of an object or an
    array, or an object or array itself.  The missing path is not
    guarded. *)
Theorem json_without_path_throws_on_object
    (format : jsstring) (operation val arg obj : value) (st : engine) :
  get_prop operation (js "op") = Ok (VStr (js "json")) ->
  get_prop operation (js "arg") = Ok arg ->
  nullish arg = true ->
  (val = obj \/ exists s, val = VStr s /\ s <> [] /\ JSON_parse s = Some obj) ->
  truthy obj = true ->
  is_type TObject obj = true ->
  apply_operation vis o format operation val st
  = (Throw (cannot_read (js "split")), st).
Proof.
  intros Hop Harg Hnull Hval Htruthy Hobject.
  unfold apply_operation. unfold_monad. rewrite Hop, Harg.
  change (opkind_of (VStr (js "json"))) with OpJson. cbv beta iota.
  assert (Hread : (if truthy obj && is_type TObject obj
                   then fun st1 : engine => (getObjPropValue obj arg, st1)
                   else fun st1 : engine => (Ok obj, st1)) st
                  = (Throw (cannot_read (js "split")), st)).
  { rewrite Htruthy, Hobject. cbn [andb]. unfold getObjPropValue.
    rewrite Htruthy. cbn [negb]. destruct arg; try discriminate; reflexivity. }
  destruct Hval as [-> | (s & -> & Hs & Hparse)].
  - destruct obj; try discriminate; exact Hread.
  - destruct s as [| c s]; [contradiction |]. rewrite Hparse. exact Hread.
Qed.

End Chains.

Section ChainsExample.
#[local] Existing Instance Example.host.

Lemma eval_ignores_incoming_value_witness :
  apply_operation Example.runtime (Example.options_for "{a}") (js "{a}")
    Example.failing_eval (VStr (js "1")) new_engine
  = apply_operation Example.runtime (Example.options_for "{a}") (js "{a}")
      Example.failing_eval (VNum 7%float) new_engine.
Proof.
  apply (eval_ignores_incoming_value Example.runtime (Example.options_for "{a}")
           (js "{a}") Example.failing_eval (VStr (js "1")) (VNum 7%float)
           new_engine eq_refl).
Defined.

(** The text ["{oops"] is not JSON and is kept; in [{ x: { y: 5 } }] the
    path ["x.y"] finds 5. *)
Lemma json_with_path_never_throws_witness :
  (exists st',
     apply_operation Example.runtime (Example.options_for "{a}") (js "{a}")
       (operation_of "json" (VStr (js "x.y"))) (VStr (js "{oops")) new_engine
     = (Ok (VStr (js "{oops")), st'))
  /\ fst (apply_operation Example.runtime (Example.options_for "{a}") (js "{a}")
            (operation_of "json" (VStr (js "x.y")))
            (Example.vobj [("x", Example.vobj [("y", VNum 5%float)]%string)]%string)
            new_engine)
     = Ok (VNum 5%float).
Proof.
  split.
  - destruct (json_with_path_never_throws Example.runtime (Example.options_for "{a}")
                (js "{a}") (js "x.y") (operation_of "json" (VStr (js "x.y")))
                (VStr (js "{oops")) new_engine eq_refl eq_refl)
      as (result & st' & Hrun & Hkept & _).
    { discriminate. }
    destruct (Hkept (js "{oops") eq_refl ltac:(discriminate) ltac:(reflexivity))
      as [-> _].
    exists st'. exact Hrun.
  - destruct (json_with_path_never_throws Example.runtime (Example.options_for "{a}")
                (js "{a}") (js "x.y") (operation_of "json" (VStr (js "x.y")))
                (Example.vobj [("x", Example.vobj [("y", VNum 5%float)]%string)]%string)
                new_engine eq_refl eq_refl)
      as (result & st' & Hrun & _ & _ & _ & _ & Hobject & _).
    { reflexivity. }
    rewrite Hrun. destruct (Hobject eq_refl eq_refl) as [Hread _].
    cbn [fst]. rewrite <- Hread. reflexivity.
Defined.

Lemma json_without_path_throws_on_object_witness :
  apply_operation Example.runtime (Example.options_for "{a}") (js "{a}")
    (operation_of "json" VUndefined) (VArr [VNum 1%float]) new_engine
  = (Throw (cannot_read (js "split")), new_engine).
Proof.
  apply (json_without_path_throws_on_object Example.runtime
           (Example.options_for "{a}") (js "{a}")
           (operation_of "json" VUndefined) (VArr [VNum 1%float]) VUndefined
           (VArr [VNum 1%float]) new_engine);
    [reflexivity | reflexivity | reflexivity | left; reflexivity
    | reflexivity | reflexivity].
Defined.

End ChainsExample.

(** ** What the cache keeps *)

Section CacheGrows.
Context `{Host}.
Variable vis : Vis.

Lemma extractBinding_keeps_entries (template : jsstring) (st st' : engine)
    (result : outcome (option nat)) :
  extractBinding vis template st = (result, st') ->
  forall k r, bindingsCache st !! k = Some r -> bindingsCache st' !! k = Some r.
Proof.
  intros Hcall k r Hk.
  destruct template as [| c template'].
  { rewrite extractBinding_empty in Hcall. now injection Hcall as <- <-. }
  set (template := c :: template') in *.
  assert (Hne : template <> []) by easy.
  destruct (editMode vis) eqn:Hedit.
  - destruct (extractBinding_edit vis template st Hedit Hne)
      as (st1 & Hrun & Hcache & _).
    rewrite Hrun in Hcall. injection Hcall as <- <-. now rewrite Hcache.
  - destruct (bindingsCache st !! template) as [master |] eqn:Hlookup.
    + unfold extractBinding, template in Hcall. fold template in Hcall.
      unfold_monad. unfold cache_lookup, deref, alloc in Hcall.
      rewrite Hedit, Hlookup in Hcall.
      destruct (deepClone (default VUndefined (heap st !! master)));
        injection Hcall as <- <-; exact Hk.
    + destruct (inherited_property template) as [f |] eqn:Hin.
      { destruct (extractBinding_inherited vis template f st Hedit Hne Hlookup Hin)
          as (result1 & st1 & Hrun & Hcache & _).
        rewrite Hrun in Hcall. injection Hcall as <- <-. now rewrite Hcache. }
      assert (Hmiss : cache_miss st template) by (split; assumption).
      destruct (visUtils_extractBinding template) as [bs |] eqn:Hparse.
      * destruct (extractBinding_miss vis template bs st Hedit Hne Hmiss Hparse)
          as (st1 & Hrun & Hcache & _).
        rewrite Hrun in Hcall. injection Hcall as <- <-. rewrite Hcache.
        rewrite lookup_insert_ne; [exact Hk |]. intros <-. congruence.
      * rewrite (extractBinding_null_not_cached vis template st Hedit Hne Hmiss Hparse)
          in Hcall.
        now injection Hcall as <- <-.
Qed.

(** X12: the cache only grows.  Whatever template [extractBinding] is
    called with, in either mode and whether it returns, finds nothing or
    throws, every binding list that was cached before is cached after,
    under the same template and unchanged. *)
Theorem cache_entries_persist (template : jsstring) (st st' : engine)
    (result : outcome (option nat)) (k : jsstring) (bindings : value) :
  cache_wf st ->
  extractBinding vis template st = (result, st') ->
  cached_bindings st k = Some bindings ->
  cached_bindings st' k = Some bindings.
Proof.
  intros Hwf Hcall Hcached. unfold cached_bindings in *.
  destruct (bindingsCache st !! k) as [r |] eqn:Hk; [| discriminate].
  rewrite (extractBinding_keeps_entries template st st' result Hcall k r Hk).
  cbn in *. destruct (Hwf k r Hk) as [Hlt _].
  destruct (extractBinding_invariant vis template st st' result Hwf Hcall)
    as (_ & _ & _ & _ & Hheap).
  now rewrite Hheap.
Qed.

End CacheGrows.

Section CacheGrowsExample.
#[local] Existing Instance Example.host.

Lemma cache_entries_persist_witness :
  cached_bindings
    (snd (extractBinding Example.runtime (js "{a;min(10)}")
            (snd (extractBinding Example.runtime (js "{a}") new_engine))))
    (js "{a}")
  = Some (json_copy (VArr [Example.binding "a" "{a}" VUndefined])).
Proof.
  apply (cache_entries_persist Example.runtime (js "{a;min(10)}")
           (snd (extractBinding Example.runtime (js "{a}") new_engine))
           (snd (extractBinding Example.runtime (js "{a;min(10)}")
                   (snd (extractBinding Example.runtime (js "{a}") new_engine))))
           (fst (extractBinding Example.runtime (js "{a;min(10)}")
                   (snd (extractBinding Example.runtime (js "{a}") new_engine))))
           (js "{a}") (json_copy (VArr [Example.binding "a" "{a}" VUndefined]))).
  - destruct (extractBinding_invariant Example.runtime (js "{a}") new_engine
                (snd (extractBinding Example.runtime (js "{a}") new_engine))
                (fst (extractBinding Example.runtime (js "{a}") new_engine))
                new_engine_wf) as [Hwf _]; [| exact Hwf].
    now destruct (extractBinding Example.runtime (js "{a}") new_engine).
  - now destruct (extractBinding Example.runtime (js "{a;min(10)}") _).
  - vm_compute. reflexivity.
Defined.

End CacheGrowsExample.

(** ** The digits of a formatted value *)

Lemma starts_with_split (p s : jsstring) :
  starts_with p s = true -> s = p ++ drop (length p) s.
Proof.
  revert s. induction p as [| x p IH]; intros s Hs; [reflexivity |].
  destruct s as [| y s]; [discriminate |]. cbn in Hs.
  apply andb_prop in Hs as [Hxy Hrest]. apply N.eqb_eq in Hxy as ->.
  cbn. f_equal. now apply IH.
Qed.

Lemma index_of_split (p s : jsstring) (i : nat) :
  index_of p s = Some i -> s = take i s ++ p ++ drop (i + length p) s.
Proof.
  revert i. induction s as [| c s IH]; intros i Hi.
  - cbn in Hi. destruct (starts_with p []) eqn:Hp; [| discriminate].
    injection Hi as <-. now apply starts_with_split.
  - cbn [index_of] in Hi. destruct (starts_with p (c :: s)) eqn:Hp.
    + injection Hi as <-. now apply starts_with_split.
    + destruct (index_of p s) as [j |] eqn:Hj; [| discriminate].
      injection Hi as <-. cbn. f_equal. now apply IH.
Qed.

Lemma group_replace_from_digits (g : N) (done_ : jsstring) (prev : option N)
    (rest : jsstring) :
  is_digit g = false ->
  digits_of (group_replace_from [g] done_ prev rest) = digits_of rest.
Proof.
  intros Hg. unfold digits_of.
  revert done_ prev. induction rest as [| c rest IH]; intros done_ prev.
  - cbn [group_replace_from]. destruct (group_match prev []); [| reflexivity].
    rewrite GetSubstitution_single. cbn. now rewrite Hg.
  - cbn [group_replace_from]. rewrite List.filter_app. cbn [List.filter].
    rewrite IH.
    destruct (group_match prev (c :: rest)); [| reflexivity].
    rewrite GetSubstitution_single. cbn. now rewrite Hg.
Qed.

Lemma replace_first_digits (a b : N) (s : jsstring) :
  is_digit a = false ->
  is_digit b = false ->
  digits_of (replace_first [a] [b] s) = digits_of s.
Proof.
  intros Ha Hb. unfold replace_first.
  destruct (index_of [a] s) as [i |] eqn:Hi; [| reflexivity].
  cbv zeta. rewrite GetSubstitution_single.
  rewrite (index_of_split [a] s i Hi) at 3.
  unfold digits_of. rewrite !List.filter_app. cbn. now rewrite Ha, Hb.
Qed.

Section Digits.
Context `{Host}.

(** X13: with a decimal count and a pair of separators that are not
    digits, [formatValue] changes no digit: the digits of its result are
    those of the numeral with that many decimals, in the same order.  Only
    the decimal point is exchanged and group characters are put in. *)
Theorem formatValue_keeps_digits
    (val : value) (count : float) (group point : N) (more fixed : jsstring) :
  PrimFloat.is_nan (match val with VNum x => x | _ => parseFloat val end) = false ->
  toFixed (match val with VNum x => x | _ => parseFloat val end)
    (js_or (VNum count) (VNum 0%float)) = Ok fixed ->
  is_digit group = false ->
  is_digit point = false ->
  exists text,
    formatValue val (VNum count) (VStr (group :: point :: more)) = Ok (VStr text)
    /\ digits_of text = digits_of fixed.
Proof.
  intros Hnan Hfixed Hgroup Hpoint.
  exists (group_replace [group] (replace_first [group] [point] fixed)). split.
  - unfold formatValue. cbn [is_type typeof negb nullish].
    rewrite Hnan, Hfixed. reflexivity.
  - unfold group_replace. rewrite group_replace_from_digits by exact Hgroup.
    now apply replace_first_digits.
Qed.

End Digits.

Section DigitsExample.
#[local] Existing Instance Example.host.

Lemma formatValue_keeps_digits_witness :
  exists text,
    formatValue (VNum 1234567.5%float) (VNum 2%float) (VStr (js " ,")) = Ok (VStr text)
    /\ digits_of text = js "123456750".
Proof.
  destruct (formatValue_keeps_digits (VNum 1234567.5%float) 2%float 32 44 []
              (js "1234567.50"))
    as (text & Hrun & Hdigits);
    [reflexivity | reflexivity | reflexivity | reflexivity |].
  exists text. split; [exact Hrun |]. rewrite Hdigits. reflexivity.
Defined.

End DigitsExample.

(** ** Copies *)

Lemma value_nested_ind (P : value -> Prop) :
  P VUndefined -> P VNull -> (forall b, P (VBool b)) -> (forall x, P (VNum x)) ->
  (forall s, P (VStr s)) ->
  (forall xs, Forall P xs -> P (VArr xs)) ->
  (forall ps, Forall (fun p => P (snd p)) ps -> P (VObj ps)) ->
  forall v, P v.
Proof.
  intros HU HN HB HX HS HA HO. fix IH 1. intros [| | b | x | s | xs | ps].
  - exact HU.
  - exact HN.
  - apply HB.
  - apply HX.
  - apply HS.
  - apply HA. induction xs as [| v xs IHxs]; constructor; [apply IH | exact IHxs].
  - apply HO. induction ps as [| [k v] ps IHps]; constructor; [apply IH | exact IHps].
Qed.

Lemma json_copy_defined (v : value) : json_copy v <> VUndefined.
Proof.
  destruct v; cbn; try discriminate.
  repeat match goal with |- context [if ?b then _ else _] => destruct b end;
    discriminate.
Qed.

Lemma json_copy_object (ps : list (jsstring * value)) :
  exists qs, json_copy (VObj ps) = VObj qs.
Proof. eexists. reflexivity. Qed.

Lemma json_copy_property_skipped (k : jsstring) (ps : list (jsstring * value)) :
  json_copy (VObj ((k, VUndefined) :: ps)) = json_copy (VObj ps).
Proof. reflexivity. Qed.

Lemma json_copy_property_kept (k : jsstring) (x : value)
    (ps : list (jsstring * value)) :
  x <> VUndefined ->
  json_copy (VObj ((k, x) :: ps))
  = match json_copy (VObj ps) with
    | VObj qs => VObj ((k, json_copy x) :: qs)
    | other => other
    end.
Proof. intros Hx. destruct x; [contradiction | reflexivity ..]. Qed.

Lemma json_copy_idempotent (v : value) : json_copy (json_copy v) = json_copy v.
Proof.
  induction v as [| | b | x | s | xs IH | ps IH] using value_nested_ind;
    try reflexivity.
  - cbn [json_copy]. destruct (PrimFloat.is_finite x) eqn:Hfinite; [| reflexivity].
    destruct (PrimFloat.is_zero x) eqn:Hzero; [reflexivity |].
    cbn [json_copy]. now rewrite Hfinite, Hzero.
  - cbn [json_copy]. f_equal. rewrite List.map_map.
    induction IH as [| v xs Hv _ IHxs]; [reflexivity |].
    cbn. now rewrite Hv, IHxs.
  - induction IH as [| [k v] ps Hv _ IHps]; [reflexivity |].
    cbn [snd] in Hv.
    assert (Hcases : v = VUndefined \/ v <> VUndefined)
      by (destruct v; [left; reflexivity | right; discriminate ..]).
    destruct Hcases as [-> | Hdefined].
    + rewrite json_copy_property_skipped. exact IHps.
    + rewrite (json_copy_property_kept k v ps Hdefined).
      destruct (json_copy_object ps) as [qs Hqs]. rewrite Hqs in *.
      rewrite (json_copy_property_kept k (json_copy v) qs (json_copy_defined v)).
      now rewrite IHps, Hv.
Qed.

(** X14: [deepClone] is idempotent: a clone of a clone equals the clone,
    so cloning again what the cache hands out changes nothing.  The only
    argument it throws on is [undefined], and a clone is never
    [undefined]. *)
Theorem deepClone_idempotent (object clone : value) :
  deepClone object = Ok clone ->
  deepClone clone = Ok clone /\ clone <> VUndefined.
Proof.
  unfold deepClone. intros Hclone.
  assert (Hcopy : clone = json_copy object) by (destruct object; congruence).
  subst clone. split; [| apply json_copy_defined].
  pose proof (json_copy_defined object) as Hdefined.
  pose proof (json_copy_idempotent object) as Hagain.
  destruct (json_copy object); [contradiction | ..]; now rewrite Hagain.
Qed.

Lemma deepClone_idempotent_witness :
  deepClone (json_copy (VObj [(js "a", VUndefined); (js "b", VArr [VUndefined])]))
  = Ok (VObj [(js "b", VArr [VNull])]).
Proof.
  apply (deepClone_idempotent
           (VObj [(js "a", VUndefined); (js "b", VArr [VUndefined])])
           (VObj [(js "b", VArr [VNull])]) eq_refl).
Defined.

(** ** Templates with an empty binding list *)

Lemma index_of_none_starts_with (p : jsstring) (c : N) (s : jsstring) :
  index_of p (c :: s) = None -> starts_with p (c :: s) = false /\ index_of p s = None.
Proof.
  cbn [index_of]. destruct (starts_with p (c :: s)); [discriminate |].
  destruct (index_of p s); [discriminate | auto].
Qed.

Lemma replace_all_absent (p r s : jsstring) :
  includes p s = false -> replace_all p r s = s.
Proof.
  unfold includes, replace_all. intros Hs.
  destruct (index_of p s) eqn:Hnone; [discriminate |]. clear Hs.
  induction s as [| c s IH]; [reflexivity |].
  apply index_of_none_starts_with in Hnone as [Hhere Hlater].
  cbn [replace_all_from]. rewrite Hhere. f_equal. now apply IH.
Qed.

Lemma starts_with_length (p s : jsstring) :
  starts_with p s = true -> length p <= length s.
Proof.
  revert s. induction p as [| x p IH]; intros s Hs; [cbn; lia |].
  destruct s as [| y s]; [discriminate |]. cbn in Hs.
  apply andb_prop in Hs as [_ Hs]. apply IH in Hs. cbn. lia.
Qed.

Lemma replace_all_from_length (p r : jsstring) (k : nat) (s : jsstring) :
  length r <= length p ->
  length (replace_all_from p r k s) + Nat.min k (length s) <= length s.
Proof.
  intros Hr. revert k. induction s as [| c s IH]; intros k.
  - cbn. lia.
  - cbn [replace_all_from]. destruct k as [| k].
    + destruct (starts_with p (c :: s)) eqn:Hhere.
      * apply starts_with_length in Hhere. cbn [length] in *.
        rewrite length_app. specialize (IH (length p - 1)). lia.
      * specialize (IH 0). cbn [length] in *. lia.
    + specialize (IH k). cbn [length]. lia.
Qed.

Lemma unescape_braces_length (s : jsstring) :
  length (unescape_braces s) <= length s.
Proof.
  unfold unescape_braces, replace_all.
  pose proof (replace_all_from_length (js "{{") (js "{") 0 s
                ltac:(cbn; lia)) as Hopen.
  pose proof (replace_all_from_length (js "}}") (js "}") 0
                (replace_all_from (js "{{") (js "{") 0 s)
                ltac:(cbn; lia)) as Hclose.
  lia.
Qed.

Lemma unescape_braces_plain (s : jsstring) :
  includes (js "{{") s = false ->
  includes (js "}}") s = false ->
  unescape_braces s = s.
Proof.
  intros Hopen Hclose. unfold unescape_braces.
  rewrite (replace_all_absent (js "{{") (js "{") s Hopen).
  now apply replace_all_absent.
Qed.

Section NoTokens.
Context `{Host}.
Variable vis : Vis.
Variable o : FormatBindingOptions.

(** X15: a template in which the token parser finds no binding (an empty
    list, not [null]) is answered with the template itself, its doubled
    braces undone: the answer is never longer than the template, it is
    the template unchanged when no brace is doubled, and nothing is
    logged. *)
Theorem formatBinding_without_bindings (st : engine) :
  VisFormatUtils.format o <> [] ->
  visUtils_extractBinding (VisFormatUtils.format o) = Some [] ->
  editMode vis = true \/ cache_miss st (VisFormatUtils.format o) ->
  exists text st',
    formatBinding vis o st = (Ok text, st')
    /\ text = unescape_braces (VisFormatUtils.format o)
    /\ length text <= length (VisFormatUtils.format o)
    /\ (includes (js "{{") (VisFormatUtils.format o) = false ->
        includes (js "}}") (VisFormatUtils.format o) = false ->
        text = VisFormatUtils.format o)
    /\ console st' = console st.
Proof.
  intros Hne Hparse Hmiss.
  exists (unescape_braces (VisFormatUtils.format o)).
  assert (Hrun : exists st',
             formatBinding vis o st
             = (Ok (unescape_braces (VisFormatUtils.format o)), st')
             /\ console st' = console st).
  { unfold formatBinding, extractBinding.
    destruct (VisFormatUtils.format o) as [| c template'] eqn:Hformat;
      [contradiction |].
    unfold_monad. unfold cache_lookup, call_parser, alloc, cache_store, deref.
    destruct (editMode vis) eqn:Hedit.
    - rewrite Hparse. cbn. rewrite lookup_insert_eq. cbn. eauto.
    - destruct Hmiss as [Hedit' | [Hmiss Hown]]; [discriminate |].
      rewrite Hmiss, Hown, Hparse. cbn.
      rewrite lookup_insert_ne by lia. rewrite lookup_insert_eq. cbn. eauto. }
  destruct Hrun as (st' & Hrun & Hconsole). exists st'.
  split; [exact Hrun |]. split; [reflexivity |].
  split; [apply unescape_braces_length |].
  split; [apply unescape_braces_plain | exact Hconsole].
Qed.

End NoTokens.

Section NoTokensExample.
#[local] Existing Instance Example.host.

Lemma formatBinding_without_bindings_witness :
  fst (formatBinding Example.runtime (Example.options_for "no tokens, empty list")
         new_engine)
  = Ok (js "no tokens, empty list").
Proof.
  destruct (formatBinding_without_bindings Example.runtime
              (Example.options_for "no tokens, empty list") new_engine)
    as (text & st' & Hrun & _ & _ & Hplain & _);
    [discriminate | reflexivity | right; split; reflexivity |].
  rewrite Hrun. cbn [fst]. f_equal. apply Hplain; reflexivity.
Defined.

End NoTokensExample.

(** ** Weekday words *)

Lemma starts_with_shorter (p q s : jsstring) :
  starts_with (p ++ q) s = true -> starts_with p s = true.
Proof.
  revert s. induction p as [| x p IH]; intros s Hs; [reflexivity |].
  destruct s as [| y s]; [discriminate |]. cbn in *.
  apply andb_prop in Hs as [Hxy Hs]. rewrite Hxy. cbn. now apply IH.
Qed.

Lemma index_of_longer (p q s : jsstring) :
  index_of p s = None -> index_of (p ++ q) s = None.
Proof.
  induction s as [| c s IH]; intros Hnone.
  - cbn in *. destruct (starts_with p []) eqn:Hp; [discriminate |].
    destruct (starts_with (p ++ q) []) eqn:Hpq; [| reflexivity].
    apply starts_with_shorter in Hpq. congruence.
  - apply index_of_none_starts_with in Hnone as [Hhere Hlater].
    cbn [index_of].
    destruct (starts_with (p ++ q) (c :: s)) eqn:Hpq.
    + apply starts_with_shorter in Hpq. congruence.
    + now rewrite (IH Hlater).
Qed.

Lemma weekday_subst_without_token (w pattern : jsstring) :
  includes (js "dd") pattern = false -> weekday_subst w pattern = pattern.
Proof.
  unfold includes. intros Hdd.
  destruct (index_of (js "dd") pattern) eqn:Hnone; [discriminate |].
  pose proof (index_of_longer (js "dd") (js "dd") pattern Hnone) as Hdddd.
  pose proof (index_of_longer (js "dd") (js "d") pattern Hnone) as Hddd.
  change (js "dd" ++ js "dd") with (js "dddd") in Hdddd.
  change (js "dd" ++ js "d") with (js "ddd") in Hddd.
  unfold weekday_subst.
  unfold replace_first at 3. rewrite Hdddd.
  unfold replace_first at 2. rewrite Hddd.
  unfold replace_first. now rewrite Hnone.
Qed.

Section WeekdayWords.
Context `{Host}.
Variable vis : Vis.
Variable lib : MomentLib.

(** X16: for an instant of today or of the day before, a pattern without
    the weekday token (no [dd]) is rendered the same with and without the
    today-or-yesterday flag: the words for today and yesterday only ever
    take the place of a weekday token. *)
Theorem weekday_words_need_a_weekday_token
    (dateObj flag : value) (pattern : jsstring) (m : Moment) :
  truthy dateObj = true ->
  truthy flag = true ->
  moment_of_input dateObj (Some lib) = Ok (AMoment m) ->
  moment_isSame_day lib m (moment_now lib) = true
  \/ moment_isSame_day lib m (moment_subtract_day lib (moment_now lib)) = true ->
  pattern <> [] ->
  includes (js "dd") pattern = false ->
  formatMomentDate vis dateObj (VStr pattern) flag (Some lib)
  = formatMomentDate vis dateObj (VStr pattern) (VBool false) (Some lib).
Proof.
  intros Hd Hflag Hm Hday Hpattern Hdd. unfold formatMomentDate.
  rewrite Hd, Hm. cbn [negb obind is_undefined truthy].
  assert (Hkept : truthy (if negb (is_undefined flag) then flag else VBool false) = true)
    by (destruct flag; try discriminate; exact Hflag).
  rewrite Hkept. cbn [need_moment moment_call].
  assert (Hjs : js_or (VStr pattern) (js_or (dateFormat vis) default_pattern)
                = VStr pattern)
    by (destruct pattern; [contradiction | reflexivity]).
  rewrite Hjs. cbn [pattern_text obind].
  rewrite !weekday_subst_without_token by exact Hdd.
  destruct (moment_isSame_day lib m (moment_subtract_day lib (moment_now lib))).
  - now destruct (moment_isSame_day lib m (moment_now lib)).
  - destruct Hday as [Htoday | Hyesterday]; [| discriminate].
    now rewrite Htoday.
Qed.

End WeekdayWords.

Section WeekdayWordsExample.
#[local] Existing Instance Example.host.

Lemma weekday_words_need_a_weekday_token_witness :
  formatMomentDate Example.runtime (VNum 1700000000000%float) (VStr (js "DD.MM.YYYY"))
    (VBool true) (Some Example.lib)
  = formatMomentDate Example.runtime (VNum 1700000000000%float)
      (VStr (js "DD.MM.YYYY")) (VBool false) (Some Example.lib).
Proof.
  apply (weekday_words_need_a_weekday_token Example.runtime Example.lib
           (VNum 1700000000000%float) (VBool true) (js "DD.MM.YYYY")
           (Some 1700000000000%Z));
    [reflexivity | reflexivity | reflexivity | left; reflexivity
    | discriminate | reflexivity].
Defined.

End WeekdayWordsExample.

(** ** The decimal count of [formatValue] *)

Lemma replace_first_itself (p s : jsstring) :
  occurrences 36 p = 0 -> replace_first p p s = s.
Proof.
  intros Hp. unfold replace_first.
  destruct (index_of p s) as [i |] eqn:Hi; [| reflexivity].
  cbv zeta. rewrite GetSubstitution_without_dollar by exact Hp.
  symmetry. now apply index_of_split.
Qed.

Section DecimalCount.
Context `{Host}.
Variable vis : Vis.
Variable o : FormatBindingOptions.

(** X17: the [value] operator without a count, or with one that is not a
    numeral, formats with no decimals at all: the count it hands over is
    NaN, which is a number, so the two decimals that [formatValue] has as
    its default are never reached through the operator. *)
Theorem value_without_count_has_no_decimals
    (format : jsstring) (operation val arg : value) (st : engine) :
  get_prop operation (js "op") = Ok (VStr (js "value")) ->
  get_prop operation (js "arg") = Ok arg ->
  PrimFloat.is_nan (parseInt arg) = true ->
  apply_operation vis o format operation val st
  = (formatValue val (VNum 0%float) VUndefined, st).
Proof.
  intros Hop Harg Hnan. unfold apply_operation. unfold_monad. rewrite Hop, Harg.
  change (opkind_of (VStr (js "value"))) with OpValue. cbv beta iota.
  unfold formatValue. cbn [is_type typeof negb nullish].
  assert (Hcount : js_or (VNum (parseInt arg)) (VNum 0%float) = VNum 0%float).
  { unfold js_or. cbn [truthy]. rewrite Hnan. now rewrite orb_true_r. }
  rewrite Hcount. reflexivity.
Qed.

(** X18: a call of [formatValue] whose second argument is not a number,
    the older form with the separators in second place, loses the
    separators: they are overwritten by the default count before they are
    read.  The value is formatted with two decimals, its decimal point is
    kept, and the text [undefined] is put between the groups of three
    digits. *)
Theorem formatValue_separators_in_second_place_are_lost
    (x : float) (decimals _format : value) (fixed : jsstring) :
  is_type TNumber decimals = false ->
  PrimFloat.is_nan x = false ->
  toFixed x (VNum 2%float) = Ok fixed ->
  formatValue (VNum x) decimals _format
  = Ok (VStr (group_replace (js "undefined") fixed)).
Proof.
  intros Hdecimals Hnan Hfixed. unfold formatValue. rewrite Hdecimals.
  cbn [negb nullish]. rewrite Hnan.
  change (js_or (VNum 2%float) (VNum 0%float)) with (VNum 2%float).
  rewrite Hfixed. cbn [obind get_item get_prop ToString].
  now rewrite replace_first_itself.
Qed.

End DecimalCount.

Section DecimalCountExample.
#[local] Existing Instance Example.host.

Lemma value_without_count_has_no_decimals_witness :
  apply_operation Example.runtime (Example.options_for "{a}") (js "{a}")
    (operation_of "value" VUndefined) (VNum 1234.5%float) new_engine
  = (Ok (VStr (js "1.235")), new_engine).
Proof.
  rewrite (value_without_count_has_no_decimals Example.runtime
             (Example.options_for "{a}") (js "{a}")
             (operation_of "value" VUndefined) (VNum 1234.5%float) VUndefined
             new_engine eq_refl eq_refl eq_refl).
  reflexivity.
Defined.

Lemma formatValue_separators_in_second_place_are_lost_witness :
  formatValue (VNum 1234.5%float) (VStr (js ",.")) VUndefined
  = Ok (VStr (js "1undefined234.50")).
Proof.
  rewrite (formatValue_separators_in_second_place_are_lost 1234.5%float
             (VStr (js ",.")) VUndefined (js "1234.50") eq_refl eq_refl eq_refl).
  reflexivity.
Defined.

End DecimalCountExample.

(** ** Runs of format letters that are no token *)

Section UnknownTokens.
Context `{Host}.
Variable vis : Vis.

Lemma formatDate_loop_letters (p s : jsstring) (dateObj : date_or_value)
    (result : jsstring) :
  letters_only p = true ->
  formatDate_loop (List.map (fun c => VStr [c]) p) dateObj s result
  = _put (s ++ p) dateObj result.
Proof.
  revert s. induction p as [| c p IH]; intros s Hletters.
  - cbn [List.map formatDate_loop]. now rewrite app_nil_r.
  - cbn [letters_only forallb] in Hletters. apply andb_prop in Hletters as [Hc Hp].
    cbn [List.map formatDate_loop ToString]. rewrite Hc, (IH _ Hp).
    now rewrite <- app_assoc.
Qed.

Lemma _put_unknown (s : jsstring) (dateObj : date_or_value) (result : jsstring) :
  one_of s known_tokens = false -> _put s dateObj result = Ok result.
Proof.
  unfold one_of, known_tokens. rewrite !existsb_app, !orb_false_iff.
  intros (Hyear & Hmonth & Hday & Hhour & Hminute & Hsecond & Hms).
  unfold year_tokens, month_tokens, day_tokens, hour_tokens, minute_tokens,
    second_tokens, millisecond_tokens in *.
  unfold _put, one_of.
  rewrite Hyear, Hmonth, Hday, Hhour, Hminute, Hsecond, Hms.
  cbn [obind ToString]. now rewrite app_nil_r.
Qed.

(** X27: a run of format letters that [_put] has no case for is rendered
    as nothing: it is neither filled in nor copied.  The Cyrillic token
    for seconds is such a run: the alphabet of format letters holds the
    Cyrillic letter, and the cases of [_put] for seconds spell it with the
    Latin one. *)
Theorem formatDate_unknown_run_renders_nothing
    (dateObj third : value) (p : jsstring) :
  truthy dateObj = true ->
  p <> [] ->
  letters_only p = true ->
  one_of p known_tokens = false ->
  streq (toLowerCase p) (js "duration") = false ->
  formatDate vis dateObj (VStr p) third = Ok (VStr [])
  /\ letters_only [cyr_es; cyr_es] = true
  /\ one_of [cyr_es; cyr_es] known_tokens = false.
Proof.
  intros Hd Hne Hletters Hunknown Hflag.
  split; [| split; reflexivity].
  unfold formatDate, duration_flag.
  rewrite Hflag, Hd. cbn [negb].
  assert (Hpattern : js_or (VStr p) (js_or (dateFormat vis) default_pattern) = VStr p).
  { unfold js_or at 1. destruct p; [contradiction | reflexivity]. }
  rewrite Hpattern.
  assert (Hshift : forall b d,
             date_of_input dateObj false = (b, d) ->
             exists d', shift_if b d = Ok d').
  { intros b d. unfold date_of_input.
    destruct (typeof dateObj);
      repeat match goal with
             | |- context [if ?c then _ else _] => destruct c
             end;
      intros [= <- <-]; cbn; eauto. }
  destruct (date_of_input dateObj false) as [b d] eqn:Hinput.
  destruct (Hshift b d eq_refl) as [d' Hd']. rewrite Hd'. cbn [obind].
  unfold render_date. cbn [indexed_items obind].
  rewrite (formatDate_loop_letters p [] d' [] Hletters). cbn [app].
  now rewrite (_put_unknown p d' [] Hunknown).
Qed.

End UnknownTokens.

Section UnknownTokensExample.
#[local] Existing Instance Example.host.

Lemma formatDate_unknown_run_renders_nothing_witness :
  formatDate Example.runtime (VNum 1690000000000%float) (VStr [cyr_es; cyr_es])
    VUndefined
  = Ok (VStr []).
Proof.
  apply (formatDate_unknown_run_renders_nothing Example.runtime
           (VNum 1690000000000%float) VUndefined [cyr_es; cyr_es]);
    [reflexivity | discriminate | reflexivity | reflexivity | reflexivity].
Defined.

End UnknownTokensExample.


(** * The project helpers *)

(** ** Natural numbers as Numbers

    Below [2^53] the Numbers that count widgets are exact: the datum of a
    natural number is its binary expansion, comparison is the order of the
    natural numbers and addition is their sum. *)

Lemma shifted_value (p : positive) (n : nat) :
  Z.pos (shifted p n) = (Z.pos p * 2 ^ Z.of_nat n)%Z.
Proof.
  induction n as [| n IH]; [cbn; lia |].
  change (shifted p (S n)) with (xO (shifted p n)).
  change (Z.pos (shifted p n)~0) with (2 * Z.pos (shifted p n))%Z.
  rewrite IH, Nat2Z.inj_succ, Z.pow_succ_r by lia. lia.
Qed.

Lemma shifted_digits (p : positive) (n : nat) :
  Z.pos (digits2_pos (shifted p n)) = (Z.pos (digits2_pos p) + Z.of_nat n)%Z.
Proof.
  induction n as [| n IH]; [cbn; lia |].
  change (shifted p (S n)) with (xO (shifted p n)). cbn [digits2_pos].
  rewrite Pos2Z.inj_succ, IH. lia.
Qed.

Lemma shifted_add (p : positive) (n k : nat) :
  shifted (shifted p n) k = shifted p (n + k).
Proof.
  unfold shifted. rewrite Nat.add_comm. now rewrite Nat.iter_add.
Qed.

Lemma pos_iter_shifted (p j : positive) :
  Pos.iter xO p j = shifted p (Pos.to_nat j).
Proof. unfold shifted. now rewrite Pos2Nat.inj_iter. Qed.

Lemma digits2_bounds (p : positive) :
  (2 ^ (Z.pos (digits2_pos p) - 1) <= Z.pos p < 2 ^ Z.pos (digits2_pos p))%Z.
Proof.
  induction p as [p IH | p IH |]; cbn [digits2_pos].
  - rewrite Pos2Z.inj_succ. change (Z.pos p~1) with (2 * Z.pos p + 1)%Z.
    replace (Z.succ (Z.pos (digits2_pos p)) - 1)%Z
      with (Z.succ (Z.pos (digits2_pos p) - 1)) by lia.
    rewrite !Z.pow_succ_r by lia.
    destruct IH as [Hlow Hhigh].
    generalize dependent (2 ^ (Z.pos (digits2_pos p) - 1))%Z.
    generalize dependent (2 ^ Z.pos (digits2_pos p))%Z. intros; lia.
  - rewrite Pos2Z.inj_succ. change (Z.pos p~0) with (2 * Z.pos p)%Z.
    replace (Z.succ (Z.pos (digits2_pos p)) - 1)%Z
      with (Z.succ (Z.pos (digits2_pos p) - 1)) by lia.
    rewrite !Z.pow_succ_r by lia.
    destruct IH as [Hlow Hhigh].
    generalize dependent (2 ^ (Z.pos (digits2_pos p) - 1))%Z.
    generalize dependent (2 ^ Z.pos (digits2_pos p))%Z. intros; lia.
  - cbn. lia.
Qed.

Lemma digits2_le_53 (p : positive) :
  (Z.pos p < 2 ^ 53)%Z -> (Z.pos (digits2_pos p) <= 53)%Z.
Proof.
  intros Hp. destruct (Z.le_gt_cases (Z.pos (digits2_pos p)) 53) as [H | H]; [exact H |].
  pose proof (digits2_bounds p) as [Hlow _].
  assert (2 ^ 53 <= 2 ^ (Z.pos (digits2_pos p) - 1))%Z
    by (apply Z.pow_le_mono_r; lia).
  lia.
Qed.

Lemma iter_pos_nat {A} (f : A -> A) (n : positive) (x : A) :
  SpecFloat.iter_pos f n x = Nat.iter (Pos.to_nat n) f x.
Proof.
  revert x. induction n as [n IH | n IH |]; intros x; cbn [SpecFloat.iter_pos].
  - rewrite !IH, Pos2Nat.inj_xI.
    replace (S (2 * Pos.to_nat n)) with (Pos.to_nat n + (Pos.to_nat n + 1)) by lia.
    rewrite !Nat.iter_add. reflexivity.
  - rewrite !IH, Pos2Nat.inj_xO.
    replace (2 * Pos.to_nat n) with (Pos.to_nat n + Pos.to_nat n) by lia.
    now rewrite Nat.iter_add.
  - reflexivity.
Qed.

Lemma shr_1_exact (q : positive) :
  shr_1 {| shr_m := Z.pos (xO q); shr_r := false; shr_s := false |}
  = {| shr_m := Z.pos q; shr_r := false; shr_s := false |}.
Proof. reflexivity. Qed.

Lemma shr_exact (p : positive) (n j : nat) :
  j <= n ->
  Nat.iter j shr_1 {| shr_m := Z.pos (shifted p n); shr_r := false; shr_s := false |}
  = {| shr_m := Z.pos (shifted p (n - j)); shr_r := false; shr_s := false |}.
Proof.
  induction j as [| j IH]; intros Hj.
  - now rewrite Nat.sub_0_r.
  - rewrite Nat.iter_succ, IH by lia.
    replace (n - j) with (S (n - S j)) by lia. reflexivity.
Qed.

Lemma fexp_small (d : Z) :
  (1 <= d <= 53)%Z -> fexp prec emax d = (d - 53)%Z.
Proof. intros Hd. unfold fexp, emin, prec, emax. lia. Qed.

(** Rounding a mantissa that holds an integer below [2^53] gives the
    datum of that integer. *)
Lemma binary_round_integer (p : positive) (k : nat) :
  (Z.pos p < 2 ^ 53)%Z ->
  binary_round prec emax false (shifted p k) (- Z.of_nat k) = integer_datum p.
Proof.
  intros Hp. pose proof (digits2_le_53 p Hp) as Hd.
  set (d := digits2_pos p) in *.
  assert (Hd1 : (1 <= Z.pos d)%Z) by lia.
  unfold binary_round.
  rewrite shifted_digits. fold d.
  replace (Z.pos d + Z.of_nat k + - Z.of_nat k)%Z with (Z.pos d) by lia.
  rewrite fexp_small by lia.
  assert (Haligned :
            shl_align (shifted p k) (- Z.of_nat k) (Z.pos d - 53)
            = (shifted p (Nat.max k (53 - Pos.to_nat d)),
               (- Z.of_nat (Nat.max k (53 - Pos.to_nat d)))%Z)).
  { unfold shl_align.
    destruct (Z.pos d - 53 - - Z.of_nat k)%Z as [| j | j] eqn:Hj.
    - f_equal; [f_equal |]; lia.
    - f_equal; [f_equal |]; lia.
    - rewrite pos_iter_shifted, shifted_add. f_equal; [f_equal |]; lia. }
  rewrite Haligned. clear Haligned.
  remember (Nat.max k (53 - Pos.to_nat d)) as n eqn:Hmax.
  assert (Hn : 53 - Pos.to_nat d <= n) by lia. clear Hmax.
  unfold binary_round_aux.
  assert (Hfirst :
            shr_fexp prec emax (Z.pos (shifted p n)) (- Z.of_nat n) loc_Exact
            = ({| shr_m := Z.pos (shifted p (53 - Pos.to_nat d));
                  shr_r := false; shr_s := false |}, (Z.pos d - 53)%Z)).
  { unfold shr_fexp. cbn [Zdigits2 shr_record_of_loc].
    rewrite shifted_digits. fold d.
    replace (Z.pos d + Z.of_nat n + - Z.of_nat n)%Z with (Z.pos d) by lia.
    rewrite fexp_small by lia. unfold shr.
    destruct (Z.pos d - 53 - - Z.of_nat n)%Z as [| j | j] eqn:Hj.
    - replace n with (53 - Pos.to_nat d) by lia.
      f_equal. lia.
    - rewrite iter_pos_nat, shr_exact by lia.
      replace (n - Pos.to_nat j) with (53 - Pos.to_nat d) by lia.
      f_equal. lia.
    - lia. }
  rewrite Hfirst. cbn [shr_m loc_of_shr_record round_nearest_even].
  assert (Hsecond :
            shr_fexp prec emax (Z.pos (shifted p (53 - Pos.to_nat d))) (Z.pos d - 53)
              loc_Exact
            = ({| shr_m := Z.pos (shifted p (53 - Pos.to_nat d));
                  shr_r := false; shr_s := false |}, (Z.pos d - 53)%Z)).
  { unfold shr_fexp. cbn [Zdigits2 shr_record_of_loc].
    rewrite shifted_digits. fold d.
    replace (Z.pos d + Z.of_nat (53 - Pos.to_nat d) + (Z.pos d - 53))%Z
      with (Z.pos d) by lia.
    rewrite fexp_small by lia. unfold shr.
    now replace (Z.pos d - 53 - (Z.pos d - 53))%Z with 0%Z by lia. }
  rewrite Hsecond. cbn [shr_m].
  unfold integer_datum. fold d.
  destruct (Z.pos d - 53 <=? emax - prec)%Z eqn:Hle; [reflexivity |].
  apply Z.leb_gt in Hle. unfold emax, prec in Hle. lia.
Qed.

Lemma integer_datum_valid (p : positive) :
  (Z.pos p < 2 ^ 53)%Z -> valid_binary prec emax (integer_datum p) = true.
Proof.
  intros Hp. pose proof (digits2_le_53 p Hp) as Hd.
  unfold integer_datum, valid_binary, bounded, canonical_mantissa.
  rewrite shifted_digits.
  replace (Z.pos (digits2_pos p) + Z.of_nat (53 - Pos.to_nat (digits2_pos p))
           + (Z.pos (digits2_pos p) - 53))%Z
    with (Z.pos (digits2_pos p)) by lia.
  rewrite fexp_small by lia. rewrite Z.eqb_refl. cbn [andb].
  apply Z.leb_le. unfold emax, prec. lia.
Qed.

Lemma N_to_double_datum (p : positive) :
  (Z.pos p < 2 ^ 53)%Z -> Prim2SF (N_to_double (Npos p)) = integer_datum p.
Proof.
  intros Hp. unfold N_to_double. cbn [Z.of_N binary_normalize].
  change (binary_round prec emax false p 0)
    with (binary_round prec emax false (shifted p 0) (- Z.of_nat 0)).
  rewrite (binary_round_integer p 0 Hp).
  apply FloatAxioms.Prim2SF_SF2Prim. now apply integer_datum_valid.
Qed.

Lemma N_to_double_zero : Prim2SF (N_to_double 0) = S754_zero false.
Proof. reflexivity. Qed.

Lemma N_to_double_one : 1%float = N_to_double 1.
Proof. reflexivity. Qed.

Lemma N_to_double_none : 0%float = N_to_double 0.
Proof. reflexivity. Qed.

Lemma N_bound_Z (p : positive) : (Npos p < 2 ^ 53)%N -> (Z.pos p < 2 ^ 53)%Z.
Proof.
  intros Hp. change (Z.pos p) with (Z.of_N (Npos p)).
  change (2 ^ 53)%Z with (Z.of_N (2 ^ 53)). lia.
Qed.

(** The datum of a natural number below [2^53]. *)
Lemma Prim2SF_N_to_double (n : N) :
  (n < 2 ^ 53)%N ->
  Prim2SF (N_to_double n)
  = match n with
    | N0 => S754_zero false
    | Npos p => integer_datum p
    end.
Proof.
  intros Hn. destruct n as [| p]; [exact N_to_double_zero |].
  apply N_to_double_datum. now apply N_bound_Z.
Qed.

#[local] Opaque N_to_double.

Lemma shifted_compare (a b : positive) (n : nat) :
  Pos.compare_cont Eq (shifted a n) (shifted b n) = Pos.compare a b.
Proof.
  induction n as [| n IH]; [reflexivity |].
  change (shifted a (S n)) with (xO (shifted a n)).
  change (shifted b (S n)) with (xO (shifted b n)). exact IH.
Qed.

(** The order of the data is the order of the integers. *)
Lemma integer_datum_compare (a b : positive) :
  (Z.pos a < 2 ^ 53)%Z ->
  (Z.pos b < 2 ^ 53)%Z ->
  SFcompare (integer_datum a) (integer_datum b) = Some (Pos.compare a b).
Proof.
  intros Ha Hb.
  pose proof (digits2_le_53 a Ha) as Hda. pose proof (digits2_le_53 b Hb) as Hdb.
  pose proof (digits2_bounds a) as [Halow Hahigh].
  pose proof (digits2_bounds b) as [Hblow Hbhigh].
  unfold integer_datum, SFcompare. f_equal.
  destruct (Z.compare_spec (Z.pos (digits2_pos a) - 53) (Z.pos (digits2_pos b) - 53))
    as [Heq | Hlt | Hgt].
  - assert (Hd : digits2_pos a = digits2_pos b) by lia. rewrite Hd.
    apply shifted_compare.
  - symmetry. apply Pos.compare_lt_iff.
    assert (2 ^ Z.pos (digits2_pos a) <= 2 ^ (Z.pos (digits2_pos b) - 1))%Z
      by (apply Z.pow_le_mono_r; lia).
    lia.
  - symmetry. apply Pos.compare_gt_iff.
    assert (2 ^ Z.pos (digits2_pos b) <= 2 ^ (Z.pos (digits2_pos a) - 1))%Z
      by (apply Z.pow_le_mono_r; lia).
    lia.
Qed.

Lemma N_to_double_leb (a b : N) :
  (a < 2 ^ 53)%N ->
  (b < 2 ^ 53)%N ->
  PrimFloat.leb (N_to_double a) (N_to_double b) = (a <=? b)%N.
Proof.
  intros Ha Hb. rewrite FloatAxioms.leb_spec. unfold SFleb.
  rewrite (Prim2SF_N_to_double a Ha), (Prim2SF_N_to_double b Hb).
  destruct a as [| a], b as [| b]; try reflexivity.
  rewrite integer_datum_compare by (apply N_bound_Z; assumption).
  unfold N.leb. cbn [N.compare]. now destruct (Pos.compare a b).
Qed.

(** The sum of two data is the datum of the sum, as long as it is below
    [2^53]. *)
Lemma integer_datum_add (a b : positive) :
  (Z.pos (a + b) < 2 ^ 53)%Z ->
  SFadd prec emax (integer_datum a) (integer_datum b) = integer_datum (a + b).
Proof.
  intros Hsum.
  assert (Ha : (Z.pos a < 2 ^ 53)%Z) by lia.
  assert (Hb : (Z.pos b < 2 ^ 53)%Z) by lia.
  pose proof (digits2_le_53 a Ha) as Hda. pose proof (digits2_le_53 b Hb) as Hdb.
  set (da := digits2_pos a) in *. set (db := digits2_pos b) in *.
  remember (53 - Nat.min (Pos.to_nat da) (Pos.to_nat db)) as k eqn:Hk.
  assert (Hleft :
            fst (shl_align (shifted a (53 - Pos.to_nat da)) (Z.pos da - 53)
                   (Z.min (Z.pos da - 53) (Z.pos db - 53)))
            = shifted a k).
  { unfold shl_align.
    destruct (Z.min (Z.pos da - 53) (Z.pos db - 53) - (Z.pos da - 53))%Z
      as [| j | j] eqn:Hj; cbn [fst].
    - f_equal. lia.
    - lia.
    - rewrite pos_iter_shifted, shifted_add. f_equal. lia. }
  assert (Hright :
            fst (shl_align (shifted b (53 - Pos.to_nat db)) (Z.pos db - 53)
                   (Z.min (Z.pos da - 53) (Z.pos db - 53)))
            = shifted b k).
  { unfold shl_align.
    destruct (Z.min (Z.pos da - 53) (Z.pos db - 53) - (Z.pos db - 53))%Z
      as [| j | j] eqn:Hj; cbn [fst].
    - f_equal. lia.
    - lia.
    - rewrite pos_iter_shifted, shifted_add. f_equal. lia. }
  unfold integer_datum at 1 2. fold da db. cbn [SFadd cond_Zopp].
  rewrite Hleft, Hright.
  assert (Hshift : (Z.pos (shifted a k) + Z.pos (shifted b k))%Z
                   = Z.pos (shifted (a + b) k)).
  { rewrite !shifted_value. lia. }
  rewrite Hshift. cbn [binary_normalize].
  replace (Z.min (Z.pos da - 53) (Z.pos db - 53)) with (- Z.of_nat k)%Z by lia.
  now apply binary_round_integer.
Qed.

Lemma N_to_double_add (a b : N) :
  (a + b < 2 ^ 53)%N ->
  PrimFloat.add (N_to_double a) (N_to_double b) = N_to_double (a + b).
Proof.
  intros Hsum.
  rewrite <- (FloatAxioms.SF2Prim_Prim2SF (PrimFloat.add _ _)).
  rewrite <- (FloatAxioms.SF2Prim_Prim2SF (N_to_double (a + b))).
  f_equal. rewrite FloatAxioms.add_spec. unfold FloatAxioms.SF64add.
  rewrite (Prim2SF_N_to_double a), (Prim2SF_N_to_double b),
    (Prim2SF_N_to_double (a + b)) by lia.
  destruct a as [| a], b as [| b]; try reflexivity.
  cbn [N.add]. apply integer_datum_add. apply N_bound_Z. exact Hsum.
Qed.

Lemma double_to_N_to_double (n : N) :
  (n < 2 ^ 53)%N -> double_to_N (N_to_double n) = Some n.
Proof.
  intros Hn. unfold double_to_N. rewrite (Prim2SF_N_to_double n Hn).
  destruct n as [| p]; [reflexivity |].
  pose proof (N_bound_Z p Hn) as Hp. unfold integer_datum.
  pose proof (digits2_le_53 p Hp) as Hd.
  set (d := digits2_pos p) in *.
  assert (Hvalue : Npos (shifted p (53 - Pos.to_nat d))
                   = (Npos p * 2 ^ N.of_nat (53 - Pos.to_nat d))%N).
  { apply N2Z.inj. rewrite N2Z.inj_mul, N2Z.inj_pow. cbn [Z.of_N].
    rewrite shifted_value. now rewrite nat_N_Z. }
  destruct (Z.pos d - 53)%Z as [| j | j] eqn:Hj.
  - replace (53 - Pos.to_nat d) with 0 by lia. reflexivity.
  - lia.
  - assert (Hk : N.of_nat (53 - Pos.to_nat d) = Npos j) by lia.
    rewrite Hvalue, Hk.
    rewrite <- N.shiftl_mul_pow2, N.shiftr_shiftl_l, N.sub_diag, N.shiftl_0_r
      by reflexivity.
    now rewrite N.eqb_refl.
Qed.


(** ** Decimal numerals *)

Lemma digits_value_uint_acc (u : Decimal.uint) (acc : positive) :
  digits_value (Npos acc) (uint_chars u) = Npos (Pos.of_uint_acc u acc).
Proof.
  revert acc. induction u as [| u IH | u IH | u IH | u IH | u IH | u IH | u IH
                               | u IH | u IH | u IH]; intros acc;
    cbn [uint_chars digits_value Pos.of_uint_acc]; [reflexivity | ..];
    rewrite <- IH; f_equal; lia.
Qed.

Lemma digits_value_uint (u : Decimal.uint) :
  digits_value 0 (uint_chars u) = N.of_uint u.
Proof.
  induction u as [| u IH | u IH | u IH | u IH | u IH | u IH | u IH
                   | u IH | u IH | u IH];
    cbn [uint_chars digits_value N.of_uint Pos.of_uint]; [reflexivity | exact IH | ..];
    apply digits_value_uint_acc.
Qed.

Lemma digits_value_zeros (k : nat) (s : jsstring) :
  digits_value 0 (replicate k 48%N ++ s) = digits_value 0 s.
Proof. induction k as [| k IH]; [reflexivity | exact IH]. Qed.

(** Reading the padded numeral of a number gives the number back. *)
Lemma digits_value_padStart6 (n : N) :
  digits_value 0 (padStart6 (N_to_dec n)) = n.
Proof.
  unfold padStart6, N_to_dec. rewrite digits_value_zeros, digits_value_uint.
  apply DecimalN.Unsigned.of_to.
Qed.

Lemma uint_chars_digits (u : Decimal.uint) : forallb is_digit (uint_chars u) = true.
Proof.
  induction u as [| u IH | u IH | u IH | u IH | u IH | u IH | u IH
                   | u IH | u IH | u IH];
    cbn [uint_chars forallb]; [reflexivity | ..]; exact IH.
Qed.

Lemma padStart6_digits (n : N) : forallb is_digit (padStart6 (N_to_dec n)) = true.
Proof.
  unfold padStart6, N_to_dec. rewrite forallb_app, uint_chars_digits, andb_true_r.
  induction (6 - length (uint_chars (N.to_uint n))) as [| k IH]; [reflexivity | exact IH].
Qed.

Lemma padStart6_length (s : jsstring) : 6 <= length (padStart6 s).
Proof. unfold padStart6. rewrite length_app, length_replicate. lia. Qed.

Lemma match_id_new (letter : N) (n : N) :
  match_id letter (letter :: padStart6 (N_to_dec n)) = Some (padStart6 (N_to_dec n)).
Proof.
  unfold match_id. rewrite N.eqb_refl, padStart6_digits.
  pose proof (padStart6_length (N_to_dec n)) as Hlen.
  destruct (length (padStart6 (N_to_dec n))) as [| k]; [lia | reflexivity].
Qed.

(** ** The count *)

Lemma next_number_fold (letter : N) (names : list jsstring) (k : N) :
  (k <= List.fold_left (next_number letter) names k)%N
  /\ forall name digits,
       In name names ->
       match_id letter name = Some digits ->
       (digits_value 0 digits < List.fold_left (next_number letter) names k)%N.
Proof.
  revert k. induction names as [| name names IH]; intros k.
  - split; [cbn; lia | intros name digits []].
  - cbn [List.fold_left]. destruct (IH (next_number letter k name)) as [Hle Hall].
    assert (Hstep : (k <= next_number letter k name)%N).
    { unfold next_number. destruct (match_id letter name) as [digits |]; [| lia].
      destruct (N.leb_spec k (digits_value 0 digits)); lia. }
    split; [lia |].
    intros name' digits [<- | Hin] Hmatch; [| exact (Hall name' digits Hin Hmatch)].
    assert (Hnext : (digits_value 0 digits < next_number letter k name)%N).
    { unfold next_number. rewrite Hmatch.
      destruct (N.leb_spec k (digits_value 0 digits)); lia. }
    lia.
Qed.

Lemma next_number_bound (letter : N) (names : list jsstring) (k bound : N) :
  (k <= bound)%N ->
  (forall name digits,
     In name names -> match_id letter name = Some digits ->
     (digits_value 0 digits + 1 <= bound)%N) ->
  (List.fold_left (next_number letter) names k <= bound)%N.
Proof.
  revert k. induction names as [| name names IH]; intros k Hk Hall; [exact Hk |].
  cbn [List.fold_left]. apply IH.
  - unfold next_number. destruct (match_id letter name) as [digits |] eqn:Hmatch;
      [| exact Hk].
    destruct (N.leb_spec k (digits_value 0 digits)); [| exact Hk].
    apply (Hall name digits); [now left | exact Hmatch].
  - intros name' digits Hin. apply Hall. now right.
Qed.

(** Below [2^53] the loop counts as on the natural numbers. *)
Lemma next_key_fold (isWidgetGroup : bool) (names : list jsstring) (k : N) :
  (k < 2 ^ 53)%N ->
  (forall name digits,
     In name names ->
     match_id (if isWidgetGroup then letter_g else letter_w) name = Some digits ->
     (digits_value 0 digits + 1 < 2 ^ 53)%N) ->
  List.fold_left (next_key isWidgetGroup) names (N_to_double k)
  = N_to_double
      (List.fold_left (next_number (if isWidgetGroup then letter_g else letter_w))
         names k).
Proof.
  revert k. induction names as [| name names IH]; intros k Hk Hall; [reflexivity |].
  cbn [List.fold_left].
  assert (Hstep : next_key isWidgetGroup (N_to_double k) name
                  = N_to_double
                      (next_number (if isWidgetGroup then letter_g else letter_w)
                         k name)
                  /\ (next_number (if isWidgetGroup then letter_g else letter_w)
                        k name < 2 ^ 53)%N).
  { unfold next_key, next_number.
    destruct (match_id _ name) as [digits |] eqn:Hmatch; [| auto].
    pose proof (Hall name digits (or_introl eq_refl) Hmatch) as Hdigits.
    unfold parseInt_digits.
    rewrite N_to_double_leb by lia.
    destruct (k <=? digits_value 0 digits)%N; [| auto].
    rewrite N_to_double_one, N_to_double_add by lia. auto. }
  destruct Hstep as [-> Hnext]. apply IH; [exact Hnext |].
  intros name' digits Hin. apply Hall. now right.
Qed.

(** ** The widgets of a project *)

Lemma streq_refl (k : jsstring) : streq k k = true.
Proof. now apply streq_eq. Qed.

Lemma assoc_in_keys (k : jsstring) (ps : list (jsstring * value)) (v : value) :
  assoc k ps = Some v -> In k (List.map fst ps).
Proof.
  induction ps as [| [k' v'] ps IH]; [discriminate |].
  cbn [assoc List.map fst]. destruct (streq k k') eqn:Hk.
  - apply streq_eq in Hk as ->. now left.
  - intros Hv. right. now apply IH.
Qed.

Lemma keys_in_assoc (k : jsstring) (ps : list (jsstring * value)) :
  In k (List.map fst ps) -> exists v, assoc k ps = Some v.
Proof.
  induction ps as [| [k' v'] ps IH]; [intros [] |].
  cbn [assoc List.map fst]. intros Hin.
  destruct (streq k k') eqn:Hk; [eauto |].
  destruct Hin as [-> | Hin]; [now rewrite streq_refl in Hk | now apply IH].
Qed.

Lemma Object_keys_truthy (v : value) :
  truthy v = true -> exists ids, Object_keys v = Ok ids.
Proof.
  unfold Object_keys. destruct v; try discriminate; cbn; eauto.
Qed.

Lemma Object_keys_falsy (v : value) (ids : list jsstring) :
  truthy v = false -> Object_keys v = Ok ids -> ids = [].
Proof.
  unfold Object_keys. destruct v as [| | b | x | s | xs | ps]; try discriminate;
    cbn; try (now intros _ [= <-]).
  destruct s; [now intros _ [= <-] | discriminate].
Qed.

Section Collection.
Context `{Host}.

(** What one view contributes: the keys of its [widgets]. *)
Lemma view_widget_ids_spec (views : list (jsstring * value)) (view : jsstring)
    (v : value) :
  assoc view views = Some v ->
  nullish v = false ->
  exists ids,
    view_widget_ids (VObj views) view = Ok ids
    /\ forall id,
         In id ids
         <-> exists widgets keys,
               get_prop v (js "widgets") = Ok widgets
               /\ Object_keys widgets = Ok keys /\ In id keys.
Proof.
  intros Hv Hnull. unfold view_widget_ids. cbn [get_prop]. rewrite Hv.
  cbn [default from_option id obind].
  destruct (get_prop v (js "widgets")) as [widgets | e] eqn:Hwidgets.
  2: { destruct v; discriminate. }
  cbn [obind]. destruct (truthy widgets) eqn:Htruthy.
  - destruct (Object_keys_truthy widgets Htruthy) as [keys Hkeys].
    exists keys. split; [exact Hkeys |]. intros id. split.
    + intros Hin. exists widgets, keys. auto.
    + intros (widgets' & keys' & [= <-] & Hkeys' & Hin). congruence.
  - exists []. split; [reflexivity |]. intros id. split; [intros [] |].
    intros (widgets' & keys' & [= <-] & Hkeys' & Hin).
    now rewrite (Object_keys_falsy widgets keys' Htruthy Hkeys') in Hin.
Qed.

Lemma collect_widget_ids_spec (views : list (jsstring * value))
    (names : list jsstring) (widgets : list jsstring) :
  (forall view v, assoc view views = Some v -> nullish v = false) ->
  (forall view, In view names -> In view (List.map fst views)) ->
  exists all,
    collect_widget_ids (VObj views) names widgets = Ok all
    /\ forall id,
         In id all
         <-> In id widgets
             \/ exists view v widgets' keys,
                  In view names
                  /\ assoc view views = Some v
                  /\ get_prop v (js "widgets") = Ok widgets'
                  /\ Object_keys widgets' = Ok keys /\ In id keys.
Proof.
  intros Hviews. revert widgets.
  induction names as [| view names IH]; intros widgets Hnames.
  - exists widgets. split; [reflexivity |]. intros id. split; [auto |].
    intros [Hin | (view & v & w & keys & [] & _)]. exact Hin.
  - destruct (keys_in_assoc view views (Hnames view (or_introl eq_refl))) as [v Hv].
    destruct (view_widget_ids_spec views view v Hv (Hviews view v Hv))
      as (ids & Hids & Hspec).
    destruct (IH (widgets ++ ids) (fun x Hx => Hnames x (or_intror Hx)))
      as (all & Hall & Hin).
    exists all. cbn [collect_widget_ids]. rewrite Hids. cbn [obind].
    split; [exact Hall |]. intros id. rewrite Hin, in_app_iff, Hspec. split.
    + intros [[Hw | (w & keys & Hget & Hkeys & Hid)]
             | (view' & v' & w & keys & Hview & Hrest)].
      * now left.
      * right. exists view, v, w, keys. split; [now left | auto].
      * right. exists view', v', w, keys. split; [now right | exact Hrest].
    + intros [Hw | (view' & v' & w & keys & [<- | Hview] & Hv' & Hrest)].
      * left. now left.
      * left. right. exists w, keys. rewrite Hv in Hv'. injection Hv' as <-.
        exact Hrest.
      * right. exists view', v', w, keys. auto.
Qed.

(** The ids the loop collects are the widget ids of the project. *)
Lemma collected_ids (views : list (jsstring * value)) :
  (forall view v, assoc view views = Some v -> nullish v = false) ->
  exists all,
    collect_widget_ids (VObj views) (List.map fst views) [] = Ok all
    /\ forall id, In id all <-> is_widget_id views id.
Proof.
  intros Hviews.
  destruct (collect_widget_ids_spec views (List.map fst views) [] Hviews
              (fun _ Hin => Hin)) as (all & Hall & Hspec).
  exists all. split; [exact Hall |]. intros id. rewrite Hspec. unfold is_widget_id.
  split.
  - intros [[] | (view & v & w & keys & _ & Hrest)]. exists view, v, w, keys. exact Hrest.
  - intros (view & v & w & keys & Hv & Hrest). right.
    exists view, v, w, keys. split; [now apply (assoc_in_keys view views v) | auto].
Qed.

Variable visProject : value.

(** The number of the new id is the offset added to the least number,
    from 1 on, that is above the number of every id of the letter. *)
Lemma getNewWidgetIdNumber_spec (isWidgetGroup : bool)
    (views : list (jsstring * value)) :
  (forall view v, assoc view views = Some v -> nullish v = false) ->
  exists key : N,
    (1 <= key)%N
    /\ (forall id digits,
          is_widget_id views id ->
          match_id (if isWidgetGroup then letter_g else letter_w) id = Some digits ->
          (digits_value 0 digits < key)%N)
    /\ (forall bound : N,
          (1 <= bound)%N ->
          (forall id digits,
             is_widget_id views id ->
             match_id (if isWidgetGroup then letter_g else letter_w) id = Some digits ->
             (digits_value 0 digits < bound)%N) ->
          (key <= bound)%N)
    /\ forall offset : option N,
         (key + default 0%N offset < 2 ^ 53)%N ->
         getNewWidgetIdNumber visProject isWidgetGroup (VObj views)
           (option_map N_to_double offset)
         = Ok (N_to_double (key + default 0%N offset)).
Proof.
  intros Hviews.
  destruct (collected_ids views Hviews) as (all & Hall & Hids).
  set (letter := if isWidgetGroup then letter_g else letter_w) in *.
  exists (List.fold_left (next_number letter) all 1%N).
  destruct (next_number_fold letter all 1) as [Hone Habove].
  split; [exact Hone |]. split; [| split].
  - intros id digits Hid Hmatch. apply (Habove id digits); [| exact Hmatch].
    now apply Hids.
  - intros bound Hbound Hall'. apply next_number_bound; [exact Hbound |].
    intros id digits Hin Hmatch.
    pose proof (Hall' id digits (proj1 (Hids id) Hin) Hmatch). lia.
  - intros offset Hkey.
    unfold getNewWidgetIdNumber, Object_keys. cbn [js_or truthy Object_entries obind].
    rewrite Hall. cbn [obind]. f_equal.
    rewrite N_to_double_one.
    rewrite (next_key_fold isWidgetGroup all 1) by
      (try lia; intros id digits Hin Hmatch;
       pose proof (Habove id digits Hin Hmatch); lia).
    fold letter.
    assert (Hdefault : default 0%float (option_map N_to_double offset)
                       = N_to_double (default 0%N offset))
      by (destruct offset; [reflexivity | exact N_to_double_none]).
    rewrite Hdefault. apply N_to_double_add. lia.
Qed.

Lemma Number_text_natural (n : N) :
  (n < 2 ^ 53)%N -> Number_text (N_to_double n) = N_to_dec n.
Proof.
  intros Hn. unfold Number_text. rewrite double_to_N_to_double by exact Hn.
  destruct (N.ltb_spec n (10 ^ 21)); [reflexivity |].
  assert (2 ^ 53 < 10 ^ 21)%N by reflexivity. lia.
Qed.

(** The new id: the letter, and the padded numeral of that number. *)
Lemma new_id_spec (isWidgetGroup : bool) (views : list (jsstring * value)) :
  (forall view v, assoc view views = Some v -> nullish v = false) ->
  exists key : N,
    (1 <= key)%N
    /\ (forall id digits,
          is_widget_id views id ->
          match_id (if isWidgetGroup then letter_g else letter_w) id = Some digits ->
          (digits_value 0 digits < key)%N)
    /\ (forall bound : N,
          (1 <= bound)%N ->
          (forall id digits,
             is_widget_id views id ->
             match_id (if isWidgetGroup then letter_g else letter_w) id = Some digits ->
             (digits_value 0 digits < bound)%N) ->
          (key <= bound)%N)
    /\ forall offset : option N,
         (key + default 0%N offset < 2 ^ 53)%N ->
         (if isWidgetGroup then getNewGroupId visProject else getNewWidgetId visProject)
           (VObj views) (option_map N_to_double offset)
         = Ok ((if isWidgetGroup then letter_g else letter_w)
                 :: padStart6 (N_to_dec (key + default 0%N offset))).
Proof.
  intros Hviews.
  destruct (getNewWidgetIdNumber_spec isWidgetGroup views Hviews)
    as (key & Hone & Habove & Hleast & Hnumber).
  exists key. split; [exact Hone |]. split; [exact Habove |]. split; [exact Hleast |].
  intros offset Hkey. specialize (Hnumber offset Hkey).
  destruct isWidgetGroup; unfold getNewGroupId, getNewWidgetId;
    rewrite Hnumber; cbn [obind]; now rewrite Number_text_natural.
Qed.

(** Under the bound on the ids, the least number stays below [2^53]. *)
Lemma key_below_bound (letter : N) (views : list (jsstring * value))
    (key offset : N) :
  (forall bound : N,
     (1 <= bound)%N ->
     (forall id digits,
        is_widget_id views id -> match_id letter id = Some digits ->
        (digits_value 0 digits < bound)%N) ->
     (key <= bound)%N) ->
  (1 + offset < 2 ^ 53)%N ->
  (forall id digits,
     is_widget_id views id -> match_id letter id = Some digits ->
     (digits_value 0 digits + 1 + offset < 2 ^ 53)%N) ->
  (key + offset < 2 ^ 53)%N.
Proof.
  intros Hleast Hoffset Hbound.
  assert (Hkey : (key <= 2 ^ 53 - 1 - offset)%N).
  { apply Hleast; [lia |]. intros id digits Hid Hmatch.
    pose proof (Hbound id digits Hid Hmatch). lia. }
  lia.
Qed.

(** A new id is not an id of the project. *)
Lemma new_id_fresh (letter : N) (views : list (jsstring * value)) (key n : N) :
  (forall id digits,
     is_widget_id views id -> match_id letter id = Some digits ->
     (digits_value 0 digits < key)%N) ->
  (key <= n)%N ->
  ~ is_widget_id views (letter :: padStart6 (N_to_dec n)).
Proof.
  intros Habove Hn Hid.
  pose proof (Habove _ _ Hid (match_id_new letter n)) as Hlt.
  rewrite digits_value_padStart6 in Hlt. lia.
Qed.

(** X19: [getNewWidgetId] answers with an id that no view of the project
    uses: the letter [w] and at least six digits.  This holds for a
    project whose views are objects, for every offset, as long as the
    numbers involved stay below [2^53]. *)
Theorem getNewWidgetId_is_fresh (views : list (jsstring * value))
    (offset : option N) :
  (forall view v, assoc view views = Some v -> nullish v = false) ->
  (1 + default 0%N offset < 2 ^ 53)%N ->
  (forall id digits,
     is_widget_id views id -> match_id letter_w id = Some digits ->
     (digits_value 0 digits + 1 + default 0%N offset < 2 ^ 53)%N) ->
  exists id digits,
    getNewWidgetId visProject (VObj views) (option_map N_to_double offset) = Ok id
    /\ ~ is_widget_id views id
    /\ match_id letter_w id = Some digits
    /\ 6 <= length digits.
Proof.
  intros Hviews Hoffset Hbound.
  destruct (new_id_spec false views Hviews) as (key & Hone & Habove & Hleast & Hid).
  pose proof (key_below_bound letter_w views key (default 0%N offset)
                Hleast Hoffset Hbound) as Hkey.
  exists (letter_w :: padStart6 (N_to_dec (key + default 0%N offset))),
    (padStart6 (N_to_dec (key + default 0%N offset))).
  split; [exact (Hid offset Hkey) |].
  split; [apply (new_id_fresh letter_w views key); [exact Habove | lia] |].
  split; [apply match_id_new | apply padStart6_length].
Qed.

(** X20: [getNewGroupId] answers with a group id that no view of the
    project uses, the letter [g] and at least six digits, under the same
    conditions; the ids that begin with [w] do not count for it. *)
Theorem getNewGroupId_is_fresh (views : list (jsstring * value))
    (offset : option N) :
  (forall view v, assoc view views = Some v -> nullish v = false) ->
  (1 + default 0%N offset < 2 ^ 53)%N ->
  (forall id digits,
     is_widget_id views id -> match_id letter_g id = Some digits ->
     (digits_value 0 digits + 1 + default 0%N offset < 2 ^ 53)%N) ->
  exists id digits,
    getNewGroupId visProject (VObj views) (option_map N_to_double offset) = Ok id
    /\ ~ is_widget_id views id
    /\ match_id letter_g id = Some digits
    /\ 6 <= length digits.
Proof.
  intros Hviews Hoffset Hbound.
  destruct (new_id_spec true views Hviews) as (key & Hone & Habove & Hleast & Hid).
  pose proof (key_below_bound letter_g views key (default 0%N offset)
                Hleast Hoffset Hbound) as Hkey.
  exists (letter_g :: padStart6 (N_to_dec (key + default 0%N offset))),
    (padStart6 (N_to_dec (key + default 0%N offset))).
  split; [exact (Hid offset Hkey) |].
  split; [apply (new_id_fresh letter_g views key); [exact Habove | lia] |].
  split; [apply match_id_new | apply padStart6_length].
Qed.

(** X21: for one and the same project, different offsets give different
    ids. *)
Theorem getNewWidgetId_offsets_differ (views : list (jsstring * value))
    (i j : N) :
  (forall view v, assoc view views = Some v -> nullish v = false) ->
  (1 + N.max i j < 2 ^ 53)%N ->
  (forall id digits,
     is_widget_id views id -> match_id letter_w id = Some digits ->
     (digits_value 0 digits + 1 + N.max i j < 2 ^ 53)%N) ->
  i <> j ->
  exists a b,
    getNewWidgetId visProject (VObj views) (Some (N_to_double i)) = Ok a
    /\ getNewWidgetId visProject (VObj views) (Some (N_to_double j)) = Ok b
    /\ a <> b.
Proof.
  intros Hviews Hoffset Hbound Hij.
  destruct (new_id_spec false views Hviews) as (key & Hone & Habove & Hleast & Hid).
  pose proof (key_below_bound letter_w views key (N.max i j)
                Hleast Hoffset Hbound) as Hkey.
  exists (letter_w :: padStart6 (N_to_dec (key + i))),
    (letter_w :: padStart6 (N_to_dec (key + j))).
  split; [apply (Hid (Some i)); cbn; lia |].
  split; [apply (Hid (Some j)); cbn; lia |].
  intros [= Heq]. apply (f_equal (digits_value 0)) in Heq.
  rewrite !digits_value_padStart6 in Heq. lia.
Qed.

(** X22: the number [getNewWidgetIdNumber] counts up to is the least one:
    1 for a project without an id of the letter, and otherwise the number
    after the largest one in use, whatever the order of the views and of
    their widgets; the offset is added to it. *)
Theorem getNewWidgetIdNumber_is_least (isWidgetGroup : bool)
    (views : list (jsstring * value)) (offset : option N) :
  (forall view v, assoc view views = Some v -> nullish v = false) ->
  (1 + default 0%N offset < 2 ^ 53)%N ->
  (forall id digits,
     is_widget_id views id ->
     match_id (if isWidgetGroup then letter_g else letter_w) id = Some digits ->
     (digits_value 0 digits + 1 + default 0%N offset < 2 ^ 53)%N) ->
  exists key : N,
    getNewWidgetIdNumber visProject isWidgetGroup (VObj views)
      (option_map N_to_double offset)
    = Ok (N_to_double (key + default 0%N offset))
    /\ (key = 1%N
        \/ exists id digits,
             is_widget_id views id
             /\ match_id (if isWidgetGroup then letter_g else letter_w) id
                = Some digits
             /\ key = (digits_value 0 digits + 1)%N)
    /\ forall id digits,
         is_widget_id views id ->
         match_id (if isWidgetGroup then letter_g else letter_w) id = Some digits ->
         (digits_value 0 digits < key)%N.
Proof.
  intros Hviews Hoffset Hbound.
  destruct (getNewWidgetIdNumber_spec isWidgetGroup views Hviews)
    as (key & Hone & Habove & Hleast & Hnumber).
  pose proof (key_below_bound _ views key (default 0%N offset)
                Hleast Hoffset Hbound) as Hkey.
  exists key. split; [exact (Hnumber offset Hkey) |]. split; [| exact Habove].
  destruct (N.eq_dec key 1%N) as [-> | Hne]; [now left |]. right.
  destruct (collected_ids views Hviews) as (all & _ & Hids).
  assert (Hsearch : forall names : list jsstring,
             (forall id, In id names -> is_widget_id views id) ->
             (exists id digits,
                In id names
                /\ match_id (if isWidgetGroup then letter_g else letter_w) id
                   = Some digits
                /\ (key <= digits_value 0 digits + 1)%N)
             \/ forall id digits,
                  In id names ->
                  match_id (if isWidgetGroup then letter_g else letter_w) id
                  = Some digits ->
                  (digits_value 0 digits < key - 1)%N).
  { induction names as [| name names IH]; intros Hnames.
    - right. intros id digits [].
    - destruct (IH (fun id Hin => Hnames id (or_intror Hin)))
        as [(id & digits & Hin & Hmatch & Hle) | Hbelow].
      + left. exists id, digits. split; [now right | auto].
      + destruct (match_id (if isWidgetGroup then letter_g else letter_w) name)
          as [digits |] eqn:Hmatch.
        * destruct (N.le_gt_cases key (digits_value 0 digits + 1)) as [Hle | Hgt].
          -- left. exists name, digits. split; [now left | auto].
          -- right. intros id digits' [<- | Hin] Hmatch'.
             ++ rewrite Hmatch in Hmatch'. injection Hmatch' as <-. lia.
             ++ exact (Hbelow id digits' Hin Hmatch').
        * right. intros id digits' [<- | Hin] Hmatch'; [congruence |].
          exact (Hbelow id digits' Hin Hmatch'). }
  destruct (Hsearch all (fun id Hin => proj1 (Hids id) Hin))
    as [(id & digits & Hin & Hmatch & Hle) | Hbelow].
  - exists id, digits. split; [now apply Hids |]. split; [exact Hmatch |].
    pose proof (Habove id digits (proj1 (Hids id) Hin) Hmatch). lia.
  - exfalso. assert (Hsmaller : (key <= key - 1)%N).
    { apply Hleast; [lia |]. intros id digits Hid Hmatch.
      apply (Hbelow id digits); [now apply Hids | exact Hmatch]. }
    lia.
Qed.

End Collection.

(** Checks by enumeration, for concrete projects. *)
Lemma assoc_in (k : jsstring) (ps : list (jsstring * value)) (v : value) :
  assoc k ps = Some v -> exists k', In (k', v) ps.
Proof.
  induction ps as [| [k' v'] ps IH]; [discriminate |].
  cbn [assoc]. destruct (streq k k').
  - intros [= ->]. exists k'. now left.
  - intros Hv. destruct (IH Hv) as [k'' Hin]. exists k''. now right.
Qed.

Lemma views_are_objects (views : list (jsstring * value)) :
  forallb (fun p => negb (nullish (snd p))) views = true ->
  forall view v, assoc view views = Some v -> nullish v = false.
Proof.
  intros Hall view v Hv. destruct (assoc_in view views v Hv) as [k Hin].
  rewrite forallb_forall in Hall. specialize (Hall (k, v) Hin).
  now apply negb_true_iff in Hall.
Qed.

Lemma is_widget_id_enumerated (views : list (jsstring * value)) (id : jsstring) :
  is_widget_id views id -> In id (all_widget_ids views).
Proof.
  intros (view & v & widgets & ids & Hv & Hwidgets & Hids & Hin).
  destruct (assoc_in view views v Hv) as [k Hk].
  unfold all_widget_ids. apply in_flat_map. exists (k, v).
  split; [exact Hk |]. cbn [snd]. now rewrite Hwidgets, Hids.
Qed.

Lemma ids_below (letter bound : N) (views : list (jsstring * value)) :
  forallb (fun id => match match_id letter id with
                     | Some digits => (digits_value 0 digits + 1 + bound <? 2 ^ 53)%N
                     | None => true
                     end) (all_widget_ids views) = true ->
  forall id digits,
    is_widget_id views id -> match_id letter id = Some digits ->
    (digits_value 0 digits + 1 + bound < 2 ^ 53)%N.
Proof.
  intros Hall id digits Hid Hmatch. rewrite forallb_forall in Hall.
  specialize (Hall id (is_widget_id_enumerated views id Hid)).
  rewrite Hmatch in Hall. now apply N.ltb_lt.
Qed.

Section NewIdsExample.
#[local] Existing Instance Example.host.

Lemma getNewWidgetId_is_fresh_witness :
  exists id,
    getNewWidgetId VUndefined (VObj example_views) None = Ok id
    /\ ~ is_widget_id example_views id.
Proof.
  destruct (getNewWidgetId_is_fresh VUndefined example_views None)
    as (id & digits & Hrun & Hfresh & _).
  - now apply views_are_objects.
  - reflexivity.
  - now apply ids_below.
  - exists id. split; [exact Hrun | exact Hfresh].
Defined.

Lemma getNewGroupId_is_fresh_witness :
  exists id,
    getNewGroupId VUndefined (VObj example_views) (Some (N_to_double 2)) = Ok id
    /\ ~ is_widget_id example_views id.
Proof.
  destruct (getNewGroupId_is_fresh VUndefined example_views (Some 2%N))
    as (id & digits & Hrun & Hfresh & _).
  - now apply views_are_objects.
  - reflexivity.
  - now apply ids_below.
  - exists id. split; [exact Hrun | exact Hfresh].
Defined.

Lemma getNewWidgetId_offsets_differ_witness :
  exists a b,
    getNewWidgetId VUndefined (VObj example_views) (Some (N_to_double 0)) = Ok a
    /\ getNewWidgetId VUndefined (VObj example_views) (Some (N_to_double 1)) = Ok b
    /\ a <> b.
Proof.
  apply (getNewWidgetId_offsets_differ VUndefined example_views 0 1).
  - now apply views_are_objects.
  - reflexivity.
  - now apply ids_below.
  - discriminate.
Defined.

Lemma getNewWidgetIdNumber_is_least_witness :
  exists key : N,
    getNewWidgetIdNumber VUndefined false (VObj example_views) None
    = Ok (N_to_double (key + 0)).
Proof.
  destruct (getNewWidgetIdNumber_is_least VUndefined false example_views None)
    as (key & Hrun & _).
  - now apply views_are_objects.
  - reflexivity.
  - now apply ids_below.
  - exists key. exact Hrun.
Defined.

(** At [2^53] the count stops: the number after [9007199254740992] is not
    a Number of its own, and the id that is answered is the one in use. *)
Lemma getNewWidgetId_repeats_at_2_53 :
  getNewWidgetId VUndefined
    (VObj [(js "main", VObj [(js "widgets",
                                VObj [(js "w9007199254740992", VNull)])])])
    None
  = Ok (js "w9007199254740992").
Proof. vm_compute. reflexivity. Qed.

End NewIdsExample.

(** ** Widgets shared between views *)

Lemma assoc_set_same (k : jsstring) (v : value) (ps : list (jsstring * value)) :
  assoc k (assoc_set k v ps) = Some v.
Proof.
  induction ps as [| [k' v'] ps IH]; cbn [assoc_set assoc].
  - now rewrite streq_refl.
  - destruct (streq k k') eqn:Hk; cbn [assoc]; rewrite Hk; [reflexivity | exact IH].
Qed.

Lemma assoc_set_other (k k' : jsstring) (v : value) (ps : list (jsstring * value)) :
  streq k' k = false ->
  assoc k' (assoc_set k v ps) = assoc k' ps.
Proof.
  intros Hk. induction ps as [| [k0 v0] ps IH]; cbn [assoc_set assoc].
  - now rewrite Hk.
  - destruct (streq k k0) eqn:Hk0; cbn [assoc].
    + apply streq_eq in Hk0 as <-. now rewrite Hk.
    + now rewrite IH.
Qed.

Lemma assoc_set_again (k : jsstring) (v : value) (ps : list (jsstring * value)) :
  assoc_set k v (assoc_set k v ps) = assoc_set k v ps.
Proof.
  induction ps as [| [k' v'] ps IH]; cbn [assoc_set].
  - now rewrite streq_refl.
  - destruct (streq k k') eqn:Hk; cbn [assoc_set]; rewrite Hk; [reflexivity |].
    now rewrite IH.
Qed.

Lemma assoc_delete_same (k : jsstring) (ps : list (jsstring * value)) :
  assoc k (delete_prop k ps) = None.
Proof.
  unfold delete_prop. induction ps as [| [k' v'] ps IH]; [reflexivity |].
  cbn [List.filter fst]. destruct (streq k k') eqn:Hk; cbn [negb]; [exact IH |].
  cbn [assoc]. now rewrite Hk.
Qed.

Lemma assoc_delete_other (k k' : jsstring) (ps : list (jsstring * value)) :
  streq k' k = false ->
  assoc k' (delete_prop k ps) = assoc k' ps.
Proof.
  intros Hk. unfold delete_prop.
  induction ps as [| [k0 v0] ps IH]; [reflexivity |].
  cbn [List.filter fst assoc]. destruct (streq k k0) eqn:Hk0; cbn [negb].
  - apply streq_eq in Hk0 as <-. now rewrite Hk.
  - cbn [assoc]. now rewrite IH.
Qed.

Lemma assoc_delete_none (k k' : jsstring) (ps : list (jsstring * value)) :
  assoc k' ps = None -> assoc k' (delete_prop k ps) = None.
Proof.
  destruct (streq k' k) eqn:Hk.
  - apply streq_eq in Hk as ->. intros _. apply assoc_delete_same.
  - now rewrite assoc_delete_other.
Qed.

(** The deletions of the inner loop, on the properties of [view.widgets]. *)
Lemma unsync_fold (ids : list jsstring) (widgets : list (jsstring * value)) :
  exists widgets',
    List.fold_left
      (fun w widgetId =>
         if includes (js "_") widgetId
         then match w with
              | VObj ps => VObj (delete_prop widgetId ps)
              | _ => w
              end
         else w)
      ids (VObj widgets)
    = VObj widgets'
    /\ (forall id, includes (js "_") id = false -> assoc id widgets' = assoc id widgets)
    /\ (forall id, includes (js "_") id = true -> In id ids -> assoc id widgets' = None)
    /\ (forall id, assoc id widgets = None -> assoc id widgets' = None).
Proof.
  revert widgets. induction ids as [| x ids IH]; intros widgets.
  - exists widgets. split; [reflexivity |]. split; [auto |]. split; [| auto].
    intros id _ [].
  - cbn [List.fold_left]. destruct (includes (js "_") x) eqn:Hx.
    + destruct (IH (delete_prop x widgets)) as (widgets' & Hfold & Hkeep & Hgone & Hnone).
      exists widgets'. split; [exact Hfold |]. split; [| split].
      * intros id Hid. rewrite (Hkeep id Hid). apply assoc_delete_other.
        destruct (streq id x) eqn:Heq; [| reflexivity].
        apply streq_eq in Heq as ->. congruence.
      * intros id Hid [<- | Hin]; [| now apply Hgone].
        apply Hnone. apply assoc_delete_same.
      * intros id Hid. apply Hnone. now apply assoc_delete_none.
    + destruct (IH widgets) as (widgets' & Hfold & Hkeep & Hgone & Hnone).
      exists widgets'. split; [exact Hfold |]. split; [exact Hkeep |].
      split; [| exact Hnone].
      intros id Hid [<- | Hin]; [congruence | now apply Hgone].
Qed.

Lemma unsync_fold_other (ids : list jsstring) (widgets : value) :
  (forall ps, widgets <> VObj ps) ->
  List.fold_left
    (fun w widgetId =>
       if includes (js "_") widgetId
       then match w with
            | VObj ps => VObj (delete_prop widgetId ps)
            | _ => w
            end
       else w)
    ids widgets
  = widgets.
Proof.
  intros Hother. induction ids as [| x ids IH]; [reflexivity |].
  cbn [List.fold_left]. destruct (includes (js "_") x); [| exact IH].
  destruct widgets as [| | b | y | s | xs | ps]; try exact IH.
  now destruct (Hother ps).
Qed.

Lemma unsync_view_spec (view view' : value) :
  unsync_view view = Ok view' ->
  forall widgetId,
    widget_in view' widgetId
    = if includes (js "_") widgetId then None else widget_in view widgetId.
Proof.
  unfold unsync_view, unsync_widgets, Object_keys. intros Hrun widgetId.
  destruct view as [| | b | x | s | xs | ps]; try discriminate;
    try (cbn in Hrun;
         repeat match type of Hrun with
                | context [if ?c then _ else _] => destruct c
                | context [match ?c with _ => _ end] => destruct c
                end; discriminate).
  cbn [get_prop obind] in Hrun.
  destruct (assoc (js "widgets") ps) as [widgets |] eqn:Hwidgets;
    [| discriminate].
  cbn [default from_option id] in Hrun.
  destruct (Object_entries widgets) as [entries | e] eqn:Hentries; [| discriminate].
  cbn [obind] in Hrun. injection Hrun as <-.
  cbn [widget_in]. rewrite assoc_set_same, Hwidgets.
  destruct widgets as [| | b | x | s | xs | ws]; try discriminate;
    try (rewrite unsync_fold_other by discriminate;
         now destruct (includes (js "_") widgetId)).
  injection Hentries as <-.
  destruct (unsync_fold (List.map fst ws) ws) as (ws' & -> & Hkeep & Hgone & Hnone).
  destruct (includes (js "_") widgetId) eqn:Hid; [| now apply Hkeep].
  destruct (assoc widgetId ws) as [w |] eqn:Hw; [| now apply Hnone].
  apply Hgone; [exact Hid |]. exact (assoc_in_keys widgetId ws w Hw).
Qed.

Lemma unsync_views_spec (entries entries' : list (jsstring * value)) :
  unsync_views entries = Ok entries' ->
  forall view,
    match assoc view entries with
    | None => assoc view entries' = None
    | Some v =>
        exists v',
          assoc view entries' = Some v'
          /\ (if streq view (js "___settings") then v' = v else unsync_view v = Ok v')
    end.
Proof.
  revert entries'. induction entries as [| [name v] entries IH]; intros entries' Hrun view.
  - injection Hrun as <-. reflexivity.
  - cbn [unsync_views] in Hrun.
    destruct (if streq name (js "___settings") then Ok v else unsync_view v)
      as [v1 | e] eqn:Hview; [| discriminate].
    cbn [obind] in Hrun.
    destruct (unsync_views entries) as [rest | e] eqn:Hrest; [| discriminate].
    cbn [obind] in Hrun. injection Hrun as <-.
    cbn [assoc]. destruct (streq view name) eqn:Hname.
    + apply streq_eq in Hname as ->. exists v1. split; [reflexivity |].
      destruct (streq name (js "___settings")); [congruence | exact Hview].
    + exact (IH rest eq_refl view).
Qed.

Lemma unsync_view_type_error (view : value) (e : exn) :
  unsync_view view = Throw e -> exists message, e = TypeError message.
Proof.
  unfold unsync_view, unsync_widgets, Object_keys.
  destruct (get_prop view (js "widgets")) as [w | e'] eqn:Hw; cbn [obind].
  - destruct (Object_entries w) as [entries | e''] eqn:Hentries; cbn [obind];
      [discriminate |].
    intros [= <-]. destruct w; try discriminate Hentries;
      injection Hentries as <-; eexists; reflexivity.
  - intros [= <-]. destruct view as [| | b | x | s | xs | ps];
      try discriminate Hw; injection Hw as <-; eexists; reflexivity.
Qed.

(** The deletions of the inner loop leave the properties that none of the
    ids with an underscore names. *)
Lemma unsync_fold_filter (ids : list jsstring) (widgets : list (jsstring * value)) :
  List.fold_left
    (fun w widgetId =>
       if includes (js "_") widgetId
       then match w with
            | VObj ps => VObj (delete_prop widgetId ps)
            | _ => w
            end
       else w)
    ids (VObj widgets)
  = VObj (List.filter
            (fun p => negb (existsb (fun widgetId =>
                                       includes (js "_") widgetId
                                       && streq widgetId (fst p)) ids))
            widgets).
Proof.
  revert widgets. induction ids as [| x ids IH]; intros widgets;
    cbn [List.fold_left existsb].
  - f_equal. induction widgets as [| p ws IHw]; [reflexivity |].
    cbn [List.filter negb]. f_equal. exact IHw.
  - destruct (includes (js "_") x) eqn:Hx; rewrite IH; cbn [andb orb];
      [| reflexivity].
    f_equal. unfold delete_prop. clear IH.
    induction widgets as [| p ws IHw]; [reflexivity |].
    cbn [List.filter]. destruct (streq x (fst p)); cbn [negb orb]; [exact IHw |].
    cbn [List.filter]. rewrite IHw. reflexivity.
Qed.

Lemma unsync_widgets_object (widgets : list (jsstring * value)) :
  unsync_widgets (VObj widgets)
  = Ok (VObj (List.filter (fun p => negb (includes (js "_") (fst p))) widgets)).
Proof.
  unfold unsync_widgets, Object_keys. cbn [Object_entries obind].
  rewrite unsync_fold_filter. do 2 f_equal. apply filter_ext_in. intros p Hin.
  f_equal. destruct (includes (js "_") (fst p)) eqn:Hp.
  - apply existsb_exists. exists (fst p). split; [now apply in_map |].
    now rewrite Hp, streq_refl.
  - destruct (existsb _ _) eqn:He; [| reflexivity].
    apply existsb_exists in He as (widgetId & _ & Hid).
    apply andb_prop in Hid as [Hinc Heq]. apply streq_eq in Heq as ->. congruence.
Qed.

Lemma unsync_widgets_other (widgets : value) :
  nullish widgets = false ->
  (forall ps, widgets <> VObj ps) ->
  unsync_widgets widgets = Ok widgets.
Proof.
  intros Hnullish Hother. unfold unsync_widgets, Object_keys.
  destruct (Object_entries widgets) as [entries | e] eqn:Hentries.
  - cbn [obind]. now rewrite unsync_fold_other.
  - destruct widgets; discriminate.
Qed.

Lemma assoc_set_id (k : jsstring) (v : value) (ps : list (jsstring * value)) :
  assoc k ps = Some v -> assoc_set k v ps = ps.
Proof.
  induction ps as [| [k' v'] ps IH]; [discriminate |].
  cbn [assoc assoc_set]. destruct (streq k k').
  - now intros [= ->].
  - intros Hv. now rewrite IH.
Qed.

(** A view that is an object and has [widgets] comes through the loop. *)
Lemma unsync_view_returns (ps : list (jsstring * value)) (widgets : value) :
  assoc (js "widgets") ps = Some widgets ->
  nullish widgets = false ->
  unsync_view (VObj ps) = Ok (without_underscore_ids (VObj ps)).
Proof.
  intros Hwidgets Hnullish. unfold unsync_view, without_underscore_ids.
  cbn [get_prop obind]. rewrite Hwidgets. cbn [default from_option id].
  destruct widgets as [| | b | x | s | xs | ws]; try discriminate;
    try (rewrite unsync_widgets_other by (reflexivity || discriminate);
         cbn [obind]; now rewrite assoc_set_id).
  now rewrite unsync_widgets_object.
Qed.

Lemma unsync_views_returns (views : list (jsstring * value)) :
  (forall name view,
     In (name, view) views -> streq name (js "___settings") = false ->
     exists ps widgets,
       view = VObj ps /\ assoc (js "widgets") ps = Some widgets
       /\ nullish widgets = false) ->
  unsync_views views = Ok (unsynced views).
Proof.
  induction views as [| [name view] views IH]; intros Hviews; [reflexivity |].
  cbn [unsync_views unsynced List.map fst snd].
  fold (unsynced views).
  rewrite IH by (intros n v Hin; apply Hviews; now right).
  destruct (streq name (js "___settings")) eqn:Hname; [reflexivity |].
  destruct (Hviews name view (or_introl eq_refl) Hname)
    as (ps & widgets & -> & Hwidgets & Hnullish).
  now rewrite (unsync_view_returns ps widgets Hwidgets Hnullish).
Qed.

Section Unsync.
Context `{Host}.
Variable visProject : value.

(** What is left of the widgets, whenever the call returns. *)
Lemma unsyncMultipleWidgets_widgets (project clone result : value) :
  deepClone (js_or project visProject) = Ok clone ->
  unsyncMultipleWidgets visProject project = Ok result ->
  forall view id,
    widget_of result view id
    = if streq view (js "___settings") then widget_of clone view id
      else if includes (js "_") id then None
      else widget_of clone view id.
Proof.
  intros Hclone Hrun view id. unfold unsyncMultipleWidgets in Hrun.
  rewrite Hclone in Hrun. cbn [obind] in Hrun.
  destruct (Object_entries clone) as [entries | e] eqn:Hentries; [| discriminate].
  cbn [obind] in Hrun.
  destruct (unsync_views entries) as [entries' | e] eqn:Hviews; [| discriminate].
  cbn [obind] in Hrun. injection Hrun as <-.
  destruct clone as [| | b | x | s | xs | ps]; cbn [widget_of];
    try (destruct (streq view (js "___settings")); [reflexivity |];
         destruct (includes (js "_") id); reflexivity).
  injection Hentries as <-.
  pose proof (unsync_views_spec ps entries' Hviews view) as Hview.
  destruct (assoc view ps) as [v |] eqn:Hv.
  - destruct Hview as (v' & -> & Hv').
    destruct (streq view (js "___settings")); [now subst |].
    apply unsync_view_spec. exact Hv'.
  - rewrite Hview. destruct (streq view (js "___settings")); [reflexivity |].
    now destruct (includes (js "_") id).
Qed.

(** X23: for a project whose views, [___settings] apart, are objects with
    [widgets], [unsyncMultipleWidgets] returns, and what it returns is the
    clone of the project with its views in their order, [___settings] as
    it is in the clone, and in every other view the [widgets] without
    those whose id holds an underscore: the other widgets and the other
    properties of the view are as in the clone. *)
Theorem unsyncMultipleWidgets_removes_underscore_ids
    (project : value) (views : list (jsstring * value)) :
  deepClone (js_or project visProject) = Ok (VObj views) ->
  (forall name view,
     In (name, view) views -> streq name (js "___settings") = false ->
     exists ps widgets,
       view = VObj ps /\ assoc (js "widgets") ps = Some widgets
       /\ nullish widgets = false) ->
  unsyncMultipleWidgets visProject project = Ok (VObj (unsynced views))
  /\ forall view id,
       widget_of (VObj (unsynced views)) view id
       = if streq view (js "___settings") then widget_of (VObj views) view id
         else if includes (js "_") id then None
         else widget_of (VObj views) view id.
Proof.
  intros Hclone Hviews.
  assert (Hrun : unsyncMultipleWidgets visProject project
                 = Ok (VObj (unsynced views))).
  { unfold unsyncMultipleWidgets. rewrite Hclone. cbn [obind Object_entries].
    now rewrite (unsync_views_returns views Hviews). }
  split; [exact Hrun |].
  exact (unsyncMultipleWidgets_widgets project (VObj views) _ Hclone Hrun).
Qed.

(** X24: a view other than [___settings] that has no [widgets] stops
    [unsyncMultipleWidgets] with a [TypeError]: its keys are asked for
    without the guard that [getNewWidgetIdNumber] has. *)
Theorem unsyncMultipleWidgets_needs_widgets
    (project : value) (views : list (jsstring * value)) (name : jsstring)
    (view : value) :
  deepClone (js_or project visProject) = Ok (VObj views) ->
  In (name, view) views ->
  streq name (js "___settings") = false ->
  nullish (default VUndefined
             (match view with VObj ps => assoc (js "widgets") ps | _ => None end))
  = true ->
  exists message,
    unsyncMultipleWidgets visProject project = Throw (TypeError message).
Proof.
  intros Hclone Hin Hname Hwidgets. unfold unsyncMultipleWidgets.
  rewrite Hclone. cbn [obind Object_entries].
  assert (Hview : exists message, unsync_view view = Throw (TypeError message)).
  { unfold unsync_view, unsync_widgets, Object_keys.
    destruct view as [| | b | x | s | xs | ps]; try (eexists; reflexivity).
    cbn [get_prop obind].
    destruct (assoc (js "widgets") ps) as [w |]; cbn [default from_option id] in *;
      [| eexists; reflexivity].
    destruct w; try discriminate Hwidgets; eexists; reflexivity. }
  destruct Hview as [message He].
  assert (Hviews : exists message', unsync_views views = Throw (TypeError message')).
  { clear Hclone. induction views as [| [k v] views IH]; [destruct Hin |].
    cbn [unsync_views]. destruct Hin as [[= -> ->] | Hin].
    - rewrite Hname, He. cbn [obind]. eauto.
    - destruct (streq k (js "___settings")).
      + cbn [obind]. destruct (IH Hin) as [message' ->]. cbn [obind]. eauto.
      + destruct (unsync_view v) as [v' | e] eqn:Hv; cbn [obind].
        * destruct (IH Hin) as [message' ->]. cbn [obind]. eauto.
        * destruct (unsync_view_type_error v e Hv) as [message' ->]. eauto. }
  destruct Hviews as [message' ->]. cbn [obind]. eauto.
Qed.

End Unsync.

Section UnsyncExample.
#[local] Existing Instance Example.host.

(** In [example_views] the view [main] loses [w000007_main]; its other
    widgets, the view [second] and [___settings] stay. *)
Lemma unsyncMultipleWidgets_removes_underscore_ids_witness :
  unsyncMultipleWidgets VUndefined (VObj example_views)
  = Ok (VObj
          [ (js "___settings", VObj [(js "folders", VArr [])]);
            (js "main",
               VObj [(js "widgets",
                        VObj [(js "w000001", VObj [(js "tpl", VStr (js "tplText"))]);
                              (js "g000003", VObj [(js "tpl", VStr (js "_tplGroup"))]);
                              (js "w12", VObj [(js "tpl", VStr (js "tplText"))])])]);
            (js "second",
               VObj [(js "widgets",
                        VObj [(js "w000002",
                                 VObj [(js "tpl", VStr (js "tplText"))])])]) ]).
Proof.
  destruct (unsyncMultipleWidgets_removes_underscore_ids VUndefined
              (VObj example_views) example_views eq_refl) as [Hrun _].
  - intros name view [[= <- <-] | [[= <- <-] | [[= <- <-] | []]]] Hname.
    + discriminate.
    + do 2 eexists. split; [reflexivity |]. split; reflexivity.
    + do 2 eexists. split; [reflexivity |]. split; reflexivity.
  - rewrite Hrun. reflexivity.
Defined.

Lemma unsyncMultipleWidgets_needs_widgets_witness :
  exists message,
    unsyncMultipleWidgets VUndefined (VObj [(js "main", VObj [])])
    = Throw (TypeError message).
Proof.
  apply (unsyncMultipleWidgets_needs_widgets VUndefined
           (VObj [(js "main", VObj [])]) [(js "main", VObj [])]
           (js "main") (VObj []));
    [reflexivity | now left | reflexivity | reflexivity].
Defined.

End UnsyncExample.

(** ** The overflow of a style *)

(** X25: after [calculateOverflow] the general [overflow] is in effect
    exactly when no specific one is: it is ['visible'] when neither
    [overflowX] nor [overflowY] is set, and absent or falsy otherwise.  No
    other property of the style is touched. *)
Theorem calculateOverflow_general_or_specific (style : list (jsstring * value)) :
  truthy (default VUndefined (assoc (js "overflow") (calculateOverflow style)))
  = negb (truthy (default VUndefined (assoc (js "overflowX") style)))
    && negb (truthy (default VUndefined (assoc (js "overflowY") style)))
  /\ (negb (truthy (default VUndefined (assoc (js "overflowX") style)))
      && negb (truthy (default VUndefined (assoc (js "overflowY") style))) = true ->
      assoc (js "overflow") (calculateOverflow style) = Some (VStr (js "visible")))
  /\ forall k,
       streq k (js "overflow") = false ->
       assoc k (calculateOverflow style) = assoc k style.
Proof.
  unfold calculateOverflow.
  destruct (negb (truthy (default VUndefined (assoc (js "overflowX") style)))
            && negb (truthy (default VUndefined (assoc (js "overflowY") style)))).
  - rewrite assoc_set_same. split; [reflexivity |]. split; [reflexivity |].
    intros k Hk. now apply assoc_set_other.
  - destruct (truthy (default VUndefined (assoc (js "overflow") style))) eqn:Hgeneral.
    + rewrite assoc_delete_same. split; [reflexivity |]. split; [discriminate |].
      intros k Hk. now apply assoc_delete_other.
    + split; [exact Hgeneral |]. split; [discriminate | reflexivity].
Qed.

(** X26: [calculateOverflow] is idempotent: a second call leaves the
    style as the first one has left it. *)
Theorem calculateOverflow_idempotent (style : list (jsstring * value)) :
  calculateOverflow (calculateOverflow style) = calculateOverflow style.
Proof.
  unfold calculateOverflow at 2 3.
  destruct (negb (truthy (default VUndefined (assoc (js "overflowX") style)))
            && negb (truthy (default VUndefined (assoc (js "overflowY") style))))
    eqn:Hspecific.
  - unfold calculateOverflow.
    rewrite !assoc_set_other by reflexivity. rewrite Hspecific.
    apply assoc_set_again.
  - destruct (truthy (default VUndefined (assoc (js "overflow") style))) eqn:Hgeneral.
    + unfold calculateOverflow.
      rewrite !assoc_delete_other by reflexivity. rewrite Hspecific.
      now rewrite assoc_delete_same.
    + unfold calculateOverflow. now rewrite Hspecific, Hgeneral.
Qed.
